(** * Credential bootstrap action: a shallow embedding and its properties

    The action is written to exchange a workload-identity token for
    temporary STS credentials, to presign a [GetCallerIdentity] request
    with them and to trade the presigned URL with a broker for the final
    credentials, which it exports to the environment.  As the source
    stands, the role assumption calls the SDK's command class without
    [new], so that every run stops there; the stages after it are
    modelled as they are written.

    The embedding follows the TypeScript source function by function.
    JavaScript strings are sequences of UTF-16 code units; effects
    (the [core] toolkit, the file system, the STS client, the signer,
    the broker) are threaded through an explicit state-and-exception
    monad whose state records every effect in order. *)

From Stdlib Require Import ZArith QArith Qpower Lqa Ascii String.
From stdpp Require Import gmap strings list fin_maps pretty.

Local Open Scope Z_scope.

(** ** JavaScript strings *)

Module Js.

(** A JavaScript string is a sequence of UTF-16 code units. *)
Definition jsstring := list Z.

(** The code units of a literal written in the source (ASCII text). *)
Definition js (s : string) : jsstring :=
  (λ c, Z.of_nat (nat_of_ascii c)) <$> list_ascii_of_string s.

(** [String.prototype.startsWith]. *)
Fixpoint startsWith (s prefix : jsstring) : bool :=
  match prefix, s with
  | [], _ => true
  | p :: prefix', c :: s' => (c =? p) && startsWith s' prefix'
  | _ :: _, [] => false
  end.

(** Truthiness, [!!i]: the empty string, the number zero and [undefined]
    (an absent value) are falsy. *)
Class Truthy (A : Type) := truthy : A → bool.
#[export] Instance truthy_string : Truthy jsstring :=
  λ s, match s with [] => false | _ :: _ => true end.
#[export] Instance truthy_number : Truthy Z := λ n, negb (n =? 0).
#[export] Instance truthy_option {A} `{Truthy A} : Truthy (option A) :=
  λ o, match o with Some a => truthy a | None => false end.

Definition isHighSurrogate (u : Z) : bool := (0xD800 <=? u) && (u <=? 0xDBFF).
Definition isLowSurrogate (u : Z) : bool := (0xDC00 <=? u) && (u <=? 0xDFFF).

(** The code point encoded by a surrogate pair. *)
Definition surrogatePair (hi lo : Z) : Z :=
  0x10000 + (hi - 0xD800) * 0x400 + (lo - 0xDC00).

(** The code points of a string, as a regular expression with the [u]
    flag sees them: a high surrogate followed by a low one is one code
    point, any other code unit (a lone surrogate too) stands for itself. *)
Fixpoint codePoints (s : jsstring) : list Z :=
  match s with
  | [] => []
  | hi :: rest =>
      match rest with
      | lo :: rest' =>
          if isHighSurrogate hi && isLowSurrogate lo
          then surrogatePair hi lo :: codePoints rest'
          else hi :: codePoints rest
      | [] => [hi]
      end
  end.

End Js.
Export Js.

(** ** Unicode general categories

    The property escapes [\p{L}], [\p{Z}] and [\p{N}] of the workflow-name
    pattern are answered by the engine's Unicode tables.  The ranges
    below are those of Unicode 14.0. *)

Module Unicode.

(** General_Category = Letter (Lu, Ll, Lt, Lm, Lo): the code points matched by \p{L}. *)
Definition Letter : list (Z * Z) :=
  [(0x41, 0x5A); (0x61, 0x7A); (0xAA, 0xAA); (0xB5, 0xB5); (0xBA, 0xBA); (0xC0, 0xD6);
   (0xD8, 0xF6); (0xF8, 0x2C1); (0x2C6, 0x2D1); (0x2E0, 0x2E4); (0x2EC, 0x2EC);
   (0x2EE, 0x2EE); (0x370, 0x374); (0x376, 0x377); (0x37A, 0x37D); (0x37F, 0x37F);
   (0x386, 0x386); (0x388, 0x38A); (0x38C, 0x38C); (0x38E, 0x3A1); (0x3A3, 0x3F5);
   (0x3F7, 0x481); (0x48A, 0x52F); (0x531, 0x556); (0x559, 0x559); (0x560, 0x588);
   (0x5D0, 0x5EA); (0x5EF, 0x5F2); (0x620, 0x64A); (0x66E, 0x66F); (0x671, 0x6D3);
   (0x6D5, 0x6D5); (0x6E5, 0x6E6); (0x6EE, 0x6EF); (0x6FA, 0x6FC); (0x6FF, 0x6FF);
   (0x710, 0x710); (0x712, 0x72F); (0x74D, 0x7A5); (0x7B1, 0x7B1); (0x7CA, 0x7EA);
   (0x7F4, 0x7F5); (0x7FA, 0x7FA); (0x800, 0x815); (0x81A, 0x81A); (0x824, 0x824);
   (0x828, 0x828); (0x840, 0x858); (0x860, 0x86A); (0x870, 0x887); (0x889, 0x88E);
   (0x8A0, 0x8C9); (0x904, 0x939); (0x93D, 0x93D); (0x950, 0x950); (0x958, 0x961);
   (0x971, 0x980); (0x985, 0x98C); (0x98F, 0x990); (0x993, 0x9A8); (0x9AA, 0x9B0);
   (0x9B2, 0x9B2); (0x9B6, 0x9B9); (0x9BD, 0x9BD); (0x9CE, 0x9CE); (0x9DC, 0x9DD);
   (0x9DF, 0x9E1); (0x9F0, 0x9F1); (0x9FC, 0x9FC); (0xA05, 0xA0A); (0xA0F, 0xA10);
   (0xA13, 0xA28); (0xA2A, 0xA30); (0xA32, 0xA33); (0xA35, 0xA36); (0xA38, 0xA39);
   (0xA59, 0xA5C); (0xA5E, 0xA5E); (0xA72, 0xA74); (0xA85, 0xA8D); (0xA8F, 0xA91);
   (0xA93, 0xAA8); (0xAAA, 0xAB0); (0xAB2, 0xAB3); (0xAB5, 0xAB9); (0xABD, 0xABD);
   (0xAD0, 0xAD0); (0xAE0, 0xAE1); (0xAF9, 0xAF9); (0xB05, 0xB0C); (0xB0F, 0xB10);
   (0xB13, 0xB28); (0xB2A, 0xB30); (0xB32, 0xB33); (0xB35, 0xB39); (0xB3D, 0xB3D);
   (0xB5C, 0xB5D); (0xB5F, 0xB61); (0xB71, 0xB71); (0xB83, 0xB83); (0xB85, 0xB8A);
   (0xB8E, 0xB90); (0xB92, 0xB95); (0xB99, 0xB9A); (0xB9C, 0xB9C); (0xB9E, 0xB9F);
   (0xBA3, 0xBA4); (0xBA8, 0xBAA); (0xBAE, 0xBB9); (0xBD0, 0xBD0); (0xC05, 0xC0C);
   (0xC0E, 0xC10); (0xC12, 0xC28); (0xC2A, 0xC39); (0xC3D, 0xC3D); (0xC58, 0xC5A);
   (0xC5D, 0xC5D); (0xC60, 0xC61); (0xC80, 0xC80); (0xC85, 0xC8C); (0xC8E, 0xC90);
   (0xC92, 0xCA8); (0xCAA, 0xCB3); (0xCB5, 0xCB9); (0xCBD, 0xCBD); (0xCDD, 0xCDE);
   (0xCE0, 0xCE1); (0xCF1, 0xCF2); (0xD04, 0xD0C); (0xD0E, 0xD10); (0xD12, 0xD3A);
   (0xD3D, 0xD3D); (0xD4E, 0xD4E); (0xD54, 0xD56); (0xD5F, 0xD61); (0xD7A, 0xD7F);
   (0xD85, 0xD96); (0xD9A, 0xDB1); (0xDB3, 0xDBB); (0xDBD, 0xDBD); (0xDC0, 0xDC6);
   (0xE01, 0xE30); (0xE32, 0xE33); (0xE40, 0xE46); (0xE81, 0xE82); (0xE84, 0xE84);
   (0xE86, 0xE8A); (0xE8C, 0xEA3); (0xEA5, 0xEA5); (0xEA7, 0xEB0); (0xEB2, 0xEB3);
   (0xEBD, 0xEBD); (0xEC0, 0xEC4); (0xEC6, 0xEC6); (0xEDC, 0xEDF); (0xF00, 0xF00);
   (0xF40, 0xF47); (0xF49, 0xF6C); (0xF88, 0xF8C); (0x1000, 0x102A); (0x103F, 0x103F);
   (0x1050, 0x1055); (0x105A, 0x105D); (0x1061, 0x1061); (0x1065, 0x1066); (0x106E, 0x1070);
   (0x1075, 0x1081); (0x108E, 0x108E); (0x10A0, 0x10C5); (0x10C7, 0x10C7); (0x10CD, 0x10CD);
   (0x10D0, 0x10FA); (0x10FC, 0x1248); (0x124A, 0x124D); (0x1250, 0x1256); (0x1258, 0x1258);
   (0x125A, 0x125D); (0x1260, 0x1288); (0x128A, 0x128D); (0x1290, 0x12B0); (0x12B2, 0x12B5);
   (0x12B8, 0x12BE); (0x12C0, 0x12C0); (0x12C2, 0x12C5); (0x12C8, 0x12D6); (0x12D8, 0x1310);
   (0x1312, 0x1315); (0x1318, 0x135A); (0x1380, 0x138F); (0x13A0, 0x13F5); (0x13F8, 0x13FD);
   (0x1401, 0x166C); (0x166F, 0x167F); (0x1681, 0x169A); (0x16A0, 0x16EA); (0x16F1, 0x16F8);
   (0x1700, 0x1711); (0x171F, 0x1731); (0x1740, 0x1751); (0x1760, 0x176C); (0x176E, 0x1770);
   (0x1780, 0x17B3); (0x17D7, 0x17D7); (0x17DC, 0x17DC); (0x1820, 0x1878); (0x1880, 0x1884);
   (0x1887, 0x18A8); (0x18AA, 0x18AA); (0x18B0, 0x18F5); (0x1900, 0x191E); (0x1950, 0x196D);
   (0x1970, 0x1974); (0x1980, 0x19AB); (0x19B0, 0x19C9); (0x1A00, 0x1A16); (0x1A20, 0x1A54);
   (0x1AA7, 0x1AA7); (0x1B05, 0x1B33); (0x1B45, 0x1B4C); (0x1B83, 0x1BA0); (0x1BAE, 0x1BAF);
   (0x1BBA, 0x1BE5); (0x1C00, 0x1C23); (0x1C4D, 0x1C4F); (0x1C5A, 0x1C7D); (0x1C80, 0x1C88);
   (0x1C90, 0x1CBA); (0x1CBD, 0x1CBF); (0x1CE9, 0x1CEC); (0x1CEE, 0x1CF3); (0x1CF5, 0x1CF6);
   (0x1CFA, 0x1CFA); (0x1D00, 0x1DBF); (0x1E00, 0x1F15); (0x1F18, 0x1F1D); (0x1F20, 0x1F45);
   (0x1F48, 0x1F4D); (0x1F50, 0x1F57); (0x1F59, 0x1F59); (0x1F5B, 0x1F5B); (0x1F5D, 0x1F5D);
   (0x1F5F, 0x1F7D); (0x1F80, 0x1FB4); (0x1FB6, 0x1FBC); (0x1FBE, 0x1FBE); (0x1FC2, 0x1FC4);
   (0x1FC6, 0x1FCC); (0x1FD0, 0x1FD3); (0x1FD6, 0x1FDB); (0x1FE0, 0x1FEC); (0x1FF2, 0x1FF4);
   (0x1FF6, 0x1FFC); (0x2071, 0x2071); (0x207F, 0x207F); (0x2090, 0x209C); (0x2102, 0x2102);
   (0x2107, 0x2107); (0x210A, 0x2113); (0x2115, 0x2115); (0x2119, 0x211D); (0x2124, 0x2124);
   (0x2126, 0x2126); (0x2128, 0x2128); (0x212A, 0x212D); (0x212F, 0x2139); (0x213C, 0x213F);
   (0x2145, 0x2149); (0x214E, 0x214E); (0x2183, 0x2184); (0x2C00, 0x2CE4); (0x2CEB, 0x2CEE);
   (0x2CF2, 0x2CF3); (0x2D00, 0x2D25); (0x2D27, 0x2D27); (0x2D2D, 0x2D2D); (0x2D30, 0x2D67);
   (0x2D6F, 0x2D6F); (0x2D80, 0x2D96); (0x2DA0, 0x2DA6); (0x2DA8, 0x2DAE); (0x2DB0, 0x2DB6);
   (0x2DB8, 0x2DBE); (0x2DC0, 0x2DC6); (0x2DC8, 0x2DCE); (0x2DD0, 0x2DD6); (0x2DD8, 0x2DDE);
   (0x2E2F, 0x2E2F); (0x3005, 0x3006); (0x3031, 0x3035); (0x303B, 0x303C); (0x3041, 0x3096);
   (0x309D, 0x309F); (0x30A1, 0x30FA); (0x30FC, 0x30FF); (0x3105, 0x312F); (0x3131, 0x318E);
   (0x31A0, 0x31BF); (0x31F0, 0x31FF); (0x3400, 0x4DBF); (0x4E00, 0xA48C); (0xA4D0, 0xA4FD);
   (0xA500, 0xA60C); (0xA610, 0xA61F); (0xA62A, 0xA62B); (0xA640, 0xA66E); (0xA67F, 0xA69D);
   (0xA6A0, 0xA6E5); (0xA717, 0xA71F); (0xA722, 0xA788); (0xA78B, 0xA7CA); (0xA7D0, 0xA7D1);
   (0xA7D3, 0xA7D3); (0xA7D5, 0xA7D9); (0xA7F2, 0xA801); (0xA803, 0xA805); (0xA807, 0xA80A);
   (0xA80C, 0xA822); (0xA840, 0xA873); (0xA882, 0xA8B3); (0xA8F2, 0xA8F7); (0xA8FB, 0xA8FB);
   (0xA8FD, 0xA8FE); (0xA90A, 0xA925); (0xA930, 0xA946); (0xA960, 0xA97C); (0xA984, 0xA9B2);
   (0xA9CF, 0xA9CF); (0xA9E0, 0xA9E4); (0xA9E6, 0xA9EF); (0xA9FA, 0xA9FE); (0xAA00, 0xAA28);
   (0xAA40, 0xAA42); (0xAA44, 0xAA4B); (0xAA60, 0xAA76); (0xAA7A, 0xAA7A); (0xAA7E, 0xAAAF);
   (0xAAB1, 0xAAB1); (0xAAB5, 0xAAB6); (0xAAB9, 0xAABD); (0xAAC0, 0xAAC0); (0xAAC2, 0xAAC2);
   (0xAADB, 0xAADD); (0xAAE0, 0xAAEA); (0xAAF2, 0xAAF4); (0xAB01, 0xAB06); (0xAB09, 0xAB0E);
   (0xAB11, 0xAB16); (0xAB20, 0xAB26); (0xAB28, 0xAB2E); (0xAB30, 0xAB5A); (0xAB5C, 0xAB69);
   (0xAB70, 0xABE2); (0xAC00, 0xD7A3); (0xD7B0, 0xD7C6); (0xD7CB, 0xD7FB); (0xF900, 0xFA6D);
   (0xFA70, 0xFAD9); (0xFB00, 0xFB06); (0xFB13, 0xFB17); (0xFB1D, 0xFB1D); (0xFB1F, 0xFB28);
   (0xFB2A, 0xFB36); (0xFB38, 0xFB3C); (0xFB3E, 0xFB3E); (0xFB40, 0xFB41); (0xFB43, 0xFB44);
   (0xFB46, 0xFBB1); (0xFBD3, 0xFD3D); (0xFD50, 0xFD8F); (0xFD92, 0xFDC7); (0xFDF0, 0xFDFB);
   (0xFE70, 0xFE74); (0xFE76, 0xFEFC); (0xFF21, 0xFF3A); (0xFF41, 0xFF5A); (0xFF66, 0xFFBE);
   (0xFFC2, 0xFFC7); (0xFFCA, 0xFFCF); (0xFFD2, 0xFFD7); (0xFFDA, 0xFFDC); (0x10000, 0x1000B);
   (0x1000D, 0x10026); (0x10028, 0x1003A); (0x1003C, 0x1003D); (0x1003F, 0x1004D);
   (0x10050, 0x1005D); (0x10080, 0x100FA); (0x10280, 0x1029C); (0x102A0, 0x102D0);
   (0x10300, 0x1031F); (0x1032D, 0x10340); (0x10342, 0x10349); (0x10350, 0x10375);
   (0x10380, 0x1039D); (0x103A0, 0x103C3); (0x103C8, 0x103CF); (0x10400, 0x1049D);
   (0x104B0, 0x104D3); (0x104D8, 0x104FB); (0x10500, 0x10527); (0x10530, 0x10563);
   (0x10570, 0x1057A); (0x1057C, 0x1058A); (0x1058C, 0x10592); (0x10594, 0x10595);
   (0x10597, 0x105A1); (0x105A3, 0x105B1); (0x105B3, 0x105B9); (0x105BB, 0x105BC);
   (0x10600, 0x10736); (0x10740, 0x10755); (0x10760, 0x10767); (0x10780, 0x10785);
   (0x10787, 0x107B0); (0x107B2, 0x107BA); (0x10800, 0x10805); (0x10808, 0x10808);
   (0x1080A, 0x10835); (0x10837, 0x10838); (0x1083C, 0x1083C); (0x1083F, 0x10855);
   (0x10860, 0x10876); (0x10880, 0x1089E); (0x108E0, 0x108F2); (0x108F4, 0x108F5);
   (0x10900, 0x10915); (0x10920, 0x10939); (0x10980, 0x109B7); (0x109BE, 0x109BF);
   (0x10A00, 0x10A00); (0x10A10, 0x10A13); (0x10A15, 0x10A17); (0x10A19, 0x10A35);
   (0x10A60, 0x10A7C); (0x10A80, 0x10A9C); (0x10AC0, 0x10AC7); (0x10AC9, 0x10AE4);
   (0x10B00, 0x10B35); (0x10B40, 0x10B55); (0x10B60, 0x10B72); (0x10B80, 0x10B91);
   (0x10C00, 0x10C48); (0x10C80, 0x10CB2); (0x10CC0, 0x10CF2); (0x10D00, 0x10D23);
   (0x10E80, 0x10EA9); (0x10EB0, 0x10EB1); (0x10F00, 0x10F1C); (0x10F27, 0x10F27);
   (0x10F30, 0x10F45); (0x10F70, 0x10F81); (0x10FB0, 0x10FC4); (0x10FE0, 0x10FF6);
   (0x11003, 0x11037); (0x11071, 0x11072); (0x11075, 0x11075); (0x11083, 0x110AF);
   (0x110D0, 0x110E8); (0x11103, 0x11126); (0x11144, 0x11144); (0x11147, 0x11147);
   (0x11150, 0x11172); (0x11176, 0x11176); (0x11183, 0x111B2); (0x111C1, 0x111C4);
   (0x111DA, 0x111DA); (0x111DC, 0x111DC); (0x11200, 0x11211); (0x11213, 0x1122B);
   (0x11280, 0x11286); (0x11288, 0x11288); (0x1128A, 0x1128D); (0x1128F, 0x1129D);
   (0x1129F, 0x112A8); (0x112B0, 0x112DE); (0x11305, 0x1130C); (0x1130F, 0x11310);
   (0x11313, 0x11328); (0x1132A, 0x11330); (0x11332, 0x11333); (0x11335, 0x11339);
   (0x1133D, 0x1133D); (0x11350, 0x11350); (0x1135D, 0x11361); (0x11400, 0x11434);
   (0x11447, 0x1144A); (0x1145F, 0x11461); (0x11480, 0x114AF); (0x114C4, 0x114C5);
   (0x114C7, 0x114C7); (0x11580, 0x115AE); (0x115D8, 0x115DB); (0x11600, 0x1162F);
   (0x11644, 0x11644); (0x11680, 0x116AA); (0x116B8, 0x116B8); (0x11700, 0x1171A);
   (0x11740, 0x11746); (0x11800, 0x1182B); (0x118A0, 0x118DF); (0x118FF, 0x11906);
   (0x11909, 0x11909); (0x1190C, 0x11913); (0x11915, 0x11916); (0x11918, 0x1192F);
   (0x1193F, 0x1193F); (0x11941, 0x11941); (0x119A0, 0x119A7); (0x119AA, 0x119D0);
   (0x119E1, 0x119E1); (0x119E3, 0x119E3); (0x11A00, 0x11A00); (0x11A0B, 0x11A32);
   (0x11A3A, 0x11A3A); (0x11A50, 0x11A50); (0x11A5C, 0x11A89); (0x11A9D, 0x11A9D);
   (0x11AB0, 0x11AF8); (0x11C00, 0x11C08); (0x11C0A, 0x11C2E); (0x11C40, 0x11C40);
   (0x11C72, 0x11C8F); (0x11D00, 0x11D06); (0x11D08, 0x11D09); (0x11D0B, 0x11D30);
   (0x11D46, 0x11D46); (0x11D60, 0x11D65); (0x11D67, 0x11D68); (0x11D6A, 0x11D89);
   (0x11D98, 0x11D98); (0x11EE0, 0x11EF2); (0x11FB0, 0x11FB0); (0x12000, 0x12399);
   (0x12480, 0x12543); (0x12F90, 0x12FF0); (0x13000, 0x1342E); (0x14400, 0x14646);
   (0x16800, 0x16A38); (0x16A40, 0x16A5E); (0x16A70, 0x16ABE); (0x16AD0, 0x16AED);
   (0x16B00, 0x16B2F); (0x16B40, 0x16B43); (0x16B63, 0x16B77); (0x16B7D, 0x16B8F);
   (0x16E40, 0x16E7F); (0x16F00, 0x16F4A); (0x16F50, 0x16F50); (0x16F93, 0x16F9F);
   (0x16FE0, 0x16FE1); (0x16FE3, 0x16FE3); (0x17000, 0x187F7); (0x18800, 0x18CD5);
   (0x18D00, 0x18D08); (0x1AFF0, 0x1AFF3); (0x1AFF5, 0x1AFFB); (0x1AFFD, 0x1AFFE);
   (0x1B000, 0x1B122); (0x1B150, 0x1B152); (0x1B164, 0x1B167); (0x1B170, 0x1B2FB);
   (0x1BC00, 0x1BC6A); (0x1BC70, 0x1BC7C); (0x1BC80, 0x1BC88); (0x1BC90, 0x1BC99);
   (0x1D400, 0x1D454); (0x1D456, 0x1D49C); (0x1D49E, 0x1D49F); (0x1D4A2, 0x1D4A2);
   (0x1D4A5, 0x1D4A6); (0x1D4A9, 0x1D4AC); (0x1D4AE, 0x1D4B9); (0x1D4BB, 0x1D4BB);
   (0x1D4BD, 0x1D4C3); (0x1D4C5, 0x1D505); (0x1D507, 0x1D50A); (0x1D50D, 0x1D514);
   (0x1D516, 0x1D51C); (0x1D51E, 0x1D539); (0x1D53B, 0x1D53E); (0x1D540, 0x1D544);
   (0x1D546, 0x1D546); (0x1D54A, 0x1D550); (0x1D552, 0x1D6A5); (0x1D6A8, 0x1D6C0);
   (0x1D6C2, 0x1D6DA); (0x1D6DC, 0x1D6FA); (0x1D6FC, 0x1D714); (0x1D716, 0x1D734);
   (0x1D736, 0x1D74E); (0x1D750, 0x1D76E); (0x1D770, 0x1D788); (0x1D78A, 0x1D7A8);
   (0x1D7AA, 0x1D7C2); (0x1D7C4, 0x1D7CB); (0x1DF00, 0x1DF1E); (0x1E100, 0x1E12C);
   (0x1E137, 0x1E13D); (0x1E14E, 0x1E14E); (0x1E290, 0x1E2AD); (0x1E2C0, 0x1E2EB);
   (0x1E7E0, 0x1E7E6); (0x1E7E8, 0x1E7EB); (0x1E7ED, 0x1E7EE); (0x1E7F0, 0x1E7FE);
   (0x1E800, 0x1E8C4); (0x1E900, 0x1E943); (0x1E94B, 0x1E94B); (0x1EE00, 0x1EE03);
   (0x1EE05, 0x1EE1F); (0x1EE21, 0x1EE22); (0x1EE24, 0x1EE24); (0x1EE27, 0x1EE27);
   (0x1EE29, 0x1EE32); (0x1EE34, 0x1EE37); (0x1EE39, 0x1EE39); (0x1EE3B, 0x1EE3B);
   (0x1EE42, 0x1EE42); (0x1EE47, 0x1EE47); (0x1EE49, 0x1EE49); (0x1EE4B, 0x1EE4B);
   (0x1EE4D, 0x1EE4F); (0x1EE51, 0x1EE52); (0x1EE54, 0x1EE54); (0x1EE57, 0x1EE57);
   (0x1EE59, 0x1EE59); (0x1EE5B, 0x1EE5B); (0x1EE5D, 0x1EE5D); (0x1EE5F, 0x1EE5F);
   (0x1EE61, 0x1EE62); (0x1EE64, 0x1EE64); (0x1EE67, 0x1EE6A); (0x1EE6C, 0x1EE72);
   (0x1EE74, 0x1EE77); (0x1EE79, 0x1EE7C); (0x1EE7E, 0x1EE7E); (0x1EE80, 0x1EE89);
   (0x1EE8B, 0x1EE9B); (0x1EEA1, 0x1EEA3); (0x1EEA5, 0x1EEA9); (0x1EEAB, 0x1EEBB);
   (0x20000, 0x2A6DF); (0x2A700, 0x2B738); (0x2B740, 0x2B81D); (0x2B820, 0x2CEA1);
   (0x2CEB0, 0x2EBE0); (0x2F800, 0x2FA1D); (0x30000, 0x3134A)].

(** General_Category = Separator (Zs, Zl, Zp): the code points matched by \p{Z}. *)
Definition Separator : list (Z * Z) :=
  [(0x20, 0x20); (0xA0, 0xA0); (0x1680, 0x1680); (0x2000, 0x200A); (0x2028, 0x2029);
   (0x202F, 0x202F); (0x205F, 0x205F); (0x3000, 0x3000)].

(** General_Category = Number (Nd, Nl, No): the code points matched by \p{N}. *)
Definition Number : list (Z * Z) :=
  [(0x30, 0x39); (0xB2, 0xB3); (0xB9, 0xB9); (0xBC, 0xBE); (0x660, 0x669); (0x6F0, 0x6F9);
   (0x7C0, 0x7C9); (0x966, 0x96F); (0x9E6, 0x9EF); (0x9F4, 0x9F9); (0xA66, 0xA6F);
   (0xAE6, 0xAEF); (0xB66, 0xB6F); (0xB72, 0xB77); (0xBE6, 0xBF2); (0xC66, 0xC6F);
   (0xC78, 0xC7E); (0xCE6, 0xCEF); (0xD58, 0xD5E); (0xD66, 0xD78); (0xDE6, 0xDEF);
   (0xE50, 0xE59); (0xED0, 0xED9); (0xF20, 0xF33); (0x1040, 0x1049); (0x1090, 0x1099);
   (0x1369, 0x137C); (0x16EE, 0x16F0); (0x17E0, 0x17E9); (0x17F0, 0x17F9); (0x1810, 0x1819);
   (0x1946, 0x194F); (0x19D0, 0x19DA); (0x1A80, 0x1A89); (0x1A90, 0x1A99); (0x1B50, 0x1B59);
   (0x1BB0, 0x1BB9); (0x1C40, 0x1C49); (0x1C50, 0x1C59); (0x2070, 0x2070); (0x2074, 0x2079);
   (0x2080, 0x2089); (0x2150, 0x2182); (0x2185, 0x2189); (0x2460, 0x249B); (0x24EA, 0x24FF);
   (0x2776, 0x2793); (0x2CFD, 0x2CFD); (0x3007, 0x3007); (0x3021, 0x3029); (0x3038, 0x303A);
   (0x3192, 0x3195); (0x3220, 0x3229); (0x3248, 0x324F); (0x3251, 0x325F); (0x3280, 0x3289);
   (0x32B1, 0x32BF); (0xA620, 0xA629); (0xA6E6, 0xA6EF); (0xA830, 0xA835); (0xA8D0, 0xA8D9);
   (0xA900, 0xA909); (0xA9D0, 0xA9D9); (0xA9F0, 0xA9F9); (0xAA50, 0xAA59); (0xABF0, 0xABF9);
   (0xFF10, 0xFF19); (0x10107, 0x10133); (0x10140, 0x10178); (0x1018A, 0x1018B);
   (0x102E1, 0x102FB); (0x10320, 0x10323); (0x10341, 0x10341); (0x1034A, 0x1034A);
   (0x103D1, 0x103D5); (0x104A0, 0x104A9); (0x10858, 0x1085F); (0x10879, 0x1087F);
   (0x108A7, 0x108AF); (0x108FB, 0x108FF); (0x10916, 0x1091B); (0x109BC, 0x109BD);
   (0x109C0, 0x109CF); (0x109D2, 0x109FF); (0x10A40, 0x10A48); (0x10A7D, 0x10A7E);
   (0x10A9D, 0x10A9F); (0x10AEB, 0x10AEF); (0x10B58, 0x10B5F); (0x10B78, 0x10B7F);
   (0x10BA9, 0x10BAF); (0x10CFA, 0x10CFF); (0x10D30, 0x10D39); (0x10E60, 0x10E7E);
   (0x10F1D, 0x10F26); (0x10F51, 0x10F54); (0x10FC5, 0x10FCB); (0x11052, 0x1106F);
   (0x110F0, 0x110F9); (0x11136, 0x1113F); (0x111D0, 0x111D9); (0x111E1, 0x111F4);
   (0x112F0, 0x112F9); (0x11450, 0x11459); (0x114D0, 0x114D9); (0x11650, 0x11659);
   (0x116C0, 0x116C9); (0x11730, 0x1173B); (0x118E0, 0x118F2); (0x11950, 0x11959);
   (0x11C50, 0x11C6C); (0x11D50, 0x11D59); (0x11DA0, 0x11DA9); (0x11FC0, 0x11FD4);
   (0x12400, 0x1246E); (0x16A60, 0x16A69); (0x16AC0, 0x16AC9); (0x16B50, 0x16B59);
   (0x16B5B, 0x16B61); (0x16E80, 0x16E96); (0x1D2E0, 0x1D2F3); (0x1D360, 0x1D378);
   (0x1D7CE, 0x1D7FF); (0x1E140, 0x1E149); (0x1E2F0, 0x1E2F9); (0x1E8C7, 0x1E8CF);
   (0x1E950, 0x1E959); (0x1EC71, 0x1ECAB); (0x1ECAD, 0x1ECAF); (0x1ECB1, 0x1ECB4);
   (0x1ED01, 0x1ED2D); (0x1ED2F, 0x1ED3D); (0x1F100, 0x1F10C); (0x1FBF0, 0x1FBF9)].

Definition in_ranges (cp : Z) (rs : list (Z * Z)) : bool :=
  existsb (λ r, (fst r <=? cp) && (cp <=? snd r)) rs.

Definition is_L (cp : Z) : bool := in_ranges cp Letter.
Definition is_Z (cp : Z) : bool := in_ranges cp Separator.
Definition is_N (cp : Z) : bool := in_ranges cp Number.

End Unicode.

(** ** Constants of the module *)

Definition DEFAULT_ROLE_DURATION_FOR_OIDC_ROLES : Z := 3600.
Definition USER_AGENT : jsstring := js "configure-aws-credentials-for-github-actions".
Definition MAX_TAG_VALUE_LENGTH : nat := 256.
Definition SANITIZATION_CHARACTER : Z := 0x5F.
Definition ROLE_SESSION_NAME : jsstring := js "GitHubActions".
Definition LAMBDA_URL : jsstring := js "".

(** ** Tag sanitizer *)

(** [actor.replace(/\[|\]/g, SANITIZATION_CHARACTER)]: without the [u]
    flag the pattern runs over code units. *)
Definition sanitizeGithubActor (actor : jsstring) : jsstring :=
  (λ c, if (c =? 0x5B) || (c =? 0x5D) then SANITIZATION_CHARACTER else c) <$> actor.

(** The character class of the workflow-name pattern, without its
    negation: [\p{L}\p{Z}\p{N}_:/=+.-@-].  Inside the brackets [.-@] is a
    range, from U+002E to U+0040; the last [-] is a literal. *)
Definition workflowNameClass (cp : Z) : bool :=
  Unicode.is_L cp || Unicode.is_Z cp || Unicode.is_N cp
  || (cp =? 0x5F) || (cp =? 0x3A) || (cp =? 0x2F) || (cp =? 0x3D) || (cp =? 0x2B)
  || ((0x2E <=? cp) && (cp <=? 0x40))
  || (cp =? 0x2D).

(** [name.replace(/[^...]/gu, SANITIZATION_CHARACTER)]: with the [u] flag
    the pattern runs over code points; a code point outside the class is
    replaced by one sentinel code unit, whether it took one code unit or
    two. *)
Fixpoint replaceSpecialCharacters (name : jsstring) : jsstring :=
  match name with
  | [] => []
  | hi :: rest =>
      match rest with
      | lo :: rest' =>
          if isHighSurrogate hi && isLowSurrogate lo
          then (if workflowNameClass (surrogatePair hi lo)
                then hi :: lo :: replaceSpecialCharacters rest'
                else SANITIZATION_CHARACTER :: replaceSpecialCharacters rest')
          else (if workflowNameClass hi then hi else SANITIZATION_CHARACTER)
                 :: replaceSpecialCharacters rest
      | [] => [if workflowNameClass hi then hi else SANITIZATION_CHARACTER]
      end
  end.

Definition sanitizeGithubWorkflowName (name : jsstring) : jsstring :=
  let nameWithoutSpecialCharacters := replaceSpecialCharacters name in
  let nameTruncated := take MAX_TAG_VALUE_LENGTH nameWithoutSpecialCharacters in
  nameTruncated.

(** The value pattern of a session tag in the STS API reference, which
    the comment in [sanitizeGithubWorkflowName] cites for the constraint:
    [[\p{L}\p{Z}\p{N}_.:/=+\-@]*]. *)
Definition tagValueChar (cp : Z) : bool :=
  Unicode.is_L cp || Unicode.is_Z cp || Unicode.is_N cp
  || (cp =? 0x5F) || (cp =? 0x2E) || (cp =? 0x3A) || (cp =? 0x2F) || (cp =? 0x3D)
  || (cp =? 0x2B) || (cp =? 0x2D) || (cp =? 0x40).

(** ** Errors, results and the effect monad *)

(** A thrown value; the program only ever reads its [message]. *)
Record Error := mkError { message : jsstring }.

(** A call that returned (a promise that resolved) or threw (rejected). *)
Inductive Result (A : Type) : Type :=
| Ok (a : A)
| Err (e : Error).
Arguments Ok {A} a.
Arguments Err {A} e.

(** A computation over a state [S].  The answer [None] means that the
    computation has not settled within the fuel it was given. *)
Definition Eff (S A : Type) : Type := S → option (Result A) * S.

Definition ret {S A} (a : A) : Eff S A := λ s, (Some (Ok a), s).
Definition throw {S A} (e : Error) : Eff S A := λ s, (Some (Err e), s).
Definition pending {S A} : Eff S A := λ s, (None, s).

Definition bind {S A B} (c : Eff S A) (k : A → Eff S B) : Eff S B :=
  λ s, match c s with
       | (Some (Ok a), s') => k a s'
       | (Some (Err e), s') => (Some (Err e), s')
       | (None, s') => (None, s')
       end.

(** [try { c } catch (error) { handler(error) }]. *)
Definition tryCatch {S A} (c : Eff S A) (handler : Error → Eff S A) : Eff S A :=
  λ s, match c s with
       | (Some (Err e), s') => handler e s'
       | settled => settled
       end.

Declare Scope eff_scope.
Delimit Scope eff_scope with eff.
Notation "'let!' x ':=' c 'in' k" := (bind c (λ x, k))
  (at level 10, x pattern, c at level 100, k at level 200) : eff_scope.
Notation "c ';;' k" := (bind c (λ _, k))
  (at level 100, k at level 200, right associativity) : eff_scope.
Local Open Scope eff_scope.

(** [assert(cond, msg)] of node's [assert] module. *)
Definition assert {S} (cond : bool) (msg : jsstring) : Eff S unit :=
  if cond then ret tt else throw (mkError msg).

(** [isDefined = i => !!i]. *)
Definition isDefined {A} `{Truthy A} (i : A) : bool := truthy i.

(** ** Retry with backoff *)

Section Retry.
Context {S A : Type}.
(** The module-level [sleep] (replaceable) and [Math.random]. *)
Variable sleep : Q → Eff S unit.
Variable random : Eff S Q.

(** [fuel] bounds the number of attempts that are followed: the source
    recurses without a bound of its own. *)
Fixpoint retryAndBackoff (fuel : nat) (fn : Eff S A) (isRetryable : bool)
    (retries maxRetries base : Z) : Eff S A :=
  match fuel with
  | O => pending
  | Datatypes.S fuel' =>
      tryCatch fn (λ err,
        if negb isRetryable then throw err
        else
          let! r := random in
          sleep (Qmult r (Qmult (Qpower (inject_Z 2) retries) (inject_Z base)));;
          let retries := retries + 1 in
          if retries =? maxRetries then throw err
          else retryAndBackoff fuel' fn isRetryable retries maxRetries base)
  end.
End Retry.

(** An instrumented state for exercising the executor: the attempts made
    and the delays slept, in order. *)
Inductive ProbeEvent :=
| Attempted
| Slept (ms : Q).

Definition Probe := list ProbeEvent.

Definition attempts (p : Probe) : nat :=
  length (List.filter (λ e, match e with Attempted => true | Slept _ => false end) p).

(** An operation whose outcome is a function of how many times it has
    been invoked before. *)
Definition scripted {A} (script : nat → Result A) : Eff Probe A :=
  λ p, (Some (script (attempts p)), p ++ [Attempted]).

Definition probeSleep (ms : Q) : Eff Probe unit :=
  λ p, (Some (Ok tt), p ++ [Slept ms]).

(** [Math.random] answering [jitter k] when [k] attempts have been made. *)
Definition probeRandom (jitter : nat → Q) : Eff Probe Q :=
  λ p, (Some (Ok (jitter (attempts p))), p).

(** ** Data of the action *)

(** [type Credentials].  The declared type makes the two keys strings,
    but the values are read off untyped responses and may be absent. *)
Record Credentials := mkCredentials {
  accessKeyId : option jsstring;
  secretAccessKey : option jsstring;
  sessionToken : option jsstring;
}.

(** A role duration is the text of an input or the numeric default. *)
Inductive Duration :=
| DurationText (s : jsstring)
| DurationNumber (n : Z).

#[export] Instance truthy_duration : Truthy Duration :=
  λ d, match d with DurationText s => truthy s | DurationNumber n => truthy n end.

(** The [params] object of [assumeRole]; [None] is a property that is
    absent or [undefined]. *)
Record AssumeRoleParams := mkParams {
  sourceAccountId : option jsstring;
  roleToAssume : option jsstring;
  roleExternalId : option jsstring;
  roleDurationSeconds : option Duration;
  roleSessionName : option jsstring;
  region : option jsstring;
  webIdentityTokenFile : option jsstring;
  webIdentityToken : option jsstring;
}.

Record Tag := mkTag { Key : jsstring; Value : jsstring }.

(** [AssumeRoleCommandInput | AssumeRoleWithWebIdentityCommandInput], as
    the one object the source builds and then edits. *)
Record AssumeRoleRequest := mkRequest {
  RoleArn : jsstring;
  RoleSessionName : option jsstring;
  DurationSeconds : option Duration;
  Tags : option (list Tag);
  ExternalId : option jsstring;
  WebIdentityToken : option jsstring;
}.

(** [assumeRoleRequest.ExternalId = v]. *)
Definition setExternalId (r : AssumeRoleRequest) (v : option jsstring) : AssumeRoleRequest :=
  mkRequest (RoleArn r) (RoleSessionName r) (DurationSeconds r) (Tags r) v
            (WebIdentityToken r).

(** [delete assumeRoleRequest.Tags]. *)
Definition deleteTags (r : AssumeRoleRequest) : AssumeRoleRequest :=
  mkRequest (RoleArn r) (RoleSessionName r) (DurationSeconds r) None (ExternalId r)
            (WebIdentityToken r).

(** [Object.assign(assumeRoleRequest, { WebIdentityToken: v })]. *)
Definition assignWebIdentityToken (r : AssumeRoleRequest) (v : option jsstring)
    : AssumeRoleRequest :=
  mkRequest (RoleArn r) (RoleSessionName r) (DurationSeconds r) (Tags r) (ExternalId r) v.

Inductive StsCommand :=
| AssumeRoleCommand
| AssumeRoleWithWebIdentityCommand.

(** The name of the class, as the engine prints it. *)
Definition commandName (command : StsCommand) : jsstring :=
  match command with
  | AssumeRoleCommand => js "AssumeRoleCommand"
  | AssumeRoleWithWebIdentityCommand => js "AssumeRoleWithWebIdentityCommand"
  end.

(** The configuration [getStsClient] passes to [new STSClient]. *)
Record StsClient := mkStsClient {
  clientRegion : option jsstring;
  customUserAgent : jsstring;
  clientCredentials : option Credentials;
}.

(** The part of an STS response the source destructures. *)
Record StsCredentials := mkStsCredentials {
  AccessKeyId : option jsstring;
  SecretAccessKey : option jsstring;
  SessionToken : option jsstring;
}.
Record StsResponse := mkStsResponse { Credentials_ : option StsCredentials }.

(** An HTTP request of the SDK; [headers] and [query] are objects used as
    maps, and a header may be present with the value [undefined]. *)
Record HttpRequest := mkHttpRequest {
  method : jsstring;
  protocol : jsstring;
  hostname : jsstring;
  port : option Z;
  path : jsstring;
  headers : gmap jsstring (option jsstring);
  query : gmap jsstring jsstring;
  body : option jsstring;
}.

Record PresignOptions := mkPresignOptions {
  unsignableHeaders : gset jsstring;
  unhoistableHeaders : gset jsstring;
}.

(** The [data] of the broker's response: [None] when it is [null] or
    [undefined], else the three properties the source reads. *)
Record BrokerData := mkBrokerData {
  data_accessKeyId : option jsstring;
  data_secretAccessKey : option jsstring;
  data_sessionToken : option jsstring;
}.
Record BrokerResponse := mkBrokerResponse { data : option BrokerData }.

(** ** Effects *)

(** What the action does to the outside, in the order it does it. *)
Inductive Event :=
| CoreDebug (msg : jsstring)
| CoreSetSecret (secret : option jsstring)
| CoreExportVariable (name : jsstring) (val : option jsstring)
| CoreSetFailed (msg : jsstring)
| CoreGetIDToken (audience : jsstring)
| Sleep (ms : Q)
| StsSend (client : StsClient) (command : StsCommand) (input : AssumeRoleRequest)
| SignerPresign (client : StsClient) (request : HttpRequest) (options : PresignOptions)
| AxiosPost (endpoint url accountName : jsstring).

(** The state of a run: [process.env] and the effects so far. *)
Record World := mkWorld {
  env : gmap jsstring jsstring;
  trace : list Event;
}.

(** The collaborators outside the repository.  Those that talk to the
    outside answer as a function of everything that happened before the
    call, so that they may answer differently from one call to the next. *)
Record Host := mkHost {
  h_getInput : jsstring → bool → Result jsstring;
  h_getIDToken : list Event → jsstring → Result jsstring;
  h_random : list Event → Q;
  h_isAbsolute : jsstring → bool;
  h_join : jsstring → jsstring → jsstring;
  h_existsSync : list Event → jsstring → bool;
  h_readFile : list Event → jsstring → Result jsstring;
  h_send : list Event → StsClient → StsCommand → AssumeRoleRequest → Result StsResponse;
  h_createRequest : list Event → StsClient → Result HttpRequest;
  h_presign : list Event → StsClient → HttpRequest → PresignOptions → Result HttpRequest;
  h_formatUrl : HttpRequest → jsstring;
  h_post : list Event → jsstring → jsstring → jsstring → Result BrokerResponse;
}.

Definition M : Type → Type := Eff World.

(** Perform an effect. *)
Definition emit (e : Event) : M unit :=
  λ w, (Some (Ok tt), mkWorld (env w) (trace w ++ [e])).

(** Read from a collaborator, without effect. *)
Definition ask {A} (q : list Event → A) : M A :=
  λ w, (Some (Ok (q (trace w))), w).

(** Call out: the collaborator answers from the history before the call,
    and the call is recorded. *)
Definition call {A} (e : Event) (q : list Event → Result A) : M A :=
  λ w, (Some (q (trace w)), mkWorld (env w) (trace w ++ [e])).

(** Ask a collaborator that may throw, without other effect. *)
Definition attempt {A} (q : list Event → Result A) : M A :=
  λ w, (Some (q (trace w)), w).

(** [process.env.NAME]. *)
Definition getenv (name : jsstring) : M (option jsstring) :=
  λ w, (Some (Ok (env w !! name)), w).

(** The messages of the engine's [TypeError]s. *)
Definition quote : jsstring := [0x22].
Definition pathArgumentError : Error :=
  mkError (js "The " ++ quote ++ js "path" ++ quote
           ++ js " argument must be of type string. Received undefined").
Definition classConstructorError (command : StsCommand) : Error :=
  mkError (js "Class constructor " ++ commandName command
           ++ js " cannot be invoked without 'new'").
Definition destructureError : Error :=
  mkError (js "Cannot destructure property 'AccessKeyId' of 'object.Credentials' as it is undefined.").
Definition readPropertyError : Error :=
  mkError (js "Cannot read properties of undefined (reading 'accessKeyId')").

(** The two diagnostics of [assumeRole]. *)
Definition tagCountNotice (roleSessionTags : list Tag) : jsstring :=
  js (pretty (length roleSessionTags)) ++ js " role session tags are being used.".
Definition tokenFileNotice : jsstring :=
  js "webIdentityTokenFile provided. Will call sts:AssumeRoleWithWebIdentity and take session tags from token contents.".

Section Action.
Variable host : Host.

(** *** The [core] toolkit *)
Definition debug (msg : jsstring) : M unit := emit (CoreDebug msg).
Definition setSecret (secret : option jsstring) : M unit := emit (CoreSetSecret secret).
Definition setFailed (msg : jsstring) : M unit := emit (CoreSetFailed msg).
Definition exportVariable (name : jsstring) (val : option jsstring) : M unit :=
  λ w, (Some (Ok tt),
        mkWorld (<[name := default [] val]> (env w))
                (trace w ++ [CoreExportVariable name val])).
Definition getInput (name : jsstring) (required : bool) : M jsstring :=
  attempt (λ _, h_getInput host name required).
Definition getIDToken (audience : jsstring) : M jsstring :=
  call (CoreGetIDToken audience) (λ h, h_getIDToken host h audience).

(** The module-level [sleep], bound to [defaultSleep]. *)
Definition sleep (ms : Q) : M unit := emit (Sleep ms).
Definition random : M Q := ask (h_random host).

Definition getStsClient (region : option jsstring) (credentials : option Credentials)
    : StsClient :=
  mkStsClient region USER_AGENT credentials.

(** After the assertion the variable holds a string; [default] only
    unwraps it. *)
Definition getRoleToAssume : M jsstring :=
  let! GITHUB_REPOSITORY := getenv (js "GITHUB_REPOSITORY") in
  assert (isDefined GITHUB_REPOSITORY) (js "GITHUB_REPOSITORY must be defined.");;
  ret (js "arn:aws:iam::<SOME_ACCOUNT>:role/github-" ++ default [] GITHUB_REPOSITORY).

(** *** Role assumption *)

Definition roleSessionTags (GITHUB_REPOSITORY GITHUB_WORKFLOW GITHUB_ACTION
    GITHUB_ACTOR GITHUB_SHA : jsstring) (GITHUB_REF : option jsstring) : list Tag :=
  [ mkTag (js "GitHub") (js "Actions");
    mkTag (js "Repository") GITHUB_REPOSITORY;
    mkTag (js "Workflow") (sanitizeGithubWorkflowName GITHUB_WORKFLOW);
    mkTag (js "Action") GITHUB_ACTION;
    mkTag (js "Actor") (sanitizeGithubActor GITHUB_ACTOR);
    mkTag (js "Commit") GITHUB_SHA ]
  ++ (if isDefined GITHUB_REF then [mkTag (js "Branch") (default [] GITHUB_REF)] else []).

(** The session tags [assumeRole] builds from the environment. *)
Definition environmentTags (e : gmap jsstring jsstring) : list Tag :=
  roleSessionTags (default [] (e !! js "GITHUB_REPOSITORY"))
                  (default [] (e !! js "GITHUB_WORKFLOW"))
                  (default [] (e !! js "GITHUB_ACTION"))
                  (default [] (e !! js "GITHUB_ACTOR"))
                  (default [] (e !! js "GITHUB_SHA"))
                  (e !! js "GITHUB_REF").

(** [assumeFunction(assumeRoleRequest)].  [assumeFunction] holds one of
    the two command classes of the SDK, and the source calls it as a
    function, where [getStsClient] and [presignGetCallerIdentity] write
    [new].  The engine refuses to call a class constructor without
    [new]: it throws a [TypeError] before anything of the class runs. *)
Definition callClass (assumeFunction : StsCommand) (input : AssumeRoleRequest)
    : M (StsCommand * AssumeRoleRequest) :=
  throw (classConstructorError assumeFunction).

(** [sts.send(assumeFunction(assumeRoleRequest)).then(...)]: the
    argument is evaluated first. *)
Definition send (sts : StsClient) (assumeFunction : StsCommand)
    (assumeRoleRequest : AssumeRoleRequest) : M Credentials :=
  let! (command, input) := callClass assumeFunction assumeRoleRequest in
  let! response := call (StsSend sts command input)
                        (λ h, h_send host h sts command input) in
  match Credentials_ response with
  | Some c => ret (mkCredentials (AccessKeyId c) (SecretAccessKey c) (SessionToken c))
  | None => throw destructureError
  end.

(** [assumeRole] up to its [return]: the client, the command class and
    the request it has built when it gets there. *)
Definition assumeRoleCommand (params : AssumeRoleParams)
    : M (StsClient * StsCommand * AssumeRoleRequest) :=
  let sourceAccountId := sourceAccountId params in
  let roleToAssume := roleToAssume params in
  let roleExternalId := roleExternalId params in
  let roleDurationSeconds := roleDurationSeconds params in
  let roleSessionName := roleSessionName params in
  let region := region params in
  let webIdentityTokenFile := webIdentityTokenFile params in
  let webIdentityToken := webIdentityToken params in
  assert (isDefined roleToAssume && isDefined roleDurationSeconds
          && isDefined roleSessionName && isDefined region)
         (js "Missing required input when assuming a Role.");;
  let! GITHUB_REPOSITORY := getenv (js "GITHUB_REPOSITORY") in
  let! GITHUB_WORKFLOW := getenv (js "GITHUB_WORKFLOW") in
  let! GITHUB_ACTION := getenv (js "GITHUB_ACTION") in
  let! GITHUB_ACTOR := getenv (js "GITHUB_ACTOR") in
  let! GITHUB_SHA := getenv (js "GITHUB_SHA") in
  assert (isDefined GITHUB_REPOSITORY && isDefined GITHUB_WORKFLOW
          && isDefined GITHUB_ACTION && isDefined GITHUB_ACTOR && isDefined GITHUB_SHA)
         (js "Missing required environment value. Are you running in GitHub Actions?");;
  let sts := getStsClient region None in
  let roleArn := default [] roleToAssume in
  let! roleArn :=
    if negb (startsWith roleArn (js "arn:aws")) then
      assert (isDefined sourceAccountId)
             (js "Source Account ID is needed if the Role Name is provided and not the Role Arn.");;
      ret (js "arn:aws:iam::" ++ default [] sourceAccountId ++ js ":role/" ++ roleArn)
    else ret roleArn in
  let! GITHUB_REF := getenv (js "GITHUB_REF") in
  let roleSessionTags :=
    roleSessionTags (default [] GITHUB_REPOSITORY) (default [] GITHUB_WORKFLOW)
      (default [] GITHUB_ACTION) (default [] GITHUB_ACTOR) (default [] GITHUB_SHA)
      GITHUB_REF in
  debug (tagCountNotice roleSessionTags);;
  let assumeRoleRequest :=
    mkRequest roleArn roleSessionName roleDurationSeconds (Some roleSessionTags) None None in
  let assumeRoleRequest :=
    if truthy roleExternalId then setExternalId assumeRoleRequest roleExternalId
    else assumeRoleRequest in
  let assumeFunction := AssumeRoleCommand in
  let! (assumeFunction, assumeRoleRequest) :=
    if isDefined webIdentityToken then
      let assumeRoleRequest := deleteTags assumeRoleRequest in
      let assumeRoleRequest := assignWebIdentityToken assumeRoleRequest webIdentityToken in
      let assumeFunction := AssumeRoleWithWebIdentityCommand in
      ret (assumeFunction, assumeRoleRequest)
    else if isDefined webIdentityTokenFile then
      let webIdentityTokenFile := default [] webIdentityTokenFile in
      debug tokenFileNotice;;
      let assumeRoleRequest := deleteTags assumeRoleRequest in
      let! webIdentityTokenFilePath :=
        if h_isAbsolute host webIdentityTokenFile then ret webIdentityTokenFile
        else
          let! GITHUB_WORKSPACE := getenv (js "GITHUB_WORKSPACE") in
          match GITHUB_WORKSPACE with
          | Some workspace => ret (h_join host workspace webIdentityTokenFile)
          | None => throw pathArgumentError
          end in
      let! exists_ := ask (λ h, h_existsSync host h webIdentityTokenFilePath) in
      if negb exists_ then
        throw (mkError (js "Web identity token file does not exist: "
                        ++ webIdentityTokenFilePath))
      else
        let! token :=
          tryCatch (attempt (λ h, h_readFile host h webIdentityTokenFilePath))
                   (λ error, throw (mkError (js "Web identity token file could not be read: "
                                             ++ message error))) in
        ret (assumeFunction, assignWebIdentityToken assumeRoleRequest (Some token))
    else ret (assumeFunction, assumeRoleRequest) in
  ret (sts, assumeFunction, assumeRoleRequest).

Definition assumeRole (params : AssumeRoleParams) : M Credentials :=
  let! (sts, assumeFunction, assumeRoleRequest) := assumeRoleCommand params in
  send sts assumeFunction assumeRoleRequest.

(** *** Export *)

Definition exportCredentials (params : Credentials) : M unit :=
  let accessKeyId := accessKeyId params in
  let secretAccessKey := secretAccessKey params in
  let sessionToken := sessionToken params in
  setSecret accessKeyId;;
  exportVariable (js "AWS_ACCESS_KEY_ID") accessKeyId;;
  setSecret secretAccessKey;;
  exportVariable (js "AWS_SECRET_ACCESS_KEY") secretAccessKey;;
  if truthy sessionToken then
    setSecret sessionToken;;
    exportVariable (js "AWS_SESSION_TOKEN") sessionToken
  else
    let! previous := getenv (js "AWS_SESSION_TOKEN") in
    if truthy previous then exportVariable (js "AWS_SESSION_TOKEN") (Some (js ""))
    else ret tt.

Definition exportRegion (region : jsstring) : M unit :=
  exportVariable (js "AWS_DEFAULT_REGION") (Some region);;
  exportVariable (js "AWS_REGION") (Some region).

(** *** Presigning *)

Definition presignOptions : PresignOptions :=
  mkPresignOptions {[ js "content-type" ]} ∅.

Definition presignGetCallerIdentity (region : jsstring) (roleCredentials : Credentials)
    : M jsstring :=
  let sts := getStsClient (Some region) (Some roleCredentials) in
  let! request := attempt (λ h, h_createRequest host h sts) in
  let request :=
    mkHttpRequest (js "GET") (protocol request) (hostname request) (port request)
      (path request)
      {[ js "host" := mjoin (headers request !! js "host") ]}
      {[ js "Action" := js "GetCallerIdentity"; js "Version" := js "2011-06-15" ]}
      (Some (js "")) in
  let! presigned := call (SignerPresign sts request presignOptions)
                         (λ h, h_presign host h sts request presignOptions) in
  ret (h_formatUrl host presigned).

(** *** Broker exchange *)

Definition getCredentials (url accountName : jsstring) : M Credentials :=
  let! response := call (AxiosPost LAMBDA_URL url accountName)
                        (λ h, h_post host h LAMBDA_URL url accountName) in
  match data response with
  | Some data =>
      ret (mkCredentials (data_accessKeyId data) (data_secretAccessKey data)
                         (data_sessionToken data))
  | None => throw readPropertyError
  end.

(** *** The run *)

(** [REGION_REGEX = /^[a-z0-9-]+$/g]. *)
Definition regionChar (c : Z) : bool :=
  ((0x61 <=? c) && (c <=? 0x7A)) || ((0x30 <=? c) && (c <=? 0x39)) || (c =? 0x2D).
Definition matchesRegionRegex (region : jsstring) : bool :=
  truthy region && forallb regionChar region.

(** The body of the [try] block of [run]. *)
Definition runBody : M unit :=
  let! region := getInput (js "aws-region") true in
  let! audience := getInput (js "audience") false in
  let! accountName := getInput (js "account-name") true in
  let! roleDurationInput := getInput (js "role-duration-seconds") false in
  let roleDurationSeconds :=
    if truthy roleDurationInput then DurationText roleDurationInput
    else DurationNumber DEFAULT_ROLE_DURATION_FOR_OIDC_ROLES in
  let! roleSessionInput := getInput (js "role-session-name") false in
  let roleSessionName :=
    if truthy roleSessionInput then roleSessionInput else ROLE_SESSION_NAME in
  let! webIdentityTokenFile := getInput (js "web-identity-token-file") false in
  let! roleToAssume := getRoleToAssume in
  let! webIdentityToken := getIDToken audience in
  if negb (matchesRegionRegex region) then
    throw (mkError (js "Region is not valid: " ++ region))
  else
    exportRegion region;;
    if truthy roleToAssume then
      (* retries = 0, maxRetries = 12, base = 50; twelve attempts are all
         the executor can make with them *)
      let! initialCredentials :=
        retryAndBackoff sleep random 12
          (assumeRole (mkParams None (Some roleToAssume) None (Some roleDurationSeconds)
                                (Some roleSessionName) (Some region)
                                (Some webIdentityTokenFile) (Some webIdentityToken)))
          true 0 12 50 in
      let! url := presignGetCallerIdentity region initialCredentials in
      let! credentials := getCredentials url accountName in
      exportCredentials credentials
    else ret tt.

Definition run : M unit :=
  tryCatch runBody (λ error, setFailed (message error)).
End Action.

(** ** A concrete run, for evaluating the definitions *)

Module Scenario.

Definition inputs (region : jsstring) (name : jsstring) (required : bool) : Result jsstring :=
  if decide (name = js "aws-region") then Ok region
  else if decide (name = js "account-name") then Ok (js "prod")
  else Ok (js "").

Definition stsSends (h : list Event) : nat :=
  length (List.filter (λ e, match e with StsSend _ _ _ => true | _ => false end) h).

Definition temporary : StsResponse :=
  mkStsResponse (Some (mkStsCredentials (Some (js "ASIATEMP")) (Some (js "tempsecret"))
                                        (Some (js "temptoken")))).

Definition blankRequest : HttpRequest :=
  mkHttpRequest (js "POST") (js "https:") (js "sts.us-east-1.amazonaws.com") None (js "/")
    {[ js "host" := Some (js "sts.us-east-1.amazonaws.com");
       js "content-type" := Some (js "application/x-www-form-urlencoded") ]}
    ∅ (Some (js "Action=GetCallerIdentity&Version=2011-06-15")).

(** A host on which the first [failures] STS calls fail and the broker
    answers with [answer]. *)
Definition host (region : jsstring) (failures : nat) (answer : Result BrokerResponse) : Host :=
  {| h_getInput := inputs region;
     h_getIDToken := λ _ _, Ok (js "oidc-token");
     h_random := λ _, 1 # 2;
     h_isAbsolute := λ p, startsWith p (js "/");
     h_join := λ a b, a ++ js "/" ++ b;
     h_existsSync := λ _ _, false;
     h_readFile := λ _ _, Err (mkError (js "ENOENT"));
     h_send := λ h _ _ _,
       if (stsSends h <? failures)%nat then Err (mkError (js "Throttling")) else Ok temporary;
     h_createRequest := λ _ _, Ok blankRequest;
     h_presign := λ _ _ r _,
       Ok (mkHttpRequest (method r) (protocol r) (hostname r) (port r) (path r) (headers r)
             (<[ js "X-Amz-Signature" := js "5d672d79c15b13162d9279b0855cfba6" ]> (query r))
             (body r));
     h_formatUrl := λ r, protocol r ++ js "//" ++ hostname r ++ path r ++ js "?"
                          ++ concat ((λ kv, kv.1 ++ js "=" ++ kv.2 ++ js "&")
                                     <$> map_to_list (query r));
     h_post := λ _ _ _ _, answer |}.

Definition environment : gmap jsstring jsstring :=
  {[ js "GITHUB_REPOSITORY" := js "org/repo";
     js "GITHUB_WORKFLOW" := js "CI Build [main]";
     js "GITHUB_ACTION" := js "run1";
     js "GITHUB_ACTOR" := js "dependabot[bot]";
     js "GITHUB_SHA" := js "0123abcd";
     js "GITHUB_WORKSPACE" := js "/home/runner/work" ]}.

Definition start : World := mkWorld environment [].

Definition final : BrokerResponse :=
  mkBrokerResponse (Some (mkBrokerData (Some (js "AKIAFINAL")) (Some (js "finalsecret")) None)).

End Scenario.

(** The attempts and delays of [n] failed, retried rounds, when [made]
    attempts had been made before and the first round runs with
    [retries]. *)
Fixpoint failedRounds (jitter : nat → Q) (retries base : Z) (made n : nat) : Probe :=
  match n with
  | O => []
  | S n' =>
      Attempted
        :: Slept (Qmult (jitter (S made))
                        (Qmult (Qpower (inject_Z 2) retries) (inject_Z base)))
        :: failedRounds jitter (retries + 1) base (S made) n'
  end.

Definition sleeps (p : Probe) : nat :=
  length (List.filter (λ e, match e with Slept _ => true | Attempted => false end) p).

(** An operation that fails twice and then answers 7. *)
Definition failsTwice (k : nat) : Result Z :=
  if (k <? 2)%nat then Err (mkError (js "ThrottlingException")) else Ok 7.

Definition alwaysFails (k : nat) : Result Z := Err (mkError (js "AccessDenied")).

(** ** Specifications of computations *)

(** [R] relates the state before to the state after, whatever the
    outcome. *)
Definition holds {S A} (R : S → S → Prop) (c : Eff S A) : Prop :=
  ∀ s, R s (c s).2.

(** [R] relates the state before to the state after when [c] throws. *)
Definition holds_on_failure {S A} (R : S → S → Prop) (c : Eff S A) : Prop :=
  ∀ s e, (c s).1 = Some (Err e) → R s (c s).2.

(** [c] returns or throws. *)
Definition settles {S A} (c : Eff S A) : Prop := ∀ s, (c s).1 ≠ None.

(** [c] returns. *)
Definition returns {S A} (c : Eff S A) : Prop := ∀ s, ∃ a, (c s).1 = Some (Ok a).

(** The effects from [w] to [w'] all satisfy [P], and no variable whose
    export [P] forbids has changed in the environment. *)
Definition quiet (P : Event → bool) (w w' : World) : Prop :=
  (∃ evs, trace w' = trace w ++ evs ∧ Forall (λ e, P e = true) evs)
  ∧ ∀ name, (∀ val, P (CoreExportVariable name val) = false) →
            env w' !! name = env w !! name.

Definition credentialNames : list jsstring :=
  [js "AWS_ACCESS_KEY_ID"; js "AWS_SECRET_ACCESS_KEY"; js "AWS_SESSION_TOKEN"].

Definition notCredentialExport (e : Event) : bool :=
  match e with
  | CoreExportVariable name _ => negb (bool_decide (name ∈ credentialNames))
  | _ => true
  end.

Definition isAxiosPost (e : Event) : bool :=
  match e with AxiosPost _ _ _ => true | _ => false end.

Definition isStsSend (e : Event) : bool :=
  match e with StsSend _ _ _ => true | _ => false end.

(** At most [n] requests to the broker from [w] to [w']. *)
Definition postsAtMost (n : nat) (w w' : World) : Prop :=
  ∃ evs, trace w' = trace w ++ evs ∧ (length (List.filter isAxiosPost evs) ≤ n)%nat.

(** No request to the broker. *)
Definition noPost (e : Event) : bool := negb (isAxiosPost e).

(** No range of a table meets the interval from [lo] to [hi]. *)
Definition ranges_avoid (lo hi : Z) (rs : list (Z * Z)) : bool :=
  forallb (λ r, (snd r <? lo) || (hi <? fst r)) rs.

(** The request [assumeRole] builds before the token is attached. *)
Definition baseRequest (params : AssumeRoleParams) (e : gmap jsstring jsstring)
    (roleArn : jsstring) : AssumeRoleRequest :=
  let r := mkRequest roleArn (roleSessionName params) (roleDurationSeconds params)
                     (Some (environmentTags e)) None None in
  if truthy (roleExternalId params) then setExternalId r (roleExternalId params) else r.

(** The two assertions at the head of [assumeRole]. *)
Definition requiredInputs (params : AssumeRoleParams) : bool :=
  isDefined (roleToAssume params) && isDefined (roleDurationSeconds params)
  && isDefined (roleSessionName params) && isDefined (region params).

Definition requiredEnvironment (e : gmap jsstring jsstring) : bool :=
  isDefined (e !! js "GITHUB_REPOSITORY") && isDefined (e !! js "GITHUB_WORKFLOW")
  && isDefined (e !! js "GITHUB_ACTION") && isDefined (e !! js "GITHUB_ACTOR")
  && isDefined (e !! js "GITHUB_SHA").

(** Parameters for [assumeRole] in the concrete run. *)
Module Calls.

Definition withToken : AssumeRoleParams :=
  mkParams None (Some (js "arn:aws:iam::123456789012:role/deploy")) None
           (Some (DurationNumber 3600)) (Some ROLE_SESSION_NAME) (Some (js "us-east-1"))
           (Some (js "")) (Some (js "oidc-token")).

Definition withTokenFile : AssumeRoleParams :=
  mkParams None (Some (js "arn:aws:iam::123456789012:role/deploy")) None
           (Some (DurationNumber 3600)) (Some ROLE_SESSION_NAME) (Some (js "us-east-1"))
           (Some (js "token.jwt")) None.



Definition host : Host := Scenario.host (js "us-east-1") 0 (Ok Scenario.final).

(** The same host, with a token file that exists and cannot be read. *)
Definition unreadable : Host :=
  {| h_getInput := h_getInput host;
     h_getIDToken := h_getIDToken host;
     h_random := h_random host;
     h_isAbsolute := h_isAbsolute host;
     h_join := h_join host;
     h_existsSync := λ _ _, true;
     h_readFile := λ _ _, Err (mkError (js "EACCES: permission denied"));
     h_send := h_send host;
     h_createRequest := h_createRequest host;
     h_presign := h_presign host;
     h_formatUrl := h_formatUrl host;
     h_post := h_post host |}.

(** A host whose token endpoint refuses, asked for an invalid region. *)
Definition withoutIdToken : Host :=
  {| h_getInput := Scenario.inputs (js "US-EAST-1");
     h_getIDToken := λ _ _, Err (mkError (js "Unable to get ACTIONS_ID_TOKEN_REQUEST_URL env variable"));
     h_random := h_random host;
     h_isAbsolute := h_isAbsolute host;
     h_join := h_join host;
     h_existsSync := h_existsSync host;
     h_readFile := h_readFile host;
     h_send := h_send host;
     h_createRequest := h_createRequest host;
     h_presign := h_presign host;
     h_formatUrl := h_formatUrl host;
     h_post := h_post host |}.

End Calls.

(** ** What presigning takes from the SDK *)

(** [String.prototype.includes]. *)
Definition includes (s needle : jsstring) : Prop :=
  ∃ before after, s = before ++ needle ++ after.

Definition isHexDigit (c : Z) : bool :=
  ((0x30 <=? c) && (c <=? 0x39)) || ((0x61 <=? c) && (c <=? 0x66)).

(** The three functions of the SDK that [presignGetCallerIdentity] calls
    are not the action's code.  What the action relies on, of each:
    [createRequest] resolves the endpoint of the client, over [https];
    [presign] leaves protocol and host name alone and puts the signature,
    a hexadecimal string, into the query under [X-Amz-Signature];
    [formatUrl] renders protocol, [//] and host name first and, after
    them, the query with that entry. *)
Record SdkContract (host : Host) : Prop := {
  createRequest_endpoint h sts created :
    h_createRequest host h sts = Ok created →
    protocol created = js "https:" ∧ truthy (hostname created) = true;
  presign_signature h sts request options presigned :
    h_presign host h sts request options = Ok presigned →
    protocol presigned = protocol request
    ∧ hostname presigned = hostname request
    ∧ ∃ signature,
        query presigned !! js "X-Amz-Signature" = Some signature
        ∧ truthy signature = true
        ∧ forallb isHexDigit signature = true;
  formatUrl_text request signature :
    protocol request = js "https:" →
    query request !! js "X-Amz-Signature" = Some signature →
    forallb isHexDigit signature = true →
    ∃ rest,
      h_formatUrl host request = js "https://" ++ hostname request ++ rest
      ∧ includes rest (js "X-Amz-Signature=" ++ signature);
}.

(** ** Further notions for the properties *)

(** Strings the workflow-name pattern leaves alone: a sequence of code
    units of the class and of surrogate pairs whose code point is of the
    class. *)
Inductive Conforming : jsstring → Prop :=
| conforming_nil : Conforming []
| conforming_unit c s :
    workflowNameClass c = true → Conforming s → Conforming (c :: s)
| conforming_pair hi lo s :
    isHighSurrogate hi && isLowSurrogate lo = true →
    workflowNameClass (surrogatePair hi lo) = true →
    Conforming s → Conforming (hi :: lo :: s).

(** The time slept in a probe's log, in milliseconds. *)
Fixpoint totalDelay (p : Probe) : Q :=
  match p with
  | [] => 0%Q
  | Attempted :: p' => totalDelay p'
  | Slept ms :: p' => Qplus ms (totalDelay p')
  end.

(** The delays the run sleeps in [n] failed rounds that start after the
    history [h] with [retries]: each one is what [Math.random] answers at
    that moment, times the window of the round. *)
Fixpoint backoffDelays (host : Host) (retries base : Z) (h : list Event) (n : nat) : list Q :=
  match n with
  | O => []
  | S n' =>
      let ms := Qmult (h_random host h)
                      (Qmult (Qpower (inject_Z 2) retries) (inject_Z base)) in
      ms :: backoffDelays host (retries + 1) base (h ++ [Sleep ms]) n'
  end.

Definition regionNames : list jsstring := [js "AWS_DEFAULT_REGION"; js "AWS_REGION"].

(** An effect that is not the export of a region variable. *)
Definition notRegionExport (e : Event) : bool :=
  match e with
  | CoreExportVariable name _ => negb (bool_decide (name ∈ regionNames))
  | _ => true
  end.

(** An export of a region variable carries the [aws-region] input, and
    that input matches the region pattern. *)
Definition regionGuard (host : Host) (e : Event) : bool :=
  match e with
  | CoreExportVariable name val =>
      if bool_decide (name ∈ regionNames) then
        match h_getInput host (js "aws-region") true, val with
        | Ok region, Some exported =>
            bool_decide (exported = region) && matchesRegionRegex region
        | _, _ => false
        end
      else true
  | _ => true
  end.

Definition isSleep (e : Event) : bool :=
  match e with Sleep _ => true | _ => false end.

(** At most [n] effects of the kind [p] from [w] to [w']. *)
Definition atMost (p : Event → bool) (n : nat) (w w' : World) : Prop :=
  ∃ evs, trace w' = trace w ++ evs ∧ (length (List.filter p evs) ≤ n)%nat.

Definition isSetFailed (e : Event) : bool :=
  match e with CoreSetFailed _ => true | _ => false end.

(** The effects of the retried stage: the requests to STS and the
    sleeps between them. *)
Definition isRetried (e : Event) : bool := isStsSend e || isSleep e.

(** What one attempt of the run logs before it fails, and the sleep that
    follows it, for [n] attempts that start after the history [h] with
    [retries]. *)
Fixpoint failedAttempts (host : Host) (logged : list Event) (retries base : Z)
    (h : list Event) (n : nat) : list Event :=
  match n with
  | O => []
  | S n' =>
      let ms := Qmult (h_random host (h ++ logged))
                      (Qmult (Qpower (inject_Z 2) retries) (inject_Z base)) in
      logged ++ Sleep ms
        :: failedAttempts host logged (retries + 1) base (h ++ logged ++ [Sleep ms]) n'
  end.

(** The effects of a run that come before the broker and the export of
    credentials: the request for the ID token, the export of a region
    variable, a diagnostic, a sleep. *)
Definition beforeAssuming (e : Event) : bool :=
  match e with
  | CoreGetIDToken _ | CoreDebug _ | Sleep _ => true
  | CoreExportVariable name _ => bool_decide (name ∈ regionNames)
  | _ => false
  end.

(** Whatever [c] returns satisfies [Φ]. *)
Definition yields {S A} (Φ : A → Prop) (c : Eff S A) : Prop :=
  ∀ s a s', c s = (Some (Ok a), s') → Φ a.

(** Further concrete runs. *)
Module Runs.

(** A start outside GitHub Actions: only the repository is known. *)
Definition outsideActions : World :=
  mkWorld {[ js "GITHUB_REPOSITORY" := js "org/repo" ]} [].

(** The host of the concrete run, with a broker that refuses. *)
Definition brokerDown : Host :=
  Scenario.host (js "us-east-1") 0 (Err (mkError (js "Request failed with status code 403"))).

(** The host of the concrete run, with a token file that can be read. *)
Definition readable : Host :=
  {| h_getInput := h_getInput Calls.host;
     h_getIDToken := h_getIDToken Calls.host;
     h_random := h_random Calls.host;
     h_isAbsolute := h_isAbsolute Calls.host;
     h_join := h_join Calls.host;
     h_existsSync := λ _ _, true;
     h_readFile := λ _ _, Ok (js "token-of-the-file");
     h_send := h_send Calls.host;
     h_createRequest := h_createRequest Calls.host;
     h_presign := h_presign Calls.host;
     h_formatUrl := h_formatUrl Calls.host;
     h_post := h_post Calls.host |}.

End Runs.

(** * Properties *)

(** ** The retry executor on scripted operations *)

Lemma attempts_app (p q : Probe) : attempts (p ++ q) = (attempts p + attempts q)%nat.
Proof. unfold attempts. by rewrite List.filter_app, length_app. Qed.

Lemma attempts_failedRounds jitter retries base made n :
  attempts (failedRounds jitter retries base made n) = n.
Proof.
  revert retries made. induction n as [|n IH]; intros retries made; [done|].
  specialize (IH (retries + 1) (S made)). unfold attempts in *. cbn. by rewrite IH.
Qed.

Section RetryFacts.
Context {A : Type} (script : nat → Result A) (jitter : nat → Q).

Abbreviation exec := (retryAndBackoff probeSleep (probeRandom jitter)).

Lemma retry_returns fuel isRetryable retries maxRetries base (p : Probe) v :
  script (attempts p) = Ok v →
  exec (S fuel) (scripted script) isRetryable retries maxRetries base p
  = (Some (Ok v), p ++ [Attempted]).
Proof. intros Hv. cbn. unfold tryCatch, scripted. by rewrite Hv. Qed.

Lemma retry_not_retryable fuel retries maxRetries base (p : Probe) e :
  script (attempts p) = Err e →
  exec (S fuel) (scripted script) false retries maxRetries base p
  = (Some (Err e), p ++ [Attempted]).
Proof. intros He. cbn. unfold tryCatch, scripted. by rewrite He. Qed.

Lemma retry_round fuel retries maxRetries base (p : Probe) e :
  script (attempts p) = Err e →
  exec (S fuel) (scripted script) true retries maxRetries base p
  = let p' := p ++ failedRounds jitter retries base (attempts p) 1 in
    if retries + 1 =? maxRetries then (Some (Err e), p')
    else exec fuel (scripted script) true (retries + 1) maxRetries base p'.
Proof.
  intros He. cbn [retryAndBackoff]. unfold tryCatch at 1. unfold scripted at 1.
  rewrite He. cbn [negb]. unfold bind, probeRandom, probeSleep. cbn [failedRounds].
  rewrite attempts_app. change (attempts [Attempted]) with 1%nat.
  rewrite Nat.add_1_r, <- app_assoc. cbn [app].
  by destruct (retries + 1 =? maxRetries).
Qed.

(** [n] failures in a row, none of which exhausts the retries. *)
Lemma retry_rounds n : ∀ fuel retries maxRetries base (p : Probe),
  (∀ k, (k < n)%nat → ∃ e, script (attempts p + k)%nat = Err e) →
  (∀ k, (k < n)%nat → retries + Z.of_nat k + 1 ≠ maxRetries) →
  exec (n + fuel) (scripted script) true retries maxRetries base p
  = exec fuel (scripted script) true (retries + Z.of_nat n) maxRetries base
      (p ++ failedRounds jitter retries base (attempts p) n).
Proof.
  induction n as [|n IH]; intros fuel retries maxRetries base p Hfail Hne.
  - cbn. by rewrite Z.add_0_r, app_nil_r.
  - destruct (Hfail 0%nat ltac:(lia)) as [e He]. rewrite Nat.add_0_r in He.
    change (S n + fuel)%nat with (S (n + fuel)).
    rewrite (retry_round _ _ _ _ _ e He). cbv zeta.
    specialize (Hne 0%nat ltac:(lia)) as Hne0. rewrite Z.add_0_r in Hne0.
    apply Z.eqb_neq in Hne0. rewrite Hne0.
    rewrite IH.
    + cbn [failedRounds]. rewrite attempts_app.
      change (attempts [Attempted; Slept _]) with 1%nat.
      rewrite <- app_assoc. cbn [app]. rewrite Nat.add_1_r.
      f_equal. lia.
    + intros k Hk. rewrite attempts_app.
      change (attempts (failedRounds jitter retries base (attempts p) 1)) with 1%nat.
      destruct (Hfail (S k) ltac:(lia)) as [e' He']. exists e'. rewrite <- He'. f_equal. lia.
    + intros k Hk. specialize (Hne (S k) ltac:(lia)). lia.
Qed.

(** Failures all the way to the last permitted retry. *)
Lemma retry_exhausts n : ∀ fuel retries base (p : Probe),
  (∀ k, ∃ e, script k = Err e) →
  exec (S n + fuel) (scripted script) true retries (retries + Z.of_nat (S n)) base p
  = (Some (script (attempts p + n)%nat),
     p ++ failedRounds jitter retries base (attempts p) (S n)).
Proof.
  induction n as [|n IH]; intros fuel retries base p Hfail;
    destruct (Hfail (attempts p)) as [e He];
    change (S ?k + fuel)%nat with (S (k + fuel));
    rewrite (retry_round _ _ _ _ _ e He); cbv zeta.
  - change (Z.of_nat 1) with 1. rewrite Z.eqb_refl, Nat.add_0_r. by rewrite He.
  - destruct (Z.eqb_spec (retries + 1) (retries + Z.of_nat (S (S n)))) as [Heq|_]; [lia|].
    replace (retries + Z.of_nat (S (S n))) with (retries + 1 + Z.of_nat (S n)) by lia.
    change (S n + fuel)%nat with (S (n + fuel)).
    specialize (IH fuel (retries + 1) base
                   (p ++ failedRounds jitter retries base (attempts p) 1) Hfail).
    change (S (n + fuel)) with (S n + fuel)%nat. rewrite IH.
    rewrite attempts_app. change (attempts (failedRounds _ _ _ _ 1)) with 1%nat.
    rewrite <- app_assoc, Nat.add_1_r. cbn [failedRounds app].
    f_equal. do 2 f_equal. lia.
Qed.

(** With [maxRetries ≤ retries] the exhaustion test never fires. *)
Lemma retry_never_exhausts fuel retries maxRetries base (p : Probe) :
  (∀ k, ∃ e, script k = Err e) →
  maxRetries ≤ retries →
  exec fuel (scripted script) true retries maxRetries base p
  = (None, p ++ failedRounds jitter retries base (attempts p) fuel).
Proof.
  intros Hfail Hle. rewrite <- (Nat.add_0_r fuel) at 1.
  rewrite retry_rounds; [done | by intros; apply Hfail | intros; lia].
Qed.
End RetryFacts.

(** Without retries the executor is the operation itself, whatever the
    state, the operation and the sleep are. *)
Lemma retry_not_retryable_is_fn {S A} (sleep : Q → Eff S unit) (random : Eff S Q)
    fuel (fn : Eff S A) retries maxRetries base s :
  retryAndBackoff sleep random (Datatypes.S fuel) fn false retries maxRetries base s = fn s.
Proof. cbn. unfold tryCatch. by destruct (fn s) as [[[?|?]|] ?]. Qed.

Lemma sleeps_failedRounds jitter retries base made n :
  sleeps (failedRounds jitter retries base made n) = n.
Proof.
  revert retries made. induction n as [|n IH]; intros retries made; [done|].
  specialize (IH (retries + 1) (S made)). unfold sleeps in *. cbn. by rewrite IH.
Qed.

(** C2. An operation that fails on its first [N] invocations and succeeds
    on the next one: with retries allowed and [maxRetries > N] the
    executor, started with [retries = 0], returns the operation's value,
    after [N] failed attempts each followed by a sleep, and one more
    attempt.  With [isRetryable = false] the first error of any operation
    is thrown after that one attempt, and nothing is slept. *)
Theorem retry_succeeds_after_failures {A} (script : nat → Result A) (jitter : nat → Q)
    (N : nat) (v : A) (maxRetries base : Z) (fuel : nat) :
  (∀ k, (k < N)%nat → ∃ e, script k = Err e) →
  script N = Ok v →
  Z.of_nat N < maxRetries →
  (N < fuel)%nat →
  retryAndBackoff probeSleep (probeRandom jitter) fuel (scripted script) true
                  0 maxRetries base []
    = (Some (Ok v), failedRounds jitter 0 base 0 N ++ [Attempted])
  ∧ ∀ (script' : nat → Result A) e fuel' retries maxRetries' base',
      script' O = Err e →
      retryAndBackoff probeSleep (probeRandom jitter) (S fuel') (scripted script') false
                      retries maxRetries' base' []
      = (Some (Err e), [Attempted]).
Proof.
  intros Hfail Hok Hmax Hfuel. split.
  - replace fuel with (N + S (fuel - S N))%nat by lia.
    rewrite retry_rounds; [|done|intros; lia].
    apply retry_returns. cbn [app]. by rewrite attempts_failedRounds.
  - intros script' e fuel' retries maxRetries' base' He.
    by apply (retry_not_retryable script' jitter fuel' retries maxRetries' base' []).
Qed.

Lemma retry_succeeds_after_failures_witness :
  retryAndBackoff probeSleep (probeRandom (λ _, 1 # 2)) 12 (scripted failsTwice) true 0 12 50 []
    = (Some (Ok 7), [Attempted; Slept (Qmult (1 # 2) (Qmult (Qpower (inject_Z 2) 0) (inject_Z 50)));
                     Attempted; Slept (Qmult (1 # 2) (Qmult (Qpower (inject_Z 2) (0 + 1)) (inject_Z 50)));
                     Attempted])
  ∧ retryAndBackoff probeSleep (probeRandom (λ _, 1 # 2)) 12 (scripted failsTwice) false 0 12 50 []
    = (Some (Err (mkError (js "ThrottlingException"))), [Attempted]).
Proof.
  destruct (retry_succeeds_after_failures failsTwice (λ _, 1 # 2) 2 7 12 50 12) as [H1 H2].
  - intros k Hk. exists (mkError (js "ThrottlingException")).
    unfold failsTwice. by destruct (Nat.ltb_spec k 2); [|lia].
  - reflexivity.
  - lia.
  - lia.
  - split; [exact H1 | by apply H2].
Defined.

(** C10. An operation that always fails, retried.  With the defaults
    ([retries = 0], [maxRetries = 12]) it is attempted exactly 12 times,
    each failure, the last one too, is followed by a sleep, and the error
    of the twelfth attempt is thrown.  Started with [maxRetries ≤ retries]
    the executor never settles: however many attempts are followed, it
    has made that many and is still retrying.  So it settles only if
    [retries < maxRetries]. *)
Theorem retry_terminates_only_below_max {A} (script : nat → Result A) (jitter : nat → Q)
    (base : Z) :
  (∀ k, ∃ e, script k = Err e) →
  (∀ fuel, (12 ≤ fuel)%nat →
     ∃ final,
       retryAndBackoff probeSleep (probeRandom jitter) fuel (scripted script) true 0 12 base []
       = (Some (script 11%nat), final)
       ∧ final = failedRounds jitter 0 base 0 12
       ∧ attempts final = 12%nat ∧ sleeps final = 12%nat
       ∧ ∃ ms, last final = Some (Slept ms))
  ∧ (∀ retries maxRetries fuel, maxRetries ≤ retries →
     ∃ final,
       retryAndBackoff probeSleep (probeRandom jitter) fuel (scripted script) true
                       retries maxRetries base []
       = (None, final)
       ∧ attempts final = fuel)
  ∧ (∀ retries maxRetries fuel outcome final,
       retryAndBackoff probeSleep (probeRandom jitter) fuel (scripted script) true
                       retries maxRetries base []
       = (Some outcome, final) →
       retries < maxRetries).
Proof.
  intros Hfail. split; [|split].
  - intros fuel Hfuel. eexists. split; [|split; [reflexivity|]].
    + replace fuel with (12 + (fuel - 12))%nat by lia.
      apply (retry_exhausts script jitter 11 (fuel - 12) 0 base [] Hfail).
    + split; [apply attempts_failedRounds|]. split; [apply sleeps_failedRounds|].
      cbn. eauto.
  - intros retries maxRetries fuel Hle. eexists. split.
    + by apply retry_never_exhausts.
    + cbn [app]. apply attempts_failedRounds.
  - intros retries maxRetries fuel outcome final Hrun.
    destruct (Z.lt_ge_cases retries maxRetries) as [|Hle]; [done|].
    rewrite retry_never_exhausts in Hrun by done. discriminate.
Qed.

Lemma retry_terminates_only_below_max_witness :
  (retryAndBackoff probeSleep (probeRandom (λ _, 1 # 2)) 12 (scripted alwaysFails) true 0 12 50 []).1
    = Some (Err (mkError (js "AccessDenied")))
  ∧ (retryAndBackoff probeSleep (probeRandom (λ _, 1 # 2)) 40 (scripted alwaysFails) true 0 0 50 []).1
    = None.
Proof.
  destruct (retry_terminates_only_below_max alwaysFails (λ _, 1 # 2) 50) as (H1 & H2 & _).
  - intros k. by eexists.
  - destruct (H1 12%nat ltac:(lia)) as (f1 & E1 & _).
    destruct (H2 0 0 40%nat ltac:(lia)) as (f2 & E2 & _).
    rewrite E1, E2. split; reflexivity.
Defined.

(** ** Rules for computations *)

Section Rules.
Context {S : Type} (R : S → S → Prop).
Hypothesis R_refl : ∀ s, R s s.
Hypothesis R_trans : ∀ s1 s2 s3, R s1 s2 → R s2 s3 → R s1 s3.

Lemma holds_ret {A} (a : A) : holds R (ret a).
Proof. intros s. apply R_refl. Qed.

Lemma holds_throw {A} e : holds R (@throw S A e).
Proof. intros s. apply R_refl. Qed.

Lemma holds_pending {A} : holds R (@pending S A).
Proof. intros s. apply R_refl. Qed.

Lemma holds_assert cond msg : holds R (@assert S cond msg).
Proof. destruct cond; [apply holds_ret | apply holds_throw]. Qed.

Lemma holds_bind {A B} (c : Eff S A) (k : A → Eff S B) :
  holds R c → (∀ a, holds R (k a)) → holds R (bind c k).
Proof.
  intros Hc Hk s. unfold bind. specialize (Hc s).
  destruct (c s) as [[[a|e]|] s']; cbn in *; [|done..].
  eapply R_trans; [exact Hc | apply Hk].
Qed.

Lemma holds_tryCatch {A} (c : Eff S A) handler :
  holds R c → (∀ e, holds R (handler e)) → holds R (tryCatch c handler).
Proof.
  intros Hc Hh s. unfold tryCatch. specialize (Hc s).
  destruct (c s) as [[[a|e]|] s']; cbn in *; [done| |done].
  eapply R_trans; [exact Hc | apply Hh].
Qed.

Lemma holds_retryAndBackoff {A} sleep random fuel (fn : Eff S A) isRetryable
    retries maxRetries base :
  (∀ ms, holds R (sleep ms)) → holds R random → holds R fn →
  holds R (retryAndBackoff sleep random fuel fn isRetryable retries maxRetries base).
Proof.
  intros Hsleep Hrandom Hfn. revert retries.
  induction fuel as [|fuel IH]; intros retries; cbn [retryAndBackoff].
  - apply holds_pending.
  - apply holds_tryCatch; [done|]. intros err.
    destruct isRetryable; cbn [negb]; [|apply holds_throw].
    apply holds_bind; [done|]. intros r. apply holds_bind; [done|]. intros _.
    destruct (retries + 1 =? maxRetries); [apply holds_throw | apply IH].
Qed.

Lemma holds_fails {A} (c : Eff S A) : holds R c → holds_on_failure R c.
Proof. intros Hc s e _. apply Hc. Qed.

Lemma returns_fails {A} (c : Eff S A) : returns c → holds_on_failure R c.
Proof. intros Hc s e He. destruct (Hc s) as [a Ha]. congruence. Qed.

Lemma fails_bind {A B} (c : Eff S A) (k : A → Eff S B) :
  holds R c → (∀ a, holds_on_failure R (k a)) → holds_on_failure R (bind c k).
Proof.
  intros Hc Hk s e. unfold bind. specialize (Hc s).
  destruct (c s) as [[[a|e']|] s'] eqn:Hcs; cbn in *; [|done..].
  intros He. eapply R_trans; [exact Hc | by eapply Hk].
Qed.
End Rules.

(** Composition of two relations into a third, for counting. *)
Lemma holds_bind_compose {S A B} (R1 R2 R3 : S → S → Prop) (c : Eff S A) (k : A → Eff S B) :
  (∀ s1 s2, R1 s1 s2 → R3 s1 s2) →
  (∀ s1 s2 s3, R1 s1 s2 → R2 s2 s3 → R3 s1 s3) →
  holds R1 c → (∀ a, holds R2 (k a)) → holds R3 (bind c k).
Proof.
  intros Hsub Hcomp Hc Hk s. unfold bind. specialize (Hc s).
  destruct (c s) as [[[a|e]|] s']; cbn in *; [|by apply Hsub..].
  eapply Hcomp; [exact Hc | apply Hk].
Qed.

Section Settling.
Context {S : Type}.

Lemma settles_ret {A} (a : A) : settles (@ret S A a).
Proof. by intros s. Qed.

Lemma settles_throw {A} e : settles (@throw S A e).
Proof. by intros s. Qed.

Lemma settles_assert cond msg : settles (@assert S cond msg).
Proof. by destruct cond. Qed.

Lemma settles_bind {A B} (c : Eff S A) (k : A → Eff S B) :
  settles c → (∀ a, settles (k a)) → settles (bind c k).
Proof.
  intros Hc Hk s. unfold bind. specialize (Hc s).
  destruct (c s) as [[[a|e]|] s']; cbn in *; [apply Hk|done..].
Qed.

Lemma settles_tryCatch {A} (c : Eff S A) handler :
  settles c → (∀ e, settles (handler e)) → settles (tryCatch c handler).
Proof.
  intros Hc Hh s. unfold tryCatch. specialize (Hc s).
  destruct (c s) as [[[a|e]|] s']; cbn in *; [done|apply Hh|done].
Qed.

(** With [retries < maxRetries] the executor settles within
    [maxRetries - retries] attempts. *)
Lemma settles_retryAndBackoff {A} sleep random fuel (fn : Eff S A) isRetryable
    retries maxRetries base :
  (∀ ms, settles (sleep ms)) → settles random → settles fn →
  retries < maxRetries → maxRetries - retries ≤ Z.of_nat fuel →
  settles (retryAndBackoff sleep random fuel fn isRetryable retries maxRetries base).
Proof.
  intros Hsleep Hrandom Hfn. revert retries.
  induction fuel as [|fuel IH]; intros retries Hlt Hfuel; [lia|].
  cbn [retryAndBackoff]. apply settles_tryCatch; [done|]. intros err.
  destruct isRetryable; cbn [negb]; [|apply settles_throw].
  apply settles_bind; [done|]. intros r. apply settles_bind; [done|]. intros _.
  destruct (Z.eqb_spec (retries + 1) maxRetries); [apply settles_throw|].
  apply IH; lia.
Qed.
End Settling.

(** ** The effects of the action's primitives *)

Lemma quiet_refl P w : quiet P w w.
Proof. split; [|done]. exists []. by rewrite app_nil_r. Qed.

Lemma quiet_trans P w1 w2 w3 : quiet P w1 w2 → quiet P w2 w3 → quiet P w1 w3.
Proof.
  intros [(evs1 & E1 & F1) H1] [(evs2 & E2 & F2) H2]. split.
  - exists (evs1 ++ evs2). rewrite E2, E1, app_assoc. split; [done|].
    by apply Forall_app.
  - intros name Hname. rewrite H2, H1; done.
Qed.

Lemma quiet_event P w e : P e = true → quiet P w (mkWorld (env w) (trace w ++ [e])).
Proof. intros He. split; [|done]. exists [e]. split; [done|]. by constructor. Qed.

Section Primitives.
Variable host : Host.
Variable P : Event → bool.

Lemma quiet_emit e : P e = true → holds (quiet P) (emit e).
Proof. intros He w. by apply quiet_event. Qed.

Lemma quiet_call {A} e (q : list Event → Result A) : P e = true → holds (quiet P) (call e q).
Proof. intros He w. by apply quiet_event. Qed.

Lemma quiet_ask {A} (q : list Event → A) : holds (quiet P) (ask q).
Proof. intros w. apply quiet_refl. Qed.

Lemma quiet_attempt {A} (q : list Event → Result A) : holds (quiet P) (attempt q).
Proof. intros w. apply quiet_refl. Qed.

Lemma quiet_getenv name : holds (quiet P) (getenv name).
Proof. intros w. apply quiet_refl. Qed.

Lemma quiet_exportVariable name val :
  P (CoreExportVariable name val) = true → holds (quiet P) (exportVariable name val).
Proof.
  intros He w. split.
  - exists [CoreExportVariable name val]. split; [done|]. by constructor.
  - intros name' Hname'. cbn. apply lookup_insert_ne. intros ->.
    specialize (Hname' val). congruence.
Qed.
End Primitives.

(** ** The effects of the action's functions *)

Ltac quiet_step :=
  first
    [ progress cbv zeta
    | apply (holds_bind _ (quiet_trans _)); [| intros ?]
    | apply (holds_tryCatch _ (quiet_trans _)); [| intros ?]
    | apply (holds_ret _ (quiet_refl _))
    | apply (holds_throw _ (quiet_refl _))
    | apply (holds_assert _ (quiet_refl _))
    | apply quiet_getenv
    | apply quiet_ask
    | apply quiet_attempt
    | apply quiet_emit; solve [auto | vm_compute; reflexivity]
    | apply quiet_call; solve [auto | vm_compute; reflexivity]
    | apply quiet_exportVariable; solve [auto | vm_compute; reflexivity]
    | lazymatch goal with
      | |- holds _ (if ?b then _ else _) => destruct b
      | |- holds _ (match ?x with _ => _ end) => destruct x
      end ].

Section Effects.
Variable host : Host.
Variable P : Event → bool.

Lemma quiet_getInput name required : holds (quiet P) (getInput host name required).
Proof. apply quiet_attempt. Qed.

Lemma quiet_getRoleToAssume : holds (quiet P) getRoleToAssume.
Proof. unfold getRoleToAssume. repeat quiet_step. Qed.

(** The command class is called without [new]: nothing is sent. *)
Lemma quiet_send sts f request : holds (quiet P) (send host sts f request).
Proof. intros w. apply quiet_refl. Qed.

Lemma quiet_assumeRoleCommand params :
  (∀ msg, P (CoreDebug msg) = true) →
  holds (quiet P) (assumeRoleCommand host params).
Proof. intros Hdebug. unfold assumeRoleCommand, debug. repeat quiet_step. Qed.

Lemma quiet_assumeRole params :
  (∀ msg, P (CoreDebug msg) = true) →
  holds (quiet P) (assumeRole host params).
Proof.
  intros Hdebug. unfold assumeRole.
  apply (holds_bind _ (quiet_trans _)); [by apply quiet_assumeRoleCommand|].
  intros [[sts f] request]. apply quiet_send.
Qed.

Lemma quiet_presignGetCallerIdentity region credentials :
  (∀ sts request options, P (SignerPresign sts request options) = true) →
  holds (quiet P) (presignGetCallerIdentity host region credentials).
Proof. intros Hsign. unfold presignGetCallerIdentity. repeat quiet_step. Qed.

Lemma quiet_getCredentials url accountName :
  (∀ a b c, P (AxiosPost a b c) = true) →
  holds (quiet P) (getCredentials host url accountName).
Proof. intros Hpost. unfold getCredentials. repeat quiet_step. Qed.

Lemma quiet_exportRegion region :
  (∀ val, P (CoreExportVariable (js "AWS_DEFAULT_REGION") val) = true) →
  (∀ val, P (CoreExportVariable (js "AWS_REGION") val) = true) →
  holds (quiet P) (exportRegion region).
Proof. intros H1 H2. unfold exportRegion. repeat quiet_step. Qed.

Lemma quiet_exportCredentials credentials :
  (∀ val, P (CoreSetSecret val) = true) →
  (∀ name val, P (CoreExportVariable name val) = true) →
  holds (quiet P) (exportCredentials credentials).
Proof.
  intros H1 H2. unfold exportCredentials, setSecret. repeat quiet_step.
Qed.
End Effects.

Lemma returns_exportCredentials credentials : returns (exportCredentials credentials).
Proof.
  intros w. unfold exportCredentials, setSecret, exportVariable, emit, getenv, bind, ret.
  cbn. destruct (truthy (sessionToken credentials)); cbn; [by eexists|].
  match goal with |- context [truthy ?x] => destruct (truthy x) end; cbn; by eexists.
Qed.

(** ** Every stage settles *)

Lemma settles_emit e : settles (emit e).
Proof. by intros w. Qed.

Lemma settles_call {A} e (q : list Event → Result A) : settles (call e q).
Proof. by intros w. Qed.

Lemma settles_ask {A} (q : list Event → A) : settles (ask q).
Proof. by intros w. Qed.

Lemma settles_attempt {A} (q : list Event → Result A) : settles (attempt q).
Proof. by intros w. Qed.

Lemma settles_getenv name : settles (getenv name).
Proof. by intros w. Qed.

Lemma settles_exportVariable name val : settles (exportVariable name val).
Proof. by intros w. Qed.

Ltac settles_step :=
  first
    [ progress cbv zeta
    | apply settles_bind; [| intros ?]
    | apply settles_tryCatch; [| intros ?]
    | apply settles_ret
    | apply settles_throw
    | apply settles_assert
    | apply settles_getenv
    | apply settles_ask
    | apply settles_attempt
    | apply settles_emit
    | apply settles_call
    | apply settles_exportVariable
    | lazymatch goal with
      | |- settles (if ?b then _ else _) => destruct b
      | |- settles (match ?x with _ => _ end) => destruct x
      end ].

Section Settles.
Variable host : Host.

Lemma settles_assumeRole params : settles (assumeRole host params).
Proof. unfold assumeRole, assumeRoleCommand, send, callClass, debug. repeat settles_step. Qed.

Lemma settles_presignGetCallerIdentity region credentials :
  settles (presignGetCallerIdentity host region credentials).
Proof. unfold presignGetCallerIdentity. repeat settles_step. Qed.

Lemma settles_getCredentials url accountName :
  settles (getCredentials host url accountName).
Proof. unfold getCredentials. repeat settles_step. Qed.

Lemma settles_exportCredentials credentials : settles (exportCredentials credentials).
Proof.
  intros w. destruct (returns_exportCredentials credentials w) as [a Ha]. by rewrite Ha.
Qed.

Lemma settles_runBody : settles (runBody host).
Proof.
  unfold runBody, getInput, getRoleToAssume, getIDToken, exportRegion.
  repeat first
    [ apply settles_retryAndBackoff;
        [intros; apply settles_emit | apply settles_ask | apply settles_assumeRole
        | lia | lia]
    | apply settles_presignGetCallerIdentity
    | apply settles_getCredentials
    | apply settles_exportCredentials
    | settles_step ].
Qed.

(** The run always completes, and completes normally: whatever was
    thrown has been handed to [core.setFailed]. *)
Lemma run_returns w : (run host w).1 = Some (Ok tt).
Proof.
  unfold run, tryCatch. pose proof (settles_runBody w) as Hs.
  destruct (runBody host w) as [[[[]|e]|] w']; cbn in *; done.
Qed.
End Settles.

(** ** Failure and export *)

Lemma fails_runBody host : holds_on_failure (quiet notCredentialExport) (runBody host).
Proof.
  unfold runBody.
  repeat first
    [ progress cbv zeta
    | apply (fails_bind _ (quiet_trans _));
        [ first [ apply quiet_getInput | apply quiet_getRoleToAssume
                | apply quiet_call; reflexivity
                | apply quiet_exportRegion; intros; vm_compute; reflexivity
                | apply (holds_retryAndBackoff _ (quiet_refl _) (quiet_trans _));
                    [ intros; apply quiet_emit; reflexivity | apply quiet_ask
                    | apply quiet_assumeRole; reflexivity ]
                | apply quiet_presignGetCallerIdentity; reflexivity
                | apply quiet_getCredentials; reflexivity ]
        | intros ? ]
    | apply returns_fails, returns_exportCredentials
    | apply holds_fails, (holds_throw _ (quiet_refl _))
    | apply holds_fails, (holds_ret _ (quiet_refl _))
    | lazymatch goal with
      | |- holds_on_failure _ (if ?b then _ else _) => destruct b
      end ].
Qed.

(** C4. When the body of [run] throws, at whatever stage, the run has
    exported none of [AWS_ACCESS_KEY_ID], [AWS_SECRET_ACCESS_KEY] and
    [AWS_SESSION_TOKEN], their entries in the environment are what they
    were, and the last thing the run does is to report the error's
    message with [core.setFailed]. *)
Theorem failed_run_exports_no_credentials host w e w' :
  runBody host w = (Some (Err e), w') →
  ∃ evs,
    run host w = (Some (Ok tt), mkWorld (env w') (trace w ++ evs ++ [CoreSetFailed (message e)]))
    ∧ trace w' = trace w ++ evs
    ∧ (∀ name val, CoreExportVariable name val ∈ evs → name ∉ credentialNames)
    ∧ (∀ name, name ∈ credentialNames → env w' !! name = env w !! name).
Proof.
  intros Hbody. pose proof (fails_runBody host w e) as Hq. rewrite Hbody in Hq.
  destruct (Hq eq_refl) as [(evs & Htrace & Hevs) Henv]. cbn in Htrace, Henv.
  exists evs. split; [|split; [done|split]].
  - unfold run, tryCatch, setFailed, emit. rewrite Hbody. cbn. by rewrite Htrace, app_assoc.
  - intros name val Hin. rewrite Forall_forall in Hevs. specialize (Hevs _ Hin).
    cbn in Hevs. apply negb_true_iff, bool_decide_eq_false in Hevs. done.
  - intros name Hname. apply Henv. intros val. cbn.
    apply negb_false_iff, bool_decide_eq_true. done.
Qed.

Lemma failed_run_exports_no_credentials_witness :
  let host := Scenario.host (js "us-east-1") 12 (Ok Scenario.final) in
  let w' := (runBody host Scenario.start).2 in
  runBody host Scenario.start
  = (Some (Err (classConstructorError AssumeRoleWithWebIdentityCommand)), w')
  ∧ ∃ evs,
      run host Scenario.start
      = (Some (Ok tt),
         mkWorld (env w')
           (trace Scenario.start ++ evs
            ++ [CoreSetFailed
                  (message (classConstructorError AssumeRoleWithWebIdentityCommand))]))
      ∧ trace w' = trace Scenario.start ++ evs
      ∧ (∀ name val, CoreExportVariable name val ∈ evs → name ∉ credentialNames)
      ∧ (∀ name, name ∈ credentialNames → env w' !! name = env Scenario.start !! name).
Proof.
  intros host w'.
  assert (runBody host Scenario.start
          = (Some (Err (classConstructorError AssumeRoleWithWebIdentityCommand)), w'))
    as Hbody by (vm_compute; reflexivity).
  split; [exact Hbody|].
  exact (failed_run_exports_no_credentials host Scenario.start
           (classConstructorError AssumeRoleWithWebIdentityCommand) w' Hbody).
Defined.

(** ** Running a computation step by step *)

Section Steps.
Context {S A B : Type}.
Implicit Types (k : A → Eff S B) (s : S).

Lemma bind_ret a k s : bind (ret a) k s = k a s.
Proof. reflexivity. Qed.

Lemma bind_throw e k s : bind (throw e) k s = (Some (Err e), s).
Proof. reflexivity. Qed.

Lemma bind_if (b : bool) (c1 c2 : Eff S A) k s :
  bind (if b then c1 else c2) k s = if b then bind c1 k s else bind c2 k s.
Proof. by destruct b. Qed.

Lemma bind_assoc {C} (c : Eff S C) (f : C → Eff S A) k s :
  bind (bind c f) k s = bind c (λ x, bind (f x) k) s.
Proof. unfold bind. by destruct (c s) as [[[?|?]|] ?]. Qed.
End Steps.

Lemma bind_assert {S B} cond msg (k : unit → Eff S B) s :
  bind (assert cond msg) k s = if cond then k tt s else (Some (Err (mkError msg)), s).
Proof. by destruct cond. Qed.

Section WorldSteps.
Context {A B : Type}.
Implicit Types (w : World).

Lemma bind_getenv name (k : option jsstring → M B) w :
  bind (getenv name) k w = k (env w !! name) w.
Proof. reflexivity. Qed.

Lemma bind_ask (q : list Event → A) (k : A → M B) w :
  bind (ask q) k w = k (q (trace w)) w.
Proof. reflexivity. Qed.

Lemma bind_attempt (q : list Event → Result A) (k : A → M B) w :
  bind (attempt q) k w
  = match q (trace w) with Ok a => k a w | Err e => (Some (Err e), w) end.
Proof. unfold bind, attempt. by destruct (q (trace w)). Qed.

Lemma bind_emit e (k : unit → M B) w :
  bind (emit e) k w = k tt (mkWorld (env w) (trace w ++ [e])).
Proof. reflexivity. Qed.

Lemma bind_call e (q : list Event → Result A) (k : A → M B) w :
  bind (call e q) k w
  = match q (trace w) with
    | Ok a => k a (mkWorld (env w) (trace w ++ [e]))
    | Err e' => (Some (Err e'), mkWorld (env w) (trace w ++ [e]))
    end.
Proof. unfold bind, call. by destruct (q (trace w)). Qed.

Lemma bind_tryCatch_attempt (q : list Event → Result A) (h : Error → M A) (k : A → M B) w :
  bind (tryCatch (attempt q) h) k w
  = match q (trace w) with Ok a => k a w | Err e => bind (h e) k w end.
Proof. unfold bind, tryCatch, attempt. by destruct (q (trace w)). Qed.

Lemma bind_exportVariable name val (k : unit → M B) w :
  bind (exportVariable name val) k w
  = k tt (mkWorld (<[name := default [] val]> (env w))
                  (trace w ++ [CoreExportVariable name val])).
Proof. reflexivity. Qed.
End WorldSteps.

Ltac exec_step :=
  first
    [ rewrite bind_assoc
    | rewrite bind_ret
    | rewrite bind_throw
    | rewrite bind_getenv
    | rewrite bind_ask
    | rewrite bind_emit
    | rewrite bind_exportVariable
    | rewrite bind_tryCatch_attempt
    | rewrite bind_if ];
  cbv beta; cbn [env trace].

Ltac exec := repeat exec_step.

Ltac failed_before_send :=
  intros ->; left; eexists;
  first [ exists []; split; [by rewrite app_nil_r | constructor]
        | eexists; split; [by rewrite <- ?app_assoc | by repeat constructor] ].

Ltac split_if :=
  lazymatch goal with
  | |- _ = (if ?c then _ else _) → _ => destruct c eqn:?
  | |- _ = match ?c with _ => _ end → _ => destruct c eqn:?
  | |- _ = bind (match ?c with _ => _ end) _ _ → _ => destruct c eqn:?
  end.

(** The call of the command class throws; [sts.send] is not reached. *)
Lemma send_throws host sts f request w :
  send host sts f request w = (Some (Err (classConstructorError f)), w).
Proof. reflexivity. Qed.

Lemma assumeRole_run host params w :
  assumeRole host params w
  = match assumeRoleCommand host params w with
    | (Some (Ok (_, f, _)), w') => (Some (Err (classConstructorError f)), w')
    | (Some (Err e), w') => (Some (Err e), w')
    | (None, w') => (None, w')
    end.
Proof.
  unfold assumeRole, bind.
  by destruct (assumeRoleCommand host params w) as [[[[[sts f] request]|e]|] w'].
Qed.

Lemma assumeRoleCommand_cases host params w :
  (∃ e evs, assumeRoleCommand host params w
            = (Some (Err e), mkWorld (env w) (trace w ++ evs))
            ∧ Forall (λ ev, isStsSend ev = false) evs)
  ∨ (∃ evs roleArn f request,
       assumeRoleCommand host params w
       = (Some (Ok (getStsClient (region params) None, f, request)),
          mkWorld (env w) (trace w ++ evs))
       ∧ Forall (λ ev, isStsSend ev = false) evs
       ∧ ((startsWith (default [] (roleToAssume params)) (js "arn:aws") = true
           ∧ roleArn = default [] (roleToAssume params))
          ∨ (startsWith (default [] (roleToAssume params)) (js "arn:aws") = false
             ∧ isDefined (sourceAccountId params) = true
             ∧ roleArn = js "arn:aws:iam::" ++ default [] (sourceAccountId params)
                         ++ js ":role/" ++ default [] (roleToAssume params)))
       ∧ ((isDefined (webIdentityToken params) = true
           ∧ f = AssumeRoleWithWebIdentityCommand
           ∧ request = assignWebIdentityToken (deleteTags (baseRequest params (env w) roleArn))
                                              (webIdentityToken params))
          ∨ (isDefined (webIdentityToken params) = false
             ∧ isDefined (webIdentityTokenFile params) = true
             ∧ f = AssumeRoleCommand
             ∧ ∃ h path token, h_readFile host h path = Ok token
                 ∧ request = assignWebIdentityToken
                               (deleteTags (baseRequest params (env w) roleArn)) (Some token))
          ∨ (isDefined (webIdentityToken params) = false
             ∧ isDefined (webIdentityTokenFile params) = false
             ∧ f = AssumeRoleCommand
             ∧ request = baseRequest params (env w) roleArn))).
Proof.
  remember (assumeRoleCommand host params w) as out eqn:Hout. revert Hout.
  unfold assumeRoleCommand, debug. cbv zeta.
  destruct w as [e t]. cbn [env trace].
  repeat first [exec_step | rewrite bind_assert | split_if].
  all: try by failed_before_send.
  all: intros ->; right; eexists _, _, _, _.
  all: (split; [unfold ret; rewrite <- ?app_assoc; reflexivity|]).
  all: (split; [by repeat constructor|]).
  all: split;
    [ first [ left; split; [by apply negb_false_iff | reflexivity]
            | right; split; [by apply negb_true_iff | by split] ]
    | first [ left; by repeat split
            | right; left; repeat split; try done; by eexists _, _, _
            | right; right; by repeat split ] ].
Qed.

(** ** Role assumption *)

(** What [assumeRole] has built when it reaches its [return]. *)
Lemma assumeRoleCommand_built host params w sts command request w' :
  assumeRoleCommand host params w = (Some (Ok (sts, command, request)), w') →
  sts = getStsClient (region params) None
  ∧ ∃ roleArn,
    ((startsWith (default [] (roleToAssume params)) (js "arn:aws") = true
      ∧ roleArn = default [] (roleToAssume params))
     ∨ (startsWith (default [] (roleToAssume params)) (js "arn:aws") = false
        ∧ isDefined (sourceAccountId params) = true
        ∧ roleArn = js "arn:aws:iam::" ++ default [] (sourceAccountId params)
                    ++ js ":role/" ++ default [] (roleToAssume params)))
    ∧ ((isDefined (webIdentityToken params) = true
        ∧ command = AssumeRoleWithWebIdentityCommand
        ∧ request = assignWebIdentityToken (deleteTags (baseRequest params (env w) roleArn))
                                           (webIdentityToken params))
       ∨ (isDefined (webIdentityToken params) = false
          ∧ isDefined (webIdentityTokenFile params) = true
          ∧ command = AssumeRoleCommand
          ∧ ∃ h path token, h_readFile host h path = Ok token
              ∧ request = assignWebIdentityToken
                            (deleteTags (baseRequest params (env w) roleArn)) (Some token))
       ∨ (isDefined (webIdentityToken params) = false
          ∧ isDefined (webIdentityTokenFile params) = false
          ∧ command = AssumeRoleCommand
          ∧ request = baseRequest params (env w) roleArn)).
Proof.
  intros Hbuilt.
  destruct (assumeRoleCommand_cases host params w)
    as [(e & evs' & Hrun & _) | (evs' & roleArn & f & req & Hrun & _ & Harn & Htok)];
    rewrite Hrun in Hbuilt; [done|].
  injection Hbuilt as <- <- <- _. split; [done|]. by exists roleArn.
Qed.

(** Nothing [assumeRole] does is a request to STS, and it never returns. *)
Lemma assumeRole_never_sends host params w :
  (∃ e, (assumeRole host params w).1 = Some (Err e))
  ∧ ∃ evs, trace (assumeRole host params w).2 = trace w ++ evs
           ∧ Forall (λ ev, isStsSend ev = false) evs.
Proof.
  rewrite assumeRole_run.
  destruct (assumeRoleCommand_cases host params w)
    as [(e & evs & -> & Hno) | (evs & roleArn & f & req & -> & Hno & _)];
    (split; [by eexists | by exists evs]).
Qed.

Lemma baseRequest_Tags params e roleArn :
  Tags (baseRequest params e roleArn) = Some (environmentTags e).
Proof. unfold baseRequest. by destruct (truthy (roleExternalId params)). Qed.

Lemma baseRequest_WebIdentityToken params e roleArn :
  WebIdentityToken (baseRequest params e roleArn) = None.
Proof. unfold baseRequest. by destruct (truthy (roleExternalId params)). Qed.


(** C1 (defect).  [assumeRole] builds the request the claim describes:
    with an inline token it has no [Tags] and carries that token; without
    one but with a token file, it has no [Tags] and carries the text read
    from the file; with neither, it carries the session tags built from
    the environment and no token; it has [Tags] or a token, never both
    and never neither.  But the request never leaves: [assumeRole] calls
    the command class without [new], which throws a [TypeError] that
    names the class.  So no call of [assumeRole] returns credentials and
    none sends anything to STS. *)
Theorem request_is_built_but_never_sent host params w :
  (∀ sts command request w',
     assumeRoleCommand host params w = (Some (Ok (sts, command, request)), w') →
     (if isDefined (webIdentityToken params)
      then Tags request = None ∧ WebIdentityToken request = webIdentityToken params
      else if isDefined (webIdentityTokenFile params)
      then Tags request = None
           ∧ ∃ token, WebIdentityToken request = Some token
                      ∧ ∃ h path, h_readFile host h path = Ok token
      else Tags request = Some (environmentTags (env w)) ∧ WebIdentityToken request = None)
     ∧ (Tags request = None ↔ is_Some (WebIdentityToken request))
     ∧ assumeRole host params w = (Some (Err (classConstructorError command)), w'))
  ∧ (∃ e, (assumeRole host params w).1 = Some (Err e))
  ∧ ∃ evs, trace (assumeRole host params w).2 = trace w ++ evs
           ∧ Forall (λ ev, isStsSend ev = false) evs.
Proof.
  split; [|apply assumeRole_never_sends].
  intros sts command request w' Hbuilt.
  assert (assumeRole host params w = (Some (Err (classConstructorError command)), w'))
    as Hthrows by (by rewrite assumeRole_run, Hbuilt).
  destruct (assumeRoleCommand_built _ _ _ _ _ _ _ Hbuilt) as (_ & roleArn & _ & Htok).
  destruct Htok as [(Ht & _ & ->) | [(Ht & Hf & _ & h & path & token & Hread & ->)
                                    | (Ht & Hf & _ & ->)]];
    rewrite Ht, ?Hf.
  - split; [done|]. split; [|done].
    cbn [assignWebIdentityToken deleteTags Tags WebIdentityToken].
    destruct (webIdentityToken params); [|discriminate Ht].
    split; [by eexists | done].
  - split; [|split; [split; [by eexists | done] | done]].
    split; [done|]. exists token. split; [done|]. by exists h, path.
  - rewrite baseRequest_Tags, baseRequest_WebIdentityToken. split; [done|].
    split; [|done]. split; [done | by intros []].
Qed.


Lemma request_is_built_but_never_sent_witness :
  let request :=
    mkRequest (js "arn:aws:iam::123456789012:role/deploy") (Some ROLE_SESSION_NAME)
              (Some (DurationNumber 3600)) None None (Some (js "oidc-token")) in
  let logged :=
    mkWorld Scenario.environment
            [CoreDebug (tagCountNotice (environmentTags Scenario.environment))] in
  assumeRoleCommand Calls.host Calls.withToken Scenario.start
  = (Some (Ok (getStsClient (Some (js "us-east-1")) None,
               AssumeRoleWithWebIdentityCommand, request)), logged)
  ∧ Tags request = None
  ∧ WebIdentityToken request = Some (js "oidc-token")
  ∧ assumeRole Calls.host Calls.withToken Scenario.start
    = (Some (Err (mkError (js "Class constructor AssumeRoleWithWebIdentityCommand cannot be invoked without 'new'"))),
       logged).
Proof.
  intros request logged.
  assert (assumeRoleCommand Calls.host Calls.withToken Scenario.start
          = (Some (Ok (getStsClient (Some (js "us-east-1")) None,
                       AssumeRoleWithWebIdentityCommand, request)), logged)) as Hbuilt
    by (vm_compute; reflexivity).
  split; [exact Hbuilt|].
  destruct (proj1 (request_is_built_but_never_sent Calls.host Calls.withToken Scenario.start)
              _ _ _ _ Hbuilt) as ([Htags Htoken] & _ & Hthrows).
  split; [exact Htags|]. split; [exact Htoken|]. exact Hthrows.
Defined.


(** ** The token file *)

(** C9. [assumeRole] with a token file and no inline token, once its
    assertions have passed: a path that is not absolute is joined to
    [GITHUB_WORKSPACE]; if nothing exists at the resolved path the call
    throws an error that names that path; if the file exists and reading
    it fails, the call throws a read error with the cause's message.
    Either way the call has only written its two diagnostics: no request
    has gone to STS. *)
Theorem token_file_missing_or_unreadable host params w file path :
  requiredInputs params = true →
  requiredEnvironment (env w) = true →
  startsWith (default [] (roleToAssume params)) (js "arn:aws")
    || isDefined (sourceAccountId params) = true →
  isDefined (webIdentityToken params) = false →
  webIdentityTokenFile params = Some file →
  truthy file = true →
  (if h_isAbsolute host file then path = file
   else ∃ workspace, env w !! js "GITHUB_WORKSPACE" = Some workspace
                     ∧ path = h_join host workspace file) →
  let before :=
    trace w ++ [CoreDebug (tagCountNotice (environmentTags (env w)));
                CoreDebug tokenFileNotice] in
  (h_existsSync host before path = false →
   assumeRole host params w
   = (Some (Err (mkError (js "Web identity token file does not exist: " ++ path))),
      mkWorld (env w) before))
  ∧ (∀ cause, h_existsSync host before path = true →
              h_readFile host before path = Err cause →
     assumeRole host params w
     = (Some (Err (mkError (js "Web identity token file could not be read: "
                            ++ message cause))),
        mkWorld (env w) before))
  ∧ Forall (λ ev, isStsSend ev = false)
           [CoreDebug (tagCountNotice (environmentTags (env w))); CoreDebug tokenFileNotice].
Proof.
  intros Hinputs Henv Hrole Htoken Hfile Htruthy Hpath before.
  assert (isDefined (webIdentityTokenFile params) = true) as Hdef by (by rewrite Hfile).
  rewrite assumeRole_run. unfold assumeRoleCommand, debug. cbv zeta.
  fold (requiredInputs params). rewrite bind_assert, Hinputs. exec.
  fold (requiredEnvironment (env w)). rewrite bind_assert, Henv.
  rewrite bind_if.
  destruct (startsWith (default [] (roleToAssume params)) (js "arn:aws")) eqn:Hstart;
    cbn [negb orb] in *.
  all: try (rewrite bind_assoc, bind_assert, Hrole).
  all: exec; rewrite Htoken, Hdef, Hfile; change (default [] (Some file)) with file.
  all: destruct (h_isAbsolute host file);
    [subst path | destruct Hpath as (workspace & Hws & ->); rewrite Hws]; exec.
  all: rewrite <- !app_assoc; cbn [app].
  all: repeat match goal with
         | |- context [h_existsSync _ ?h _] => progress change h with before
         | |- context [h_readFile _ ?h _] => progress change h with before
         | |- context [mkWorld _ ?h] => progress change h with before
         end.
  all: split; [|split; [|by repeat constructor]].
  all: try (intros Hmissing; rewrite Hmissing; cbn [negb]; reflexivity).
  all: intros cause Hexists Hread; rewrite Hexists, Hread; cbn [negb]; by exec.
Qed.

Lemma token_file_missing_or_unreadable_witness :
  assumeRole Calls.host Calls.withTokenFile Scenario.start
  = (Some (Err (mkError (js "Web identity token file does not exist: /home/runner/work/token.jwt"))),
     mkWorld Scenario.environment
             [CoreDebug (tagCountNotice (environmentTags Scenario.environment));
              CoreDebug tokenFileNotice])
  ∧ assumeRole Calls.unreadable Calls.withTokenFile Scenario.start
    = (Some (Err (mkError (js "Web identity token file could not be read: EACCES: permission denied"))),
       mkWorld Scenario.environment
               [CoreDebug (tagCountNotice (environmentTags Scenario.environment));
                CoreDebug tokenFileNotice]).
Proof.
  split.
  - apply (token_file_missing_or_unreadable Calls.host Calls.withTokenFile Scenario.start
             (js "token.jwt") (js "/home/runner/work/token.jwt")); try reflexivity.
    exists (js "/home/runner/work"). split; reflexivity.
  - apply (token_file_missing_or_unreadable Calls.unreadable Calls.withTokenFile Scenario.start
             (js "token.jwt") (js "/home/runner/work/token.jwt"))
      with (cause := mkError (js "EACCES: permission denied")); try reflexivity.
    exists (js "/home/runner/work"). split; reflexivity.
Defined.

(** ** Region validation *)

(** C6 (amended).  The region is checked after the inputs have
    been read, [GITHUB_REPOSITORY] asserted and the identity token
    requested.  When all of that succeeded and the region does not match
    [^[a-z0-9-]+$], the run reports [Region is not valid: <region>] and
    stops: the token request is the only call it has made; nothing went to
    STS or the broker and nothing was exported. *)
Theorem invalid_region_is_reported host w region audience accountName duration session
    file token :
  h_getInput host (js "aws-region") true = Ok region →
  h_getInput host (js "audience") false = Ok audience →
  h_getInput host (js "account-name") true = Ok accountName →
  h_getInput host (js "role-duration-seconds") false = Ok duration →
  h_getInput host (js "role-session-name") false = Ok session →
  h_getInput host (js "web-identity-token-file") false = Ok file →
  isDefined (env w !! js "GITHUB_REPOSITORY") = true →
  h_getIDToken host (trace w) audience = Ok token →
  matchesRegionRegex region = false →
  run host w
  = (Some (Ok tt),
     mkWorld (env w)
             (trace w ++ [CoreGetIDToken audience;
                          CoreSetFailed (js "Region is not valid: " ++ region)])).
Proof.
  intros Hregion Haudience Haccount Hduration Hsession Hfile Hrepo Htoken Hmatch.
  unfold run, tryCatch, runBody, getInput, getRoleToAssume, getIDToken.
  rewrite bind_attempt, Hregion, bind_attempt, Haudience, bind_attempt, Haccount,
    bind_attempt, Hduration. cbv zeta.
  rewrite bind_attempt, Hsession. cbv zeta.
  rewrite bind_attempt, Hfile.
  rewrite !bind_assoc, bind_getenv, bind_assoc, bind_assert, Hrepo, bind_ret.
  rewrite bind_call, Htoken, Hmatch. cbn [negb throw].
  unfold setFailed, emit. cbn [env trace message]. by rewrite <- app_assoc.
Qed.

Lemma invalid_region_is_reported_witness :
  run (Scenario.host (js "US-EAST-1") 0 (Ok Scenario.final)) Scenario.start
  = (Some (Ok tt),
     mkWorld Scenario.environment
             [CoreGetIDToken (js ""); CoreSetFailed (js "Region is not valid: US-EAST-1")]).
Proof.
  apply (invalid_region_is_reported (Scenario.host (js "US-EAST-1") 0 (Ok Scenario.final))
           Scenario.start (js "US-EAST-1") (js "") (js "prod") (js "") (js "") (js "")
           (js "oidc-token")); reflexivity.
Defined.

(** C6 (counterexample).  An invalid region does not always end up
    named in the message, and the token endpoint is called before the
    region is looked at.  Here the region is [US-EAST-1]; in the first
    run the token request is refused, in the second [GITHUB_REPOSITORY] is
    not set. *)
Lemma invalid_region_not_always_named :
  h_getInput Calls.withoutIdToken (js "aws-region") true = Ok (js "US-EAST-1")
  ∧ matchesRegionRegex (js "US-EAST-1") = false
  ∧ trace (run Calls.withoutIdToken Scenario.start).2
    = [CoreGetIDToken (js "");
       CoreSetFailed (js "Unable to get ACTIONS_ID_TOKEN_REQUEST_URL env variable")]
  ∧ trace (run (Scenario.host (js "US-EAST-1") 0 (Ok Scenario.final)) (mkWorld ∅ [])).2
    = [CoreSetFailed (js "GITHUB_REPOSITORY must be defined.")].
Proof. repeat split; vm_compute; reflexivity. Qed.

(** ** The broker exchange *)

Lemma quiet_postsAtMost n w w' : quiet noPost w w' → postsAtMost n w w'.
Proof.
  intros [(evs & Htrace & Hevs) _]. exists evs. split; [done|].
  assert (List.filter isAxiosPost evs = []) as ->; [|cbn; lia].
  clear Htrace. induction Hevs as [|ev evs Hev _ IH]; [done|].
  cbn [List.filter]. unfold noPost in Hev. apply negb_true_iff in Hev. by rewrite Hev.
Qed.

Lemma postsAtMost_compose a b w1 w2 w3 :
  postsAtMost a w1 w2 → postsAtMost b w2 w3 → postsAtMost (a + b) w1 w3.
Proof.
  intros (evs1 & E1 & L1) (evs2 & E2 & L2). exists (evs1 ++ evs2).
  rewrite E2, E1, app_assoc. split; [done|].
  rewrite List.filter_app, length_app. lia.
Qed.

Lemma holds_weaken {S A} (R R' : S → S → Prop) (c : Eff S A) :
  (∀ s s', R s s' → R' s s') → holds R c → holds R' c.
Proof. intros Hsub Hc s. apply Hsub, Hc. Qed.

Lemma getCredentials_run host url accountName w :
  getCredentials host url accountName w
  = (Some match h_post host (trace w) LAMBDA_URL url accountName with
          | Err e => Err e
          | Ok response =>
              match data response with
              | Some d => Ok (mkCredentials (data_accessKeyId d) (data_secretAccessKey d)
                                            (data_sessionToken d))
              | None => Err readPropertyError
              end
          end,
     mkWorld (env w) (trace w ++ [AxiosPost LAMBDA_URL url accountName])).
Proof.
  unfold getCredentials. rewrite bind_call.
  destruct (h_post _ _ _ _ _) as [[[d|]]|e]; reflexivity.
Qed.

Lemma posts_getCredentials host url accountName :
  holds (postsAtMost 1) (getCredentials host url accountName).
Proof.
  intros w. rewrite getCredentials_run. cbn [snd].
  exists [AxiosPost LAMBDA_URL url accountName]. split; [done|]. cbn. lia.
Qed.

(** Before the exchange: no request to the broker. *)
Ltac no_post :=
  apply (holds_weaken (quiet noPost)); [apply quiet_postsAtMost|].

Lemma posts_runBody host : holds (postsAtMost 1) (runBody host).
Proof.
  unfold runBody.
  repeat first
    [ progress cbv zeta
    | apply (holds_bind_compose (postsAtMost 0) (postsAtMost 1) (postsAtMost 1));
        [ intros ?? (evs & ? & ?); exists evs; split; [done | lia]
        | intros ???; apply (postsAtMost_compose 0 1)
        | no_post;
          first [ apply quiet_getInput | apply quiet_getRoleToAssume
                | apply quiet_call; reflexivity
                | apply quiet_exportRegion; intros; reflexivity
                | apply (holds_retryAndBackoff _ (quiet_refl _) (quiet_trans _));
                    [ intros; apply quiet_emit; reflexivity | apply quiet_ask
                    | apply quiet_assumeRole; reflexivity ]
                | apply quiet_presignGetCallerIdentity; reflexivity ]
        | intros ? ]
    | apply (holds_bind_compose (postsAtMost 1) (postsAtMost 0) (postsAtMost 1));
        [ done
        | intros ???; apply (postsAtMost_compose 1 0)
        | apply posts_getCredentials
        | intros ?; no_post; apply quiet_exportCredentials; intros; reflexivity ]
    | no_post; apply (holds_throw _ (quiet_refl _))
    | no_post; apply (holds_ret _ (quiet_refl _))
    | lazymatch goal with
      | |- holds _ (if ?b then _ else _) => destruct b
      end ].
Qed.

Lemma posts_run host : holds (postsAtMost 1) (run host).
Proof.
  intros w. unfold run, tryCatch. pose proof (posts_runBody host w) as Hbody.
  destruct (runBody host w) as [[[[]|e]|] w']; cbn [snd] in *; [done| |done].
  replace 1%nat with (1 + 0)%nat by done.
  eapply postsAtMost_compose; [exact Hbody|].
  exists [CoreSetFailed (message e)]. split; [done | cbn; lia].
Qed.

(** C3 (amended).  [getCredentials] posts to the broker once.
    If the post fails, it throws the post's error.  If the post answers,
    it does not look at what the answer holds: the three fields go into
    the result as they came, present or absent (only an answer without
    any data makes the property access throw).  A run makes at most one
    such post. *)
Theorem broker_answer_is_not_checked host url accountName w :
  getCredentials host url accountName w
  = (Some match h_post host (trace w) LAMBDA_URL url accountName with
          | Err e => Err e
          | Ok response =>
              match data response with
              | Some d => Ok (mkCredentials (data_accessKeyId d) (data_secretAccessKey d)
                                            (data_sessionToken d))
              | None => Err readPropertyError
              end
          end,
     mkWorld (env w) (trace w ++ [AxiosPost LAMBDA_URL url accountName]))
  ∧ ∃ evs, trace (run host w).2 = trace w ++ evs
           ∧ (length (List.filter isAxiosPost evs) ≤ 1)%nat.
Proof. split; [apply getCredentials_run | apply posts_run]. Qed.

(** C3 (counterexample).  The broker answers with an object that has
    none of the three fields, and [getCredentials] returns credentials
    without an access key id and without a secret key. *)
Lemma incomplete_credentials_are_returned :
  let answer := Ok (mkBrokerResponse (Some (mkBrokerData None None None))) in
  let host := Scenario.host (js "us-east-1") 0 answer in
  (getCredentials host (js "https://sts.us-east-1.amazonaws.com/") (js "prod") Scenario.start).1
  = Some (Ok (mkCredentials None None None)).
Proof. reflexivity. Qed.

(** ** Presigning *)

Lemma presignGetCallerIdentity_run host region roleCredentials w :
  let sts := getStsClient (Some region) (Some roleCredentials) in
  match h_createRequest host (trace w) sts with
  | Err e => presignGetCallerIdentity host region roleCredentials w = (Some (Err e), w)
  | Ok created =>
      let request :=
        mkHttpRequest (js "GET") (protocol created) (hostname created) (port created)
          (path created) {[ js "host" := mjoin (headers created !! js "host") ]}
          {[ js "Action" := js "GetCallerIdentity"; js "Version" := js "2011-06-15" ]}
          (Some (js "")) in
      presignGetCallerIdentity host region roleCredentials w
      = (Some match h_presign host (trace w) sts request presignOptions with
              | Ok presigned => Ok (h_formatUrl host presigned)
              | Err e => Err e
              end,
         mkWorld (env w) (trace w ++ [SignerPresign sts request presignOptions]))
  end.
Proof.
  intros sts. unfold presignGetCallerIdentity. cbv zeta. fold sts.
  rewrite bind_attempt. destruct (h_createRequest host (trace w) sts) as [created|e]; [|done].
  rewrite bind_call. destruct (h_presign _ _ _ _ _); reflexivity.
Qed.

(** The host of the concrete run keeps the contract. *)
Lemma scenario_host_contract region failures answer :
  SdkContract (Scenario.host region failures answer).
Proof.
  split.
  - intros h sts created [= <-]. done.
  - intros h sts request options presigned [= <-]. cbn [protocol hostname query].
    split; [done|]. split; [done|]. eexists. split; [apply lookup_insert_eq|]. done.
  - intros request signature Hprotocol Hquery _. cbn [h_formatUrl Scenario.host].
    rewrite Hprotocol.
    exists (path request ++ js "?"
            ++ concat ((λ kv, kv.1 ++ js "=" ++ kv.2 ++ js "&") <$> map_to_list (query request))).
    split; [reflexivity|].
    apply elem_of_map_to_list, list_elem_of_split in Hquery as (l1 & l2 & Hlist).
    unfold jsstring in *. rewrite Hlist, fmap_app, fmap_cons, concat_app, concat_cons.
    cbn [fst snd].
    eexists (path request ++ js "?" ++ concat _), (js "&" ++ concat _).
    by rewrite <- !app_assoc.
Qed.

(** C8. The request [presignGetCallerIdentity] hands to the signer has
    method [GET], the one header [host] (with the value the created
    request had for it), the query [Action=GetCallerIdentity],
    [Version=2011-06-15] and nothing else, and an empty body.  It keeps
    the protocol and the host name of the created request, so that, with
    an SDK that keeps its contract, what the function returns is one
    string that starts with [https://] and the host name and then
    contains the signature, as [X-Amz-Signature=...].  If creating or
    signing the request fails, so does the function. *)
Theorem presigned_url_is_absolute_and_signed host region roleCredentials w :
  SdkContract host →
  let sts := getStsClient (Some region) (Some roleCredentials) in
  match h_createRequest host (trace w) sts with
  | Err e => presignGetCallerIdentity host region roleCredentials w = (Some (Err e), w)
  | Ok created =>
      ∃ request,
        method request = js "GET"
        ∧ headers request = {[ js "host" := mjoin (headers created !! js "host") ]}
        ∧ dom (headers request) = {[ js "host" ]}
        ∧ query request = {[ js "Action" := js "GetCallerIdentity";
                             js "Version" := js "2011-06-15" ]}
        ∧ size (query request) = 2%nat
        ∧ body request = Some (js "")
        ∧ let signed :=
            mkWorld (env w) (trace w ++ [SignerPresign sts request presignOptions]) in
          match h_presign host (trace w) sts request presignOptions with
          | Err e =>
              presignGetCallerIdentity host region roleCredentials w = (Some (Err e), signed)
          | Ok presigned =>
              ∃ signature rest,
                query presigned !! js "X-Amz-Signature" = Some signature
                ∧ truthy signature = true
                ∧ truthy (hostname created) = true
                ∧ includes rest (js "X-Amz-Signature=" ++ signature)
                ∧ presignGetCallerIdentity host region roleCredentials w
                  = (Some (Ok (js "https://" ++ hostname created ++ rest)), signed)
          end
  end.
Proof.
  intros Hsdk sts. pose proof (presignGetCallerIdentity_run host region roleCredentials w) as Hrun.
  cbv zeta in Hrun. fold sts in Hrun.
  destruct (h_createRequest host (trace w) sts) as [created|e] eqn:Hcreate; [|done].
  destruct (createRequest_endpoint _ Hsdk _ _ _ Hcreate) as [Hhttps Hname].
  set (request := mkHttpRequest _ _ _ _ _ _ _ _) in Hrun.
  exists request. cbn [method headers query body request]. repeat (split; [done|]).
  cbv zeta. rewrite Hrun.
  destruct (h_presign host (trace w) sts request presignOptions) as [presigned|e] eqn:Hsign;
    [|done].
  destruct (presign_signature _ Hsdk _ _ _ _ _ Hsign)
    as (Hprotocol & Hhostname & signature & Hquery & Htruthy & Hhex).
  cbn [protocol hostname request] in Hprotocol, Hhostname.
  destruct (formatUrl_text _ Hsdk presigned signature) as (rest & Hurl & Hincludes);
    [congruence | done | done |].
  exists signature, rest. rewrite Hurl, Hhostname. done.
Qed.

Lemma presigned_url_is_absolute_and_signed_witness :
  ∃ request signature rest,
    method request = js "GET"
    ∧ includes rest (js "X-Amz-Signature=" ++ signature)
    ∧ presignGetCallerIdentity Calls.host (js "us-east-1")
        (mkCredentials (Some (js "ASIATEMP")) (Some (js "tempsecret")) (Some (js "temptoken")))
        Scenario.start
      = (Some (Ok (js "https://" ++ js "sts.us-east-1.amazonaws.com" ++ rest)),
         mkWorld Scenario.environment
           [SignerPresign (getStsClient (Some (js "us-east-1"))
                             (Some (mkCredentials (Some (js "ASIATEMP")) (Some (js "tempsecret"))
                                                  (Some (js "temptoken")))))
                          request presignOptions]).
Proof.
  destruct (presigned_url_is_absolute_and_signed Calls.host (js "us-east-1")
              (mkCredentials (Some (js "ASIATEMP")) (Some (js "tempsecret"))
                             (Some (js "temptoken")))
              Scenario.start (scenario_host_contract _ _ _))
    as (request & Hmethod & _ & _ & _ & _ & _ & signature & rest & _ & _ & _ & Hincludes & Hrun).
  exists request, signature, rest. split; [exact Hmethod|]. split; [exact Hincludes|].
  exact Hrun.
Defined.

(** ** The tag sanitizer *)

Lemma sanitizeGithubWorkflowName_length name :
  (length (sanitizeGithubWorkflowName name) ≤ MAX_TAG_VALUE_LENGTH)%nat.
Proof. unfold sanitizeGithubWorkflowName. rewrite length_take. lia. Qed.

Lemma sanitizeGithubActor_length actor :
  length (sanitizeGithubActor actor) = length actor.
Proof. unfold sanitizeGithubActor. apply length_fmap. Qed.

Lemma sanitizeGithubActor_no_brackets actor c :
  c ∈ sanitizeGithubActor actor → c ≠ 0x5B ∧ c ≠ 0x5D.
Proof.
  unfold sanitizeGithubActor. intros (c0 & -> & _)%list_elem_of_fmap.
  destruct (Z.eqb_spec c0 0x5B), (Z.eqb_spec c0 0x5D); cbn; try done.
Qed.

Lemma in_ranges_avoid lo hi rs cp :
  ranges_avoid lo hi rs = true → lo ≤ cp ≤ hi → Unicode.in_ranges cp rs = false.
Proof.
  intros Havoid Hcp. unfold Unicode.in_ranges, ranges_avoid in *.
  induction rs as [|[a b] rs IH]; [done|]. cbn in *.
  apply andb_true_iff in Havoid as [Hab Hrs]. rewrite (IH Hrs), orb_false_r.
  apply orb_true_iff in Hab as [?%Z.ltb_lt | ?%Z.ltb_lt]; apply andb_false_iff;
    [right | left]; apply Z.leb_gt; lia.
Qed.

(** A surrogate code unit is no letter, separator or number, and is not
    in the ASCII part of the class. *)
Lemma surrogate_outside_class u :
  isHighSurrogate u || isLowSurrogate u = true → workflowNameClass u = false.
Proof.
  intros Hu. assert (0xD800 ≤ u ≤ 0xDFFF) as Hrange.
  { unfold isHighSurrogate, isLowSurrogate in Hu.
    apply orb_true_iff in Hu as [[?%Z.leb_le ?%Z.leb_le]%andb_true_iff
                               | [?%Z.leb_le ?%Z.leb_le]%andb_true_iff]; lia. }
  unfold workflowNameClass, Unicode.is_L, Unicode.is_Z, Unicode.is_N.
  rewrite !(in_ranges_avoid 0xD800 0xDFFF) by (done || by vm_compute).
  repeat match goal with
         | |- context [?a =? ?b] => destruct (Z.eqb_spec a b); [lia|]
         | |- context [?a <=? ?b] => destruct (Z.leb_spec a b); [lia|]
         end.
  done.
Qed.

Lemma codePoints_cons c s :
  isHighSurrogate c = false → codePoints (c :: s) = c :: codePoints s.
Proof. intros Hc. destruct s as [|lo s]; [done|]. cbn [codePoints]. by rewrite Hc. Qed.

Lemma codePoints_pair hi lo rest :
  codePoints (hi :: lo :: rest)
  = if isHighSurrogate hi && isLowSurrogate lo
    then surrogatePair hi lo :: codePoints rest
    else hi :: codePoints (lo :: rest).
Proof. reflexivity. Qed.

Lemma replaceSpecialCharacters_pair hi lo rest :
  replaceSpecialCharacters (hi :: lo :: rest)
  = if isHighSurrogate hi && isLowSurrogate lo
    then (if workflowNameClass (surrogatePair hi lo)
          then hi :: lo :: replaceSpecialCharacters rest
          else SANITIZATION_CHARACTER :: replaceSpecialCharacters rest)
    else (if workflowNameClass hi then hi else SANITIZATION_CHARACTER)
           :: replaceSpecialCharacters (lo :: rest).
Proof. reflexivity. Qed.

(** Replacement works code point by code point: each one outside the
    class becomes one sentinel, each one inside stays; none is dropped. *)
Lemma codePoints_replaceSpecialCharacters name :
  codePoints (replaceSpecialCharacters name)
  = (λ cp, if workflowNameClass cp then cp else SANITIZATION_CHARACTER) <$> codePoints name.
Proof.
  assert (∀ c, isHighSurrogate
                 (if workflowNameClass c then c else SANITIZATION_CHARACTER) = false) as Hkept.
  { intros c. destruct (workflowNameClass c) eqn:Hc; [|done].
    destruct (isHighSurrogate c) eqn:Hs; [|done].
    by rewrite surrogate_outside_class in Hc by (by rewrite Hs). }
  remember (length name) as n eqn:Hn. revert name Hn.
  induction n as [n IH] using lt_wf_ind. intros name ->.
  destruct name as [|hi [|lo rest]]; [done|done|].
  rewrite replaceSpecialCharacters_pair, (codePoints_pair hi lo rest).
  destruct (isHighSurrogate hi && isLowSurrogate lo) eqn:Hpair.
  - destruct (workflowNameClass (surrogatePair hi lo)) eqn:Hclass.
    + rewrite codePoints_pair, Hpair, fmap_cons, Hclass.
      f_equal. eapply IH; [|done]. cbn. lia.
    + rewrite codePoints_cons by done. rewrite fmap_cons, Hclass.
      f_equal. eapply IH; [|done]. cbn. lia.
  - rewrite codePoints_cons by apply Hkept. rewrite fmap_cons.
    f_equal. eapply IH; [|done]. cbn. lia.
Qed.

(** The class of the pattern is the tag-value class and, through the
    range from [.] to [@], the four characters [;], [<], [>] and [?]. *)
Lemma workflowNameClass_tagValueChar cp :
  workflowNameClass cp
  = tagValueChar cp || (cp =? 0x3B) || (cp =? 0x3C) || (cp =? 0x3E) || (cp =? 0x3F).
Proof.
  destruct (decide (0x2E ≤ cp ≤ 0x40)) as [Hin|Hout].
  - assert (∃ k : nat, (k < 19)%nat ∧ cp = 0x2E + Z.of_nat k) as (k & Hk & ->).
    { exists (Z.to_nat (cp - 0x2E)). lia. }
    do 19 (destruct k as [|k]; [by vm_compute|]). lia.
  - unfold workflowNameClass, tagValueChar.
    destruct (Unicode.is_L cp), (Unicode.is_Z cp), (Unicode.is_N cp); cbn [orb]; try done.
    repeat match goal with
           | |- context [?a =? ?b] => destruct (Z.eqb_spec a b)
           | |- context [?a <=? ?b] => destruct (Z.leb_spec a b)
           end; cbn; try done; lia.
Qed.

(** C7. [sanitizeGithubWorkflowName] lets a semicolon through, which the
    tag-value class does not contain. *)
Theorem semicolon_survives_sanitizing :
  sanitizeGithubWorkflowName (js "build;test") = js "build;test"
  ∧ tagValueChar 0x3B = false
  ∧ 0x3B ∈ sanitizeGithubWorkflowName (js "build;test").
Proof.
  split; [by vm_compute|]. split; [by vm_compute|].
  apply list_elem_of_In. vm_compute. do 5 right. by left.
Qed.

(** ** More on the tag sanitizer *)

Lemma class_not_high c : workflowNameClass c = true → isHighSurrogate c = false.
Proof.
  intros Hc. destruct (isHighSurrogate c) eqn:Hs; [|done].
  by rewrite surrogate_outside_class in Hc by (by rewrite Hs).
Qed.

Lemma replaceSpecialCharacters_conforming name :
  Conforming (replaceSpecialCharacters name).
Proof.
  remember (length name) as n eqn:Hn. revert name Hn.
  induction n as [n IH] using lt_wf_ind. intros name ->.
  destruct name as [|hi [|lo rest]].
  - constructor.
  - cbn. destruct (workflowNameClass hi) eqn:Hc; (constructor; [done | constructor]).
  - rewrite replaceSpecialCharacters_pair.
    destruct (isHighSurrogate hi && isLowSurrogate lo) eqn:Hpair.
    + destruct (workflowNameClass (surrogatePair hi lo)) eqn:Hclass.
      * apply conforming_pair; [done..|]. eapply IH; [|done]. cbn. lia.
      * apply conforming_unit; [done|]. eapply IH; [|done]. cbn. lia.
    + apply conforming_unit.
      * by destruct (workflowNameClass hi) eqn:Hc.
      * eapply IH; [|done]. cbn. lia.
Qed.

Lemma conforming_codePoints s :
  Conforming s → Forall (λ cp, workflowNameClass cp = true) (codePoints s).
Proof.
  induction 1 as [|c s Hc _ IH|hi lo s Hpair Hclass _ IH]; [constructor|..].
  - rewrite codePoints_cons by by apply class_not_high. by constructor.
  - rewrite codePoints_pair, Hpair. by constructor.
Qed.

Lemma conforming_fixed s : Conforming s → replaceSpecialCharacters s = s.
Proof.
  induction 1 as [|c s Hc Hs IH|hi lo s Hpair Hclass _ IH]; [done|..].
  - destruct s as [|lo rest]; [cbn; by rewrite Hc|].
    rewrite replaceSpecialCharacters_pair, (class_not_high c Hc), Hc. cbn [andb].
    by rewrite IH.
  - by rewrite replaceSpecialCharacters_pair, Hpair, Hclass, IH.
Qed.

Lemma conforming_take s :
  Conforming s → ∀ n,
  Conforming (take n s)
  ∨ ∃ body hi, take n s = body ++ [hi] ∧ Conforming body
               ∧ isHighSurrogate hi = true ∧ length (take n s) = n.
Proof.
  induction 1 as [|c s Hc _ IH|hi lo s Hpair Hclass _ IH]; intros n.
  - left. rewrite take_nil. constructor.
  - destruct n as [|n]; [left; constructor|]. cbn [take].
    destruct (IH n) as [Hs|(body & hi & -> & Hbody & Hhi & Hlen)].
    + left. by constructor.
    + right. exists (c :: body), hi. cbn [length] in *.
      split; [done|]. split; [by constructor|]. split; [done | by rewrite Hlen].
  - destruct n as [|[|n]]; [left; constructor| |].
    + right. exists [], hi. apply andb_true_iff in Hpair as [Hhi _].
      split; [done|]. split; [constructor|]. by split.
    + cbn [take]. destruct (IH n) as [Hs|(body & hi' & -> & Hbody & Hhi & Hlen)].
      * left. by constructor.
      * right. exists (hi :: lo :: body), hi'. cbn [length] in *.
        split; [done|]. split; [by constructor|]. split; [done | by rewrite Hlen].
Qed.

Lemma replaceSpecialCharacters_length name :
  (length (replaceSpecialCharacters name) ≤ length name)%nat.
Proof.
  remember (length name) as n eqn:Hn. revert name Hn.
  induction n as [n IH] using lt_wf_ind. intros name ->.
  destruct name as [|hi [|lo rest]]; [done|done|].
  rewrite replaceSpecialCharacters_pair.
  destruct (isHighSurrogate hi && isLowSurrogate lo);
    [destruct (workflowNameClass (surrogatePair hi lo))|]; cbn [length].
  - specialize (IH (length rest) ltac:(cbn; lia) rest eq_refl). lia.
  - specialize (IH (length rest) ltac:(cbn; lia) rest eq_refl). lia.
  - specialize (IH (length (lo :: rest)) ltac:(cbn; lia) (lo :: rest) eq_refl).
    cbn [length] in IH. lia.
Qed.

(** X1. What the sanitized workflow name consists of: code points of the
    pattern's class and nothing else, except that cutting at 256 code
    units may split a surrogate pair, which leaves its high surrogate as
    the last, 256th, code unit. *)
Theorem sanitized_workflow_name_shape name :
  ∃ body tail,
    sanitizeGithubWorkflowName name = body ++ tail
    ∧ Forall (λ cp, workflowNameClass cp = true) (codePoints body)
    ∧ (tail = []
       ∨ (∃ hi, tail = [hi] ∧ isHighSurrogate hi = true)
         ∧ length (sanitizeGithubWorkflowName name) = MAX_TAG_VALUE_LENGTH).
Proof.
  unfold sanitizeGithubWorkflowName.
  destruct (conforming_take _ (replaceSpecialCharacters_conforming name) MAX_TAG_VALUE_LENGTH)
    as [Hs|(body & hi & Htake & Hbody & Hhi & Hlen)].
  - eexists _, []. rewrite app_nil_r. split; [done|]. split; [|by left].
    by apply conforming_codePoints.
  - exists body, [hi]. split; [done|]. split; [by apply conforming_codePoints|].
    right. split; [by exists hi | done].
Qed.

(** X2. The replacement maps code points one to one: each code point of
    the name that is outside the class becomes one sentinel, each one
    inside stays as it is, in place; so their number does not change. *)
Theorem replacement_is_code_point_wise name :
  codePoints (replaceSpecialCharacters name)
  = (λ cp, if workflowNameClass cp then cp else SANITIZATION_CHARACTER) <$> codePoints name
  ∧ length (codePoints (replaceSpecialCharacters name)) = length (codePoints name).
Proof.
  rewrite codePoints_replaceSpecialCharacters. split; [done|]. apply length_fmap.
Qed.

(** X3. The class of the pattern is wider than the tag-value class by
    exactly four characters: through its range from [.] to [@] it also
    holds [;], [<], [>] and [?]. *)
Theorem pattern_class_is_tag_class_plus_four cp :
  workflowNameClass cp
  = tagValueChar cp || bool_decide (cp ∈ [0x3B; 0x3C; 0x3E; 0x3F])
  ∧ Forall (λ c, tagValueChar c = false) [0x3B; 0x3C; 0x3E; 0x3F].
Proof.
  split; [|by repeat constructor].
  rewrite workflowNameClass_tagValueChar.
  destruct (tagValueChar cp); cbn [orb]; [done|].
  destruct (Z.eqb_spec cp 0x3B) as [->|?]; [done|].
  destruct (Z.eqb_spec cp 0x3C) as [->|?]; [done|].
  destruct (Z.eqb_spec cp 0x3E) as [->|?]; [done|].
  destruct (Z.eqb_spec cp 0x3F) as [->|?]; [done|].
  symmetry. apply bool_decide_eq_false.
  rewrite !elem_of_cons, elem_of_nil. lia.
Qed.

(** X4. Sanitizing twice is sanitizing once: for the replacement on
    every name, and for the whole function on names of up to 256 code
    units.  The replacement never makes a name longer. *)
Theorem sanitizing_is_idempotent name :
  replaceSpecialCharacters (replaceSpecialCharacters name) = replaceSpecialCharacters name
  ∧ (length (replaceSpecialCharacters name) ≤ length name)%nat
  ∧ ((length name ≤ MAX_TAG_VALUE_LENGTH)%nat →
     sanitizeGithubWorkflowName name = replaceSpecialCharacters name
     ∧ sanitizeGithubWorkflowName (sanitizeGithubWorkflowName name)
       = sanitizeGithubWorkflowName name).
Proof.
  pose proof (conforming_fixed _ (replaceSpecialCharacters_conforming name)) as Hfix.
  pose proof (replaceSpecialCharacters_length name) as Hle.
  split; [done|]. split; [done|]. intros Hlen.
  assert (sanitizeGithubWorkflowName name = replaceSpecialCharacters name) as Hsame.
  { unfold sanitizeGithubWorkflowName. apply take_ge. lia. }
  split; [done|].
  rewrite Hsame. unfold sanitizeGithubWorkflowName. by rewrite Hfix.
Qed.

Lemma sanitizing_is_idempotent_witness :
  sanitizeGithubWorkflowName (sanitizeGithubWorkflowName (js "CI Build [main]"))
  = sanitizeGithubWorkflowName (js "CI Build [main]").
Proof.
  refine (proj2 (proj2 (proj2 (sanitizing_is_idempotent (js "CI Build [main]"))) _)).
  vm_compute. lia.
Defined.

(** X5. [sanitizeGithubActor] changes the brackets and nothing else: code
    unit by code unit a bracket becomes the sentinel and any other code
    unit stays; the length is kept, no bracket is left, and sanitizing
    again changes nothing. *)
Theorem actor_brackets_are_replaced actor i :
  sanitizeGithubActor actor !! i
  = (λ c, if bool_decide (c ∈ [0x5B; 0x5D]) then SANITIZATION_CHARACTER else c)
      <$> (actor !! i)
  ∧ length (sanitizeGithubActor actor) = length actor
  ∧ (0x5B ∉ sanitizeGithubActor actor)
  ∧ (0x5D ∉ sanitizeGithubActor actor)
  ∧ sanitizeGithubActor (sanitizeGithubActor actor) = sanitizeGithubActor actor.
Proof.
  split; [|split; [apply sanitizeGithubActor_length|split; [|split]]].
  - unfold sanitizeGithubActor, jsstring. rewrite list_lookup_fmap.
    destruct (_ !! _) as [c|]; [|done]. cbn [fmap option_fmap option_map]. f_equal.
    destruct (Z.eqb_spec c 0x5B) as [->|?]; [by vm_compute|].
    destruct (Z.eqb_spec c 0x5D) as [->|?]; [by vm_compute|].
    cbn [orb]. rewrite bool_decide_eq_false_2; [done|].
    rewrite !elem_of_cons, elem_of_nil. lia.
  - intros Hin. by destruct (sanitizeGithubActor_no_brackets _ _ Hin).
  - intros Hin. by destruct (sanitizeGithubActor_no_brackets _ _ Hin).
  - unfold sanitizeGithubActor. rewrite <- list_fmap_compose. apply list_fmap_ext.
    intros _ c _. cbn.
    destruct (Z.eqb_spec c 0x5B), (Z.eqb_spec c 0x5D); cbn; try done.
    destruct (Z.eqb_spec c 0x5B), (Z.eqb_spec c 0x5D); cbn; done.
Qed.

(** ** How long the executor sleeps *)

Lemma Qpower_2_succ r : 0 ≤ r → (Qpower (inject_Z 2) (r + 1) == 2 * Qpower (inject_Z 2) r)%Q.
Proof.
  intros Hr. rewrite Qpower_plus by done. change (Qpower (inject_Z 2) 1) with (inject_Z 2).
  change (inject_Z 2) with 2%Q. ring.
Qed.

Lemma Qpower_2_pos r : (0 < Qpower (inject_Z 2) r)%Q.
Proof. apply Qpower_0_lt. done. Qed.

(** [n] rounds sleep less than the last window. *)
Lemma totalDelay_failedRounds jitter retries base made n :
  (∀ k, (0 <= jitter k)%Q ∧ (jitter k < 1)%Q) → 0 ≤ retries → 0 < base →
  (0 <= totalDelay (failedRounds jitter retries base made n))%Q
  ∧ (totalDelay (failedRounds jitter retries base made n)
     <= (Qpower (inject_Z 2) (retries + Z.of_nat n) - Qpower (inject_Z 2) retries)
        * inject_Z base)%Q.
Proof.
  intros Hjitter Hretries Hbase. revert retries made Hretries.
  induction n as [|n IH]; intros retries made Hretries.
  - cbn [failedRounds totalDelay]. rewrite Z.add_0_r. split; [done|]. lra.
  - cbn [failedRounds totalDelay].
    destruct (IH (retries + 1) (S made) ltac:(lia)) as [IH0 IH1].
    replace (retries + Z.of_nat (S n)) with (retries + 1 + Z.of_nat n) by lia.
    rewrite Qpower_2_succ in IH1 by done.
    pose proof (Qpower_2_pos retries) as Hpow.
    destruct (Hjitter (S made)) as [Hj0 Hj1].
    assert (0 < inject_Z base)%Q as Hb.
    { unfold Qlt. cbn. lia. }
    set (window := (Qpower (inject_Z 2) retries * inject_Z base)%Q) in *.
    assert (0 < window)%Q as Hw by (by apply Qmult_lt_0_compat).
    assert (0 <= jitter (S made) * window)%Q as Hlo by (by apply Qmult_le_0_compat; [|apply Qlt_le_weak]).
    assert (jitter (S made) * window <= window)%Q as Hhi.
    { rewrite <- (Qmult_1_l window) at 2. apply Qmult_le_compat_r; [|by apply Qlt_le_weak].
      by apply Qlt_le_weak. }
    split; [lra|]. unfold window in *. lra.
Qed.

(** X6. With the defaults an operation that keeps failing is given up
    after twelve attempts, and by then the executor has slept, in all,
    no more than [4095 * base] milliseconds (for the default base of 50,
    204750 ms), whatever [Math.random] returned in its range from 0
    (included) to 1 (excluded). *)
Theorem backoff_sleeps_at_most {A} (script : nat → Result A) (jitter : nat → Q) (base : Z) :
  (∀ k, ∃ e, script k = Err e) →
  (∀ k, (0 <= jitter k)%Q ∧ (jitter k < 1)%Q) →
  0 < base →
  ∃ final,
    retryAndBackoff probeSleep (probeRandom jitter) 12 (scripted script) true 0 12 base []
    = (Some (script 11%nat), final)
    ∧ attempts final = 12%nat
    ∧ (0 <= totalDelay final)%Q
    ∧ (totalDelay final <= inject_Z (4095 * base))%Q.
Proof.
  intros Hfail Hjitter Hbase. eexists. split.
  { apply (retry_exhausts script jitter 11 0 0 base [] Hfail). }
  cbn [app]. split; [apply attempts_failedRounds|].
  destruct (totalDelay_failedRounds jitter 0 base (attempts []) 12 Hjitter ltac:(lia) Hbase)
    as [H0 H1].
  split; [done|]. eapply Qle_trans; [exact H1|].
  change (Qpower (inject_Z 2) (0 + Z.of_nat 12)) with (inject_Z 4096).
  change (Qpower (inject_Z 2) 0) with (inject_Z 1).
  rewrite inject_Z_mult. change (inject_Z 4095) with (inject_Z 4096 - inject_Z 1)%Q.
  apply Qle_refl.
Qed.

Lemma backoff_sleeps_at_most_witness :
  ∃ final,
    retryAndBackoff probeSleep (probeRandom (λ _, 1 # 2)) 12 (scripted alwaysFails) true
                    0 12 50 []
    = (Some (alwaysFails 11%nat), final)
    ∧ attempts final = 12%nat
    ∧ (0 <= totalDelay final)%Q
    ∧ (totalDelay final <= inject_Z (4095 * 50))%Q.
Proof.
  apply (backoff_sleeps_at_most alwaysFails (λ _, 1 # 2) 50).
  - intros k. by eexists.
  - intros k. split; [by vm_compute | by vm_compute].
  - lia.
Defined.

(** ** Export *)

Ltac distinct_names := apply (bool_decide_unpack _); by vm_compute.

Ltac export_lookups :=
  repeat first [ rewrite lookup_insert_eq
               | rewrite lookup_insert_ne by distinct_names ].

(** What [exportCredentials] leaves in the environment. *)
Lemma exportCredentials_env credentials w :
  let w' := (exportCredentials credentials w).2 in
  let stale := env w !! js "AWS_SESSION_TOKEN" in
  (∃ evs, trace w' = trace w ++ evs)
  ∧ env w' !! js "AWS_ACCESS_KEY_ID" = Some (default [] (accessKeyId credentials))
  ∧ env w' !! js "AWS_SECRET_ACCESS_KEY" = Some (default [] (secretAccessKey credentials))
  ∧ env w' !! js "AWS_SESSION_TOKEN"
    = (if truthy (sessionToken credentials) then sessionToken credentials
       else if truthy stale then Some (js "") else stale)
  ∧ ∀ name, name ∈ credentialNames ∨ env w' !! name = env w !! name.
Proof.
  intros w' stale. subst w'.
  assert (∀ name, name ∈ credentialNames ∨
            (name ≠ js "AWS_ACCESS_KEY_ID" ∧ name ≠ js "AWS_SECRET_ACCESS_KEY"
             ∧ name ≠ js "AWS_SESSION_TOKEN")) as Hnames.
  { intros name. unfold credentialNames.
    destruct (decide (name = js "AWS_ACCESS_KEY_ID")) as [->|?]; [left; set_solver|].
    destruct (decide (name = js "AWS_SECRET_ACCESS_KEY")) as [->|?]; [left; set_solver|].
    destruct (decide (name = js "AWS_SESSION_TOKEN")) as [->|?]; [left; set_solver|].
    by right. }
  unfold exportCredentials, setSecret. cbv zeta. exec.
  destruct (truthy (sessionToken credentials)) eqn:Htoken.
  - exec. unfold exportVariable. cbn [fst snd env trace].
    rewrite <- !app_assoc. cbn [app]. export_lookups.
    destruct (sessionToken credentials) as [token|]; [|done].
    repeat split; try done; [by eexists|].
    intros name. destruct (Hnames name) as [?|(? & ? & ?)]; [by left|right].
    by rewrite !lookup_insert_ne.
  - exec. export_lookups. fold stale.
    destruct (truthy stale) eqn:Hstale.
    + unfold exportVariable. cbn [fst snd env trace].
      rewrite <- !app_assoc. cbn [app]. export_lookups.
      repeat split; try done; [by eexists|].
      intros name. destruct (Hnames name) as [?|(? & ? & ?)]; [by left|right].
      by rewrite !lookup_insert_ne.
    + unfold ret. cbn [fst snd env trace].
      rewrite <- !app_assoc. cbn [app]. export_lookups. fold stale.
      repeat split; try done; [by eexists|].
      intros name. destruct (Hnames name) as [?|(? & ? & ?)]; [by left|right].
      by rewrite !lookup_insert_ne.
Qed.

(** X7. [exportCredentials] always returns.  It exports the access key id
    and the secret key, each one registered with [core.setSecret] just
    before.  A session token that is there is registered and exported too;
    when there is none, a non-empty [AWS_SESSION_TOKEN] left in the
    environment is overwritten with the empty string: afterwards the
    variable holds a token exactly when the credentials have one.  No
    other variable of the environment changes. *)
Theorem exportCredentials_leaves_no_stale_token credentials w :
  let w' := (exportCredentials credentials w).2 in
  let stale := env w !! js "AWS_SESSION_TOKEN" in
  (exportCredentials credentials w).1 = Some (Ok tt)
  ∧ trace w'
    = trace w
      ++ [CoreSetSecret (accessKeyId credentials);
          CoreExportVariable (js "AWS_ACCESS_KEY_ID") (accessKeyId credentials);
          CoreSetSecret (secretAccessKey credentials);
          CoreExportVariable (js "AWS_SECRET_ACCESS_KEY") (secretAccessKey credentials)]
      ++ (if truthy (sessionToken credentials)
          then [CoreSetSecret (sessionToken credentials);
                CoreExportVariable (js "AWS_SESSION_TOKEN") (sessionToken credentials)]
          else if truthy stale
               then [CoreExportVariable (js "AWS_SESSION_TOKEN") (Some (js ""))]
               else [])
  ∧ env w' !! js "AWS_ACCESS_KEY_ID" = Some (default [] (accessKeyId credentials))
  ∧ env w' !! js "AWS_SECRET_ACCESS_KEY" = Some (default [] (secretAccessKey credentials))
  ∧ env w' !! js "AWS_SESSION_TOKEN"
    = (if truthy (sessionToken credentials) then sessionToken credentials
       else if truthy stale then Some (js "") else stale)
  ∧ truthy (env w' !! js "AWS_SESSION_TOKEN") = truthy (sessionToken credentials)
  ∧ ∀ name, name ∈ credentialNames ∨ env w' !! name = env w !! name.
Proof.
  intros w' stale.
  destruct (exportCredentials_env credentials w) as (_ & Hkey & Hsecret & Htoken & Hframe).
  split; [|split; [|split; [exact Hkey|split; [exact Hsecret|split;
    [exact Htoken|split; [|exact Hframe]]]]]].
  - destruct (returns_exportCredentials credentials w) as [[] Hreturns]. exact Hreturns.
  - subst w'. unfold exportCredentials, setSecret. cbv zeta. exec.
    destruct (truthy (sessionToken credentials)).
    + exec. unfold exportVariable. cbn [snd trace]. by rewrite <- !app_assoc.
    + exec. export_lookups. fold stale. destruct (truthy stale).
      * unfold exportVariable. cbn [snd trace]. by rewrite <- !app_assoc.
      * unfold ret. cbn [snd trace]. by rewrite <- !app_assoc.
  - subst w'. rewrite Htoken. destruct (truthy (sessionToken credentials)) eqn:Ht; [done|].
    fold stale. destruct (truthy stale) eqn:Hs; [done|]. by rewrite Hs.
Qed.

(** ** The request for the signer *)

(** X17. Whatever the SDK does, the request [presignGetCallerIdentity]
    hands to the signer has method [GET], the one header [host] (with the
    value the created request had for it), the query
    [Action=GetCallerIdentity], [Version=2011-06-15] and nothing else, and
    an empty body; the signer is called once, and the function returns
    what [formatUrl] makes of its output.  If creating or signing the
    request fails, so does the function. *)
Theorem presigned_request_is_minimal host region roleCredentials w :
  let sts := getStsClient (Some region) (Some roleCredentials) in
  match h_createRequest host (trace w) sts with
  | Err e => presignGetCallerIdentity host region roleCredentials w = (Some (Err e), w)
  | Ok created =>
      ∃ request,
        method request = js "GET"
        ∧ protocol request = protocol created
        ∧ hostname request = hostname created
        ∧ headers request = {[ js "host" := mjoin (headers created !! js "host") ]}
        ∧ dom (headers request) = {[ js "host" ]}
        ∧ query request = {[ js "Action" := js "GetCallerIdentity";
                             js "Version" := js "2011-06-15" ]}
        ∧ size (query request) = 2%nat
        ∧ body request = Some (js "")
        ∧ presignGetCallerIdentity host region roleCredentials w
          = (Some match h_presign host (trace w) sts request presignOptions with
                  | Ok presigned => Ok (h_formatUrl host presigned)
                  | Err e => Err e
                  end,
             mkWorld (env w) (trace w ++ [SignerPresign sts request presignOptions]))
  end.
Proof.
  intros sts. pose proof (presignGetCallerIdentity_run host region roleCredentials w) as Hrun.
  cbv zeta in Hrun. fold sts in Hrun.
  destruct (h_createRequest host (trace w) sts) as [created|e]; [|done].
  set (request := mkHttpRequest _ _ _ _ _ _ _ _) in Hrun.
  exists request. cbn [method protocol hostname headers query body request].
  by repeat split.
Qed.

(** ** What a role assumption logs before it fails *)

(** X15. Called with an inline token, a role ARN and all it requires,
    [assumeRole] logs how many session tags "are being used", six or,
    with [GITHUB_REF], seven, and deletes these tags from the request it
    builds for [AssumeRoleWithWebIdentityCommand].  Calling that class
    without [new] then throws: the diagnostic is all the call has done. *)
Theorem tag_count_is_logged_though_tags_are_dropped host params w token :
  requiredInputs params = true →
  requiredEnvironment (env w) = true →
  startsWith (default [] (roleToAssume params)) (js "arn:aws") = true →
  webIdentityToken params = Some token →
  truthy token = true →
  let tags := environmentTags (env w) in
  let request :=
    assignWebIdentityToken
      (deleteTags (baseRequest params (env w) (default [] (roleToAssume params))))
      (Some token) in
  let logged := mkWorld (env w) (trace w ++ [CoreDebug (tagCountNotice tags)]) in
  length tags = (if isDefined (env w !! js "GITHUB_REF") then 7 else 6)%nat
  ∧ tagCountNotice tags
    = (if isDefined (env w !! js "GITHUB_REF") then js "7" else js "6")
      ++ js " role session tags are being used."
  ∧ Tags request = None
  ∧ assumeRoleCommand host params w
    = (Some (Ok (getStsClient (region params) None, AssumeRoleWithWebIdentityCommand,
                 request)), logged)
  ∧ assumeRole host params w
    = (Some (Err (mkError (js "Class constructor AssumeRoleWithWebIdentityCommand cannot be invoked without 'new'"))),
       logged).
Proof.
  intros Hinputs Henv Harn Htoken Htruthy tags request logged.
  assert (length tags = (if isDefined (env w !! js "GITHUB_REF") then 7 else 6)%nat) as Hlen.
  { subst tags. unfold environmentTags, roleSessionTags.
    by destruct (isDefined (env w !! js "GITHUB_REF")). }
  split; [done|]. split.
  { unfold tagCountNotice. rewrite Hlen.
    by destruct (isDefined (env w !! js "GITHUB_REF")). }
  split; [done|].
  assert (assumeRoleCommand host params w
          = (Some (Ok (getStsClient (region params) None, AssumeRoleWithWebIdentityCommand,
                       request)), logged)) as Hbuilt.
  { unfold assumeRoleCommand. cbv zeta. rewrite bind_assert.
    fold (requiredInputs params). rewrite Hinputs. exec.
    rewrite bind_assert. fold (requiredEnvironment (env w)). rewrite Henv. exec.
    rewrite Harn. cbn [negb]. exec.
    rewrite Htoken. unfold isDefined at 1. cbn [truthy truthy_option]. rewrite Htruthy.
    unfold debug. exec. cbv iota. reflexivity. }
  split; [exact Hbuilt|]. by rewrite assumeRole_run, Hbuilt.
Qed.

Lemma tag_count_is_logged_though_tags_are_dropped_witness :
  assumeRole Calls.host Calls.withToken Scenario.start
  = (Some (Err (mkError (js "Class constructor AssumeRoleWithWebIdentityCommand cannot be invoked without 'new'"))),
     mkWorld (env Scenario.start)
       (trace Scenario.start
        ++ [CoreDebug (tagCountNotice (environmentTags (env Scenario.start)))])).
Proof.
  apply (tag_count_is_logged_though_tags_are_dropped Calls.host Calls.withToken
           Scenario.start (js "oidc-token")); vm_compute; reflexivity.
Defined.

(** X16. Called with a role ARN, a token file that can be read and no
    inline token, [assumeRole] announces [sts:AssumeRoleWithWebIdentity]
    in its second diagnostic, builds a request without tags that carries
    the text of the file as [WebIdentityToken], and leaves the class at
    [AssumeRoleCommand]: that is the class its error names.  The two
    diagnostics are all the call has done. *)
Theorem token_file_call_names_the_plain_command host params w file path token :
  requiredInputs params = true →
  requiredEnvironment (env w) = true →
  startsWith (default [] (roleToAssume params)) (js "arn:aws") = true →
  isDefined (webIdentityToken params) = false →
  webIdentityTokenFile params = Some file →
  truthy file = true →
  (if h_isAbsolute host file then path = file
   else ∃ workspace, env w !! js "GITHUB_WORKSPACE" = Some workspace
                     ∧ path = h_join host workspace file) →
  let before :=
    trace w ++ [CoreDebug (tagCountNotice (environmentTags (env w)));
                CoreDebug tokenFileNotice] in
  h_existsSync host before path = true →
  h_readFile host before path = Ok token →
  let request :=
    assignWebIdentityToken
      (deleteTags (baseRequest params (env w) (default [] (roleToAssume params))))
      (Some token) in
  Tags request = None
  ∧ WebIdentityToken request = Some token
  ∧ assumeRoleCommand host params w
    = (Some (Ok (getStsClient (region params) None, AssumeRoleCommand, request)),
       mkWorld (env w) before)
  ∧ assumeRole host params w
    = (Some (Err (mkError (js "Class constructor AssumeRoleCommand cannot be invoked without 'new'"))),
       mkWorld (env w) before).
Proof.
  intros Hinputs Henv Harn Htoken Hfile Htruthy Hpath before Hexists Hread request.
  assert (isDefined (webIdentityTokenFile params) = true) as Hdef by (by rewrite Hfile).
  split; [done|]. split; [done|].
  assert (assumeRoleCommand host params w
          = (Some (Ok (getStsClient (region params) None, AssumeRoleCommand, request)),
             mkWorld (env w) before)) as Hbuilt.
  { unfold assumeRoleCommand, debug. cbv zeta.
    fold (requiredInputs params). rewrite bind_assert, Hinputs. exec.
    fold (requiredEnvironment (env w)). rewrite bind_assert, Henv.
    rewrite bind_if, Harn. cbn [negb]. exec.
    rewrite Htoken, Hdef, Hfile. change (default [] (Some file)) with file.
    destruct (h_isAbsolute host file);
      [subst path | destruct Hpath as (workspace & Hws & ->); rewrite Hws]; exec.
    all: rewrite <- !app_assoc; cbn [app].
    all: repeat match goal with
           | |- context [h_existsSync _ ?h _] => progress change h with before
           | |- context [h_readFile _ ?h _] => progress change h with before
           end.
    all: rewrite Hexists, Hread; cbn [negb]; exec; cbv iota; reflexivity. }
  split; [exact Hbuilt|]. by rewrite assumeRole_run, Hbuilt.
Qed.

Lemma token_file_call_names_the_plain_command_witness :
  assumeRole Runs.readable Calls.withTokenFile Scenario.start
  = (Some (Err (mkError (js "Class constructor AssumeRoleCommand cannot be invoked without 'new'"))),
     mkWorld (env Scenario.start)
       (trace Scenario.start
        ++ [CoreDebug (tagCountNotice (environmentTags (env Scenario.start)));
            CoreDebug tokenFileNotice])).
Proof.
  apply (token_file_call_names_the_plain_command Runs.readable Calls.withTokenFile
           Scenario.start (js "token.jwt") (js "/home/runner/work/token.jwt")
           (js "token-of-the-file"));
    try (vm_compute; reflexivity).
  exists (js "/home/runner/work"). split; reflexivity.
Defined.

(** ** Retries in the run *)

Lemma retry_returns_at_once {S A} (sleep : Q → Eff S unit) (random : Eff S Q) fuel
    (fn : Eff S A) isRetryable retries maxRetries base s a s' :
  fn s = (Some (Ok a), s') →
  retryAndBackoff sleep random (Datatypes.S fuel) fn isRetryable retries maxRetries base s
  = (Some (Ok a), s').
Proof. intros Hfn. cbn [retryAndBackoff]. unfold tryCatch. by rewrite Hfn. Qed.

Lemma retry_world_round host {A} (fn : M A) fuel retries maxRetries base w err :
  fn w = (Some (Err err), w) →
  retryAndBackoff sleep (random host) (S fuel) fn true retries maxRetries base w
  = let w' := mkWorld (env w) (trace w ++ (Sleep <$> backoffDelays host retries base (trace w) 1)) in
    if retries + 1 =? maxRetries then (Some (Err err), w')
    else retryAndBackoff sleep (random host) fuel fn true (retries + 1) maxRetries base w'.
Proof.
  intros Hfn. cbn [retryAndBackoff]. unfold tryCatch at 1. rewrite Hfn. cbn [negb].
  unfold random, sleep. rewrite bind_ask, bind_emit. cbv zeta.
  by destruct (retries + 1 =? maxRetries).
Qed.

(** An operation that fails without effect, whatever was logged before,
    is retried until the retries are used up. *)
Lemma retry_pure_failure host {A} (fn : M A) err e n : ∀ fuel retries base w,
  (∀ w', env w' = e → fn w' = (Some (Err err), w')) →
  env w = e →
  retryAndBackoff sleep (random host) (S n + fuel) fn true retries
                  (retries + Z.of_nat (S n)) base w
  = (Some (Err err),
     mkWorld e (trace w ++ (Sleep <$> backoffDelays host retries base (trace w) (S n)))).
Proof.
  induction n as [|n IH]; intros fuel retries base w Hfn Hw;
    change (S ?k + fuel)%nat with (S (k + fuel));
    rewrite (retry_world_round _ _ _ _ _ _ _ err (Hfn w Hw)); cbv zeta.
  - change (Z.of_nat 1) with 1. by rewrite Z.eqb_refl, Hw.
  - destruct (Z.eqb_spec (retries + 1) (retries + Z.of_nat (S (S n)))) as [Heq|_]; [lia|].
    replace (retries + Z.of_nat (S (S n))) with (retries + 1 + Z.of_nat (S n)) by lia.
    change (S (n + fuel)) with (S n + fuel)%nat. rewrite IH by done.
    cbn [trace]. rewrite <- app_assoc. reflexivity.
Qed.

Lemma backoffDelays_length host retries base h n :
  length (backoffDelays host retries base h n) = n.
Proof.
  revert retries h. induction n as [|n IH]; intros retries h; [done|].
  cbn [backoffDelays length]. by rewrite IH.
Qed.

Lemma requiredEnvironment_exported e name val :
  name ∈ regionNames ++ credentialNames →
  requiredEnvironment (<[name := val]> e) = requiredEnvironment e.
Proof.
  intros Hname. unfold requiredEnvironment.
  rewrite !lookup_insert_ne; [done|..]; intros ->; revert Hname;
    apply (bool_decide_unpack _); by vm_compute.
Qed.

(** The parameters the run passes to [assumeRole] pass its first
    assertion. *)
Lemma run_inputs_are_defined repository duration session region :
  matchesRegionRegex region = true →
  isDefined (Some (js "arn:aws:iam::<SOME_ACCOUNT>:role/github-" ++ repository))
  && isDefined (Some (if truthy duration then DurationText duration
                      else DurationNumber DEFAULT_ROLE_DURATION_FOR_OIDC_ROLES))
  && isDefined (Some (if truthy session then session else ROLE_SESSION_NAME))
  && isDefined (Some region) = true.
Proof.
  intros [Hregion _]%andb_true_iff.
  unfold isDefined. cbn [truthy truthy_option].
  rewrite Hregion, andb_true_r.
  change (truthy (js "arn:aws:iam::<SOME_ACCOUNT>:role/github-" ++ repository)) with true.
  destruct (truthy duration) eqn:Hd, (truthy session) eqn:Hs; cbn; by rewrite ?Hd, ?Hs.
Qed.

(** X8. Inside the run every error of [assumeRole] is retried, its
    assertions included.  With a valid region and a value of the GitHub
    environment missing, no request ever goes to STS; yet the run sleeps
    twelve times, with the growing windows, before it reports the
    assertion's message. *)
Theorem missing_environment_is_retried host w awsRegion audience accountName duration session
    file token :
  h_getInput host (js "aws-region") true = Ok awsRegion →
  h_getInput host (js "audience") false = Ok audience →
  h_getInput host (js "account-name") true = Ok accountName →
  h_getInput host (js "role-duration-seconds") false = Ok duration →
  h_getInput host (js "role-session-name") false = Ok session →
  h_getInput host (js "web-identity-token-file") false = Ok file →
  isDefined (env w !! js "GITHUB_REPOSITORY") = true →
  h_getIDToken host (trace w) audience = Ok token →
  matchesRegionRegex awsRegion = true →
  requiredEnvironment (env w) = false →
  let started :=
    trace w ++ [CoreGetIDToken audience;
                CoreExportVariable (js "AWS_DEFAULT_REGION") (Some awsRegion);
                CoreExportVariable (js "AWS_REGION") (Some awsRegion)] in
  let delays := backoffDelays host 0 50 started 12 in
  length delays = 12%nat
  ∧ run host w
    = (Some (Ok tt),
       mkWorld (<[js "AWS_REGION" := awsRegion]> (<[js "AWS_DEFAULT_REGION" := awsRegion]> (env w)))
               (started ++ (Sleep <$> delays)
                ++ [CoreSetFailed (js "Missing required environment value. Are you running in GitHub Actions?")])).
Proof.
  intros Hregion Haudience Haccount Hduration Hsession Hfile Hrepo Htoken Hmatch Henv
    started delays.
  split; [apply backoffDelays_length|].
  unfold run, tryCatch, runBody, getInput, getRoleToAssume, getIDToken, exportRegion.
  rewrite bind_attempt, Hregion, bind_attempt, Haudience, bind_attempt, Haccount,
    bind_attempt, Hduration. cbv zeta.
  rewrite bind_attempt, Hsession. cbv zeta.
  rewrite bind_attempt, Hfile.
  rewrite !bind_assoc, bind_getenv, bind_assoc, bind_assert, Hrepo, bind_ret.
  rewrite bind_call, Htoken, Hmatch. cbn [negb]. exec.
  change (truthy (js "arn:aws:iam::<SOME_ACCOUNT>:role/github-" ++ ?x)) with true.
  cbv iota. unfold bind at 1.
  set (e := <[js "AWS_REGION" := default [] (Some awsRegion)]> _).
  rewrite (retry_pure_failure host _
             (mkError (js "Missing required environment value. Are you running in GitHub Actions?"))
             e 11 0 0 50); [|intros w' Hw'|reflexivity].
  - cbn [trace message]. unfold setFailed, emit. cbn [env trace fst snd].
    subst started delays e. rewrite <- !app_assoc. reflexivity.
  - rewrite assumeRole_run. unfold assumeRoleCommand. cbv zeta.
    cbn [roleToAssume roleDurationSeconds roleSessionName region].
    rewrite bind_assert, (run_inputs_are_defined _ _ _ _ Hmatch). exec.
    rewrite bind_assert, Hw'. fold (requiredEnvironment e). subst e.
    rewrite !requiredEnvironment_exported, Henv by (by apply (bool_decide_unpack _)).
    reflexivity.
Qed.

(** ** The region in the run *)

Lemma quiet_exportCredentials_only P credentials :
  (∀ val, P (CoreSetSecret val) = true) →
  (∀ name val, name ∈ credentialNames → P (CoreExportVariable name val) = true) →
  holds (quiet P) (exportCredentials credentials).
Proof.
  intros Hsecret Hexport.
  assert (∀ val, P (CoreExportVariable (js "AWS_ACCESS_KEY_ID") val) = true) as H1
    by (intros; apply Hexport; by apply (bool_decide_unpack _)).
  assert (∀ val, P (CoreExportVariable (js "AWS_SECRET_ACCESS_KEY") val) = true) as H2
    by (intros; apply Hexport; by apply (bool_decide_unpack _)).
  assert (∀ val, P (CoreExportVariable (js "AWS_SESSION_TOKEN") val) = true) as H3
    by (intros; apply Hexport; by apply (bool_decide_unpack _)).
  unfold exportCredentials, setSecret. repeat quiet_step.
Qed.

(** The stages after the export of the region, for a [P] that holds of
    all they do. *)
(* In each case the side conditions are facts about [P] at one kind of
   effect. *)
Ltac stages_quiet side :=
  repeat first
    [ apply (holds_retryAndBackoff _ (quiet_refl _) (quiet_trans _));
        [ intros; apply quiet_emit; side | apply quiet_ask
        | apply quiet_assumeRole; intros; side ]
    | apply quiet_presignGetCallerIdentity; intros; side
    | apply quiet_getCredentials; intros; side
    | apply quiet_exportCredentials_only; intros; side
    | apply quiet_getInput
    | apply quiet_getRoleToAssume
    | apply (holds_bind _ (quiet_trans _)); [| intros ?]
    | apply (holds_ret _ (quiet_refl _))
    | apply (holds_throw _ (quiet_refl _))
    | progress cbv zeta
    | lazymatch goal with
      | |- holds _ (if ?b then _ else _) => destruct b
      end ].

Ltac region_side :=
  first [ reflexivity
        | match goal with
          | H : _ ∈ credentialNames |- _ =>
              revert H; unfold credentialNames;
              rewrite !elem_of_cons, elem_of_nil; intros [->|[->|[->|[]]]]; by vm_compute
          end ].

Lemma quiet_run_region host : holds (quiet (regionGuard host)) (run host).
Proof.
  unfold run. apply (holds_tryCatch _ (quiet_trans _));
    [|intros e; apply quiet_emit; reflexivity].
  intros w. unfold runBody, getInput. rewrite bind_attempt.
  destruct (h_getInput host (js "aws-region") true) as [awsRegion|e] eqn:Hregion;
    [|apply quiet_refl].
  lazymatch goal with |- quiet ?P ?w (?c ?w).2 => revert w; change (holds (quiet P) c) end.
  do 3 (apply (holds_bind _ (quiet_trans _)); [apply quiet_attempt | intros ?]).
  cbv zeta.
  do 2 (apply (holds_bind _ (quiet_trans _)); [apply quiet_attempt | intros ?]).
  apply (holds_bind _ (quiet_trans _)); [apply quiet_getRoleToAssume | intros ?].
  apply (holds_bind _ (quiet_trans _)); [apply quiet_call; reflexivity | intros ?].
  destruct (matchesRegionRegex awsRegion) eqn:Hmatch; cbn [negb];
    [|apply (holds_throw _ (quiet_refl _))].
  assert (∀ name, name ∈ regionNames →
            regionGuard host (CoreExportVariable name (Some awsRegion)) = true) as Hguard.
  { intros name Hname. unfold regionGuard.
    rewrite (bool_decide_eq_true_2 _ Hname), Hregion, Hmatch.
    by rewrite bool_decide_eq_true_2. }
  unfold exportRegion.
  apply (holds_bind _ (quiet_trans _)); [|intros _; stages_quiet region_side].
  apply (holds_bind _ (quiet_trans _)); [|intros _];
    apply quiet_exportVariable, Hguard; by apply (bool_decide_unpack _).
Qed.

(** X9. A region variable is only ever exported with the [aws-region]
    input as its value, and only if that input matches the region
    pattern: the run exports no region it has not validated. *)
Theorem exported_region_is_valid host w evs name val :
  trace (run host w).2 = trace w ++ evs →
  CoreExportVariable name val ∈ evs →
  name ∈ regionNames →
  ∃ awsRegion,
    val = Some awsRegion
    ∧ h_getInput host (js "aws-region") true = Ok awsRegion
    ∧ matchesRegionRegex awsRegion = true.
Proof.
  intros Htrace Hin Hname.
  destruct (quiet_run_region host w) as [(evs' & Htrace' & Hevs) _].
  rewrite Htrace in Htrace'. apply app_inv_head in Htrace' as <-.
  rewrite Forall_forall in Hevs. specialize (Hevs _ Hin). cbn [regionGuard] in Hevs.
  rewrite (bool_decide_eq_true_2 _ Hname) in Hevs.
  destruct (h_getInput host (js "aws-region") true) as [awsRegion|]; [|done].
  destruct val as [exported|]; [|done].
  apply andb_true_iff in Hevs as [->%bool_decide_eq_true Hmatch].
  by exists awsRegion.
Qed.

(** X10. Once the region has passed validation it is exported, to
    [AWS_DEFAULT_REGION] and to [AWS_REGION], before anything else is
    attempted, and nothing the run does afterwards exports a region
    again: both variables hold it when the run ends, also when a later
    stage has failed. *)
Theorem region_stays_exported host w awsRegion audience accountName duration session
    file token :
  h_getInput host (js "aws-region") true = Ok awsRegion →
  h_getInput host (js "audience") false = Ok audience →
  h_getInput host (js "account-name") true = Ok accountName →
  h_getInput host (js "role-duration-seconds") false = Ok duration →
  h_getInput host (js "role-session-name") false = Ok session →
  h_getInput host (js "web-identity-token-file") false = Ok file →
  isDefined (env w !! js "GITHUB_REPOSITORY") = true →
  h_getIDToken host (trace w) audience = Ok token →
  matchesRegionRegex awsRegion = true →
  let w' := (run host w).2 in
  env w' !! js "AWS_DEFAULT_REGION" = Some awsRegion
  ∧ env w' !! js "AWS_REGION" = Some awsRegion
  ∧ ∃ evs,
      trace w'
      = trace w ++ [CoreGetIDToken audience;
                    CoreExportVariable (js "AWS_DEFAULT_REGION") (Some awsRegion);
                    CoreExportVariable (js "AWS_REGION") (Some awsRegion)] ++ evs
      ∧ Forall (λ e, notRegionExport e = true) evs.
Proof.
  intros Hregion Haudience Haccount Hduration Hsession Hfile Hrepo Htoken Hmatch w'.
  set (w1 := mkWorld (<[js "AWS_REGION" := awsRegion]>
                        (<[js "AWS_DEFAULT_REGION" := awsRegion]> (env w)))
                     (trace w ++ [CoreGetIDToken audience;
                        CoreExportVariable (js "AWS_DEFAULT_REGION") (Some awsRegion);
                        CoreExportVariable (js "AWS_REGION") (Some awsRegion)])).
  assert (∃ rest : M unit, runBody host w = rest w1 ∧ holds (quiet notRegionExport) rest)
    as (rest & Hbody & Hrest).
  { eexists. split.
    - unfold runBody, getInput, getRoleToAssume, getIDToken, exportRegion.
      rewrite bind_attempt, Hregion, bind_attempt, Haudience, bind_attempt, Haccount,
        bind_attempt, Hduration. cbv zeta.
      rewrite bind_attempt, Hsession. cbv zeta.
      rewrite bind_attempt, Hfile.
      rewrite !bind_assoc, bind_getenv, bind_assoc, bind_assert, Hrepo, bind_ret.
      rewrite bind_call, Htoken, Hmatch. cbn [negb]. exec.
      rewrite <- !app_assoc. cbn [app default]. change (id awsRegion) with awsRegion.
      reflexivity.
    - cbv beta. stages_quiet region_side. }
  assert (quiet notRegionExport w1 w') as [(evs & Htrace & Hevs) Henv].
  { subst w'. unfold run, tryCatch. rewrite Hbody.
    pose proof (Hrest w1) as Hq. destruct (rest w1) as [[[[]|e]|] w2]; cbn [snd] in *;
      [done| |done].
    eapply quiet_trans; [exact Hq|]. by apply quiet_event. }
  split; [|split].
  - rewrite Henv by (intros val; by vm_compute). subst w1. cbn [env].
    rewrite lookup_insert_ne by (by apply (bool_decide_unpack _)).
    apply lookup_insert_eq.
  - rewrite Henv by (intros val; by vm_compute). subst w1. cbn [env].
    apply lookup_insert_eq.
  - exists evs. split; [|done]. rewrite Htrace. subst w1. cbn [trace].
    by rewrite <- app_assoc.
Qed.

(** ** How much a run does *)

Section Counting.
Variable p : Event → bool.

Lemma atMost_weaken a b w w' : (a ≤ b)%nat → atMost p a w w' → atMost p b w w'.
Proof. intros Hab (evs & Htrace & Hlen). exists evs. split; [done | lia]. Qed.

Lemma atMost_compose a b w1 w2 w3 :
  atMost p a w1 w2 → atMost p b w2 w3 → atMost p (a + b) w1 w3.
Proof.
  intros (evs1 & E1 & L1) (evs2 & E2 & L2). exists (evs1 ++ evs2).
  rewrite E2, E1, app_assoc. split; [done|].
  rewrite List.filter_app, length_app. lia.
Qed.

Lemma quiet_atMost n w w' : quiet (λ e, negb (p e)) w w' → atMost p n w w'.
Proof.
  intros [(evs & Htrace & Hevs) _]. exists evs. split; [done|].
  assert (List.filter p evs = []) as ->; [|cbn; lia].
  clear Htrace. induction Hevs as [|ev evs Hev _ IH]; [done|].
  cbn [List.filter]. apply negb_true_iff in Hev. by rewrite Hev.
Qed.

Lemma atMost_bind {A B} a b (c : M A) (k : A → M B) :
  holds (atMost p a) c → (∀ x, holds (atMost p b) (k x)) →
  holds (atMost p (a + b)) (bind c k).
Proof.
  apply holds_bind_compose.
  - intros w w'. apply atMost_weaken. lia.
  - apply atMost_compose.
Qed.

(** With [fuel] attempts, the executor does what [fuel] attempts and
    [fuel] sleeps do. *)
Lemma atMost_retryAndBackoff host {A} a b (fn : M A) isRetryable fuel :
  ∀ retries maxRetries base,
  holds (atMost p a) fn →
  (∀ ms, holds (atMost p b) (sleep ms)) →
  holds (atMost p (fuel * (a + b)))
        (retryAndBackoff sleep (random host) fuel fn isRetryable retries maxRetries base).
Proof.
  intros retries maxRetries base Hfn Hsleep. revert retries.
  induction fuel as [|fuel IH]; intros retries w.
  - exists []. split; [by rewrite app_nil_r | cbn; lia].
  - cbn [retryAndBackoff]. unfold tryCatch. pose proof (Hfn w) as Hw.
    destruct (fn w) as [[[v|err]|] w1]; cbn [snd] in *;
      [eapply atMost_weaken; [|exact Hw]; lia | | eapply atMost_weaken; [|exact Hw]; lia].
    destruct isRetryable; cbn [negb];
      [|unfold throw; cbn [snd]; eapply atMost_weaken; [|exact Hw]; lia].
    unfold random. rewrite bind_ask. unfold sleep at 1. rewrite bind_emit. cbv zeta.
    pose proof (Hsleep (Qmult (h_random host (trace w1))
                              (Qmult (Qpower (inject_Z 2) retries) (inject_Z base))) w1) as Hs.
    unfold sleep, emit in Hs. cbn [snd] in Hs.
    replace (S fuel * (a + b))%nat with (a + (b + fuel * (a + b)))%nat by lia.
    eapply atMost_compose; [exact Hw|].
    destruct (retries + 1 =? maxRetries).
    + unfold throw. cbn [snd]. eapply atMost_weaken; [|exact Hs]. lia.
    + eapply atMost_compose; [exact Hs | apply IH].
Qed.
End Counting.

Ltac outside_retry :=
  idtac;
  match goal with
  | H : ∀ e, isRetried e = false → _ |- _ => by apply H
  end.

(** A stage of [runBody], by its head, for a [P] that holds of what the
    stage does. *)
Ltac stage_quiet side :=
  lazymatch goal with
  | |- holds _ (getInput _ _ _) => apply quiet_getInput
  | |- holds _ getRoleToAssume => apply quiet_getRoleToAssume
  | |- holds _ (call _ _) => apply quiet_call; side
  | |- holds _ (exportRegion _) => apply quiet_exportRegion; intros; side
  | |- holds _ (retryAndBackoff _ _ _ _ _ _ _ _) =>
      apply (holds_retryAndBackoff _ (quiet_refl _) (quiet_trans _));
        [ intros; apply quiet_emit; side | apply quiet_ask
        | apply quiet_assumeRole; intros; side ]
  | |- holds _ (presignGetCallerIdentity _ _ _) =>
      apply quiet_presignGetCallerIdentity; intros; side
  | |- holds _ (getCredentials _ _ _) => apply quiet_getCredentials; intros; side
  | |- holds _ (exportCredentials _) => apply quiet_exportCredentials; intros; side
  | |- holds _ (throw _) => apply (holds_throw _ (quiet_refl _))
  | |- holds _ (ret _) => apply (holds_ret _ (quiet_refl _))
  | |- holds _ (bind _ _) => apply (holds_bind _ (quiet_trans _)); [| intros ?]
  | |- holds _ (if ?b then _ else _) => destruct b
  end.

(** A stage that does nothing of the kind [p]. *)
Ltac uncounted p side :=
  apply (holds_weaken (quiet (λ e, negb (p e)))); [apply quiet_atMost|];
  stage_quiet side.

Lemma count_runBody host p a b :
  (∀ e, p e = true → isRetried e = true) →
  (∀ params, holds (atMost p a) (assumeRole host params)) →
  (∀ ms, holds (atMost p b) (sleep ms)) →
  holds (atMost p (12 * (a + b))) (runBody host).
Proof.
  intros Hsub Hassume Hsleep. set (n := (12 * (a + b))%nat).
  assert (∀ e, isRetried e = false → negb (p e) = true) as Hside.
  { intros e He. apply negb_true_iff, not_true_is_false. intros Hp.
    apply Hsub in Hp. congruence. }
  unfold runBody, getIDToken.
  repeat first
    [ progress cbv zeta
    | lazymatch goal with
      | |- holds _ (bind (retryAndBackoff _ _ _ _ _ _ _ _) _) =>
          apply (holds_bind_compose (atMost p n) (atMost p 0) (atMost p n));
            [ done
            | intros w1 w2 w3 H1 H2; apply (atMost_weaken p (n + 0)); [lia|];
              by apply (atMost_compose p n 0 w1 w2 w3)
            | by apply atMost_retryAndBackoff
            | intros ? ]
      | |- holds (atMost _ ?m) (bind _ _) =>
          apply (atMost_bind p 0 m); [uncounted p outside_retry | intros ?]
      | |- holds _ (if ?b then _ else _) => destruct b
      | |- _ => uncounted p outside_retry
      end ].
Qed.

Lemma count_run host p n :
  (∀ msg, p (CoreSetFailed msg) = false) →
  holds (atMost p n) (runBody host) → holds (atMost p n) (run host).
Proof.
  intros Hfailed Hbody w. unfold run, tryCatch. specialize (Hbody w).
  destruct (runBody host w) as [[[[]|e]|] w']; cbn [snd] in *; [done| |done].
  apply (atMost_weaken p (n + 0)); [lia|].
  eapply atMost_compose; [exact Hbody|].
  exists [CoreSetFailed (message e)]. split; [done|]. cbn. by rewrite Hfailed.
Qed.

(** X11. A run never throws: what goes wrong inside it ends in one
    [setFailed].  Whatever its collaborators answer, it sends at most
    twelve requests to STS, sleeps at most twelve times, and reports at
    most one failure. *)
Theorem run_is_bounded host w :
  (run host w).1 = Some (Ok tt)
  ∧ atMost isStsSend 12 w (run host w).2
  ∧ atMost isSleep 12 w (run host w).2
  ∧ atMost isSetFailed 1 w (run host w).2.
Proof.
  split; [apply run_returns|]. split; [|split].
  - apply count_run; [done|].
    apply (count_runBody host isStsSend 1 0).
    + intros e He. unfold isRetried. by rewrite He.
    + intros params. apply (holds_weaken (quiet (λ e, negb (isStsSend e))));
        [apply quiet_atMost | by apply quiet_assumeRole].
    + intros ms w0. apply (quiet_atMost isStsSend). by apply quiet_event.
  - apply count_run; [done|].
    apply (count_runBody host isSleep 0 1).
    + intros e He. unfold isRetried. rewrite He. apply orb_true_r.
    + intros params. apply (holds_weaken (quiet (λ e, negb (isSleep e))));
        [apply quiet_atMost | by apply quiet_assumeRole].
    + intros ms w0. exists [Sleep ms]. split; [done | cbn; lia].
  - intros. assert (holds (atMost isSetFailed 0) (runBody host)) as Hbody.
    { apply (holds_weaken (quiet (λ e, negb (isSetFailed e)))); [apply quiet_atMost|].
      unfold runBody, getIDToken.
      repeat first [progress cbv zeta | stage_quiet ltac:(reflexivity)]. }
    unfold run, tryCatch. specialize (Hbody w).
    destruct (runBody host w) as [[[[]|e]|] w']; cbn [snd] in *.
    + eapply atMost_weaken; [|exact Hbody]. lia.
    + apply (atMost_compose isSetFailed 0 1 _ _ _ Hbody).
      exists [CoreSetFailed (message e)]. split; [done | cbn; lia].
    + eapply atMost_weaken; [|exact Hbody]. lia.
Qed.

(** ** Where every run ends *)

Lemma retry_logged_round host {A} (fn : M A) fuel retries maxRetries base w err w1 :
  fn w = (Some (Err err), w1) →
  retryAndBackoff sleep (random host) (S fuel) fn true retries maxRetries base w
  = let ms := Qmult (h_random host (trace w1))
                    (Qmult (Qpower (inject_Z 2) retries) (inject_Z base)) in
    let w2 := mkWorld (env w1) (trace w1 ++ [Sleep ms]) in
    if retries + 1 =? maxRetries then (Some (Err err), w2)
    else retryAndBackoff sleep (random host) fuel fn true (retries + 1) maxRetries base w2.
Proof.
  intros Hfn. cbn [retryAndBackoff]. unfold tryCatch at 1. rewrite Hfn. cbn [negb].
  unfold random, sleep. rewrite bind_ask, bind_emit. cbv zeta.
  by destruct (retries + 1 =? maxRetries).
Qed.

(** An operation that logs the same and fails, whatever was logged
    before, is retried until the retries are used up. *)
Lemma retry_logged_failure host {A} (fn : M A) err e logged n : ∀ fuel retries base w,
  (∀ w', env w' = e → fn w' = (Some (Err err), mkWorld e (trace w' ++ logged))) →
  env w = e →
  retryAndBackoff sleep (random host) (S n + fuel) fn true retries
                  (retries + Z.of_nat (S n)) base w
  = (Some (Err err),
     mkWorld e (trace w ++ failedAttempts host logged retries base (trace w) (S n))).
Proof.
  induction n as [|n IH]; intros fuel retries base w Hfn Hw;
    change (S ?k + fuel)%nat with (S (k + fuel));
    rewrite (retry_logged_round _ _ _ _ _ _ _ err _ (Hfn w Hw)); cbv zeta; cbn [env trace].
  - change (Z.of_nat 1) with 1. rewrite Z.eqb_refl. cbn [failedAttempts].
    by rewrite <- !app_assoc.
  - destruct (Z.eqb_spec (retries + 1) (retries + Z.of_nat (S (S n)))) as [Heq|_]; [lia|].
    replace (retries + Z.of_nat (S (S n))) with (retries + 1 + Z.of_nat (S n)) by lia.
    change (S (n + fuel)) with (S n + fuel)%nat. rewrite IH by done.
    cbn [trace]. cbn [failedAttempts]. by rewrite <- !app_assoc.
Qed.

Lemma failedAttempts_length host logged retries base h n :
  length (failedAttempts host logged retries base h n) = (n * S (length logged))%nat.
Proof.
  revert retries h. induction n as [|n IH]; intros retries h; [done|].
  cbn [failedAttempts]. rewrite length_app. cbn [length]. rewrite IH. lia.
Qed.

Lemma environmentTags_exported e name val :
  name ∈ regionNames ++ credentialNames →
  environmentTags (<[name := val]> e) = environmentTags e.
Proof.
  intros Hname. unfold environmentTags.
  rewrite !lookup_insert_ne; [done|..]; intros ->; revert Hname;
    apply (bool_decide_unpack _); by vm_compute.
Qed.

(** X12. In GitHub Actions, with its inputs read, an ID token and a
    valid region, a run asks nothing of STS: each of its twelve attempts
    logs the tag count and fails at the call of the command class, each
    is followed by a sleep, and the run ends by reporting the
    [TypeError].  The region is all it has exported. *)
Theorem run_fails_at_the_command_class host w awsRegion audience accountName duration session
    file token :
  h_getInput host (js "aws-region") true = Ok awsRegion →
  h_getInput host (js "audience") false = Ok audience →
  h_getInput host (js "account-name") true = Ok accountName →
  h_getInput host (js "role-duration-seconds") false = Ok duration →
  h_getInput host (js "role-session-name") false = Ok session →
  h_getInput host (js "web-identity-token-file") false = Ok file →
  h_getIDToken host (trace w) audience = Ok token →
  truthy token = true →
  matchesRegionRegex awsRegion = true →
  requiredEnvironment (env w) = true →
  let started :=
    trace w ++ [CoreGetIDToken audience;
                CoreExportVariable (js "AWS_DEFAULT_REGION") (Some awsRegion);
                CoreExportVariable (js "AWS_REGION") (Some awsRegion)] in
  let attempts :=
    failedAttempts host [CoreDebug (tagCountNotice (environmentTags (env w)))] 0 50
                   started 12 in
  length attempts = 24%nat
  ∧ run host w
    = (Some (Ok tt),
       mkWorld (<[js "AWS_REGION" := awsRegion]> (<[js "AWS_DEFAULT_REGION" := awsRegion]> (env w)))
               (started ++ attempts
                ++ [CoreSetFailed (js "Class constructor AssumeRoleWithWebIdentityCommand cannot be invoked without 'new'")])).
Proof.
  intros Hregion Haudience Haccount Hduration Hsession Hfile Htoken Htruthy Hmatch Henv
    started attempts.
  split; [apply failedAttempts_length|].
  assert (isDefined (env w !! js "GITHUB_REPOSITORY") = true) as Hrepo.
  { unfold requiredEnvironment in Henv.
    by destruct (isDefined (env w !! js "GITHUB_REPOSITORY")). }
  unfold run, tryCatch, runBody, getInput, getRoleToAssume, getIDToken, exportRegion.
  rewrite bind_attempt, Hregion, bind_attempt, Haudience, bind_attempt, Haccount,
    bind_attempt, Hduration. cbv zeta.
  rewrite bind_attempt, Hsession. cbv zeta.
  rewrite bind_attempt, Hfile.
  rewrite !bind_assoc, bind_getenv, bind_assoc, bind_assert, Hrepo, bind_ret.
  rewrite bind_call, Htoken, Hmatch. cbn [negb]. exec.
  change (truthy (js "arn:aws:iam::<SOME_ACCOUNT>:role/github-" ++ ?x)) with true.
  cbv iota. unfold bind at 1.
  set (e := <[js "AWS_REGION" := default [] (Some awsRegion)]> _).
  rewrite (retry_logged_failure host _
             (classConstructorError AssumeRoleWithWebIdentityCommand)
             e [CoreDebug (tagCountNotice (environmentTags (env w)))] 11 0 0 50);
    [|intros w' Hw'|reflexivity].
  - cbn [trace message]. unfold setFailed, emit. cbn [env trace fst snd].
    subst started attempts e. rewrite <- !app_assoc. reflexivity.
  - rewrite assumeRole_run. unfold assumeRoleCommand. cbv zeta.
    cbn [roleToAssume roleDurationSeconds roleSessionName region sourceAccountId
         roleExternalId webIdentityToken webIdentityTokenFile].
    rewrite bind_assert, (run_inputs_are_defined _ _ _ _ Hmatch). exec.
    rewrite bind_assert, Hw'. fold (requiredEnvironment e).
    assert (requiredEnvironment e = true) as ->.
    { subst e. by rewrite !requiredEnvironment_exported by (by apply (bool_decide_unpack _)). }
    exec.
    change (startsWith (default [] (Some (js "arn:aws:iam::<SOME_ACCOUNT>:role/github-" ++ ?x)))
                       (js "arn:aws")) with true.
    cbn [negb]. exec. unfold isDefined at 1. cbn [truthy truthy_option]. rewrite Htruthy.
    unfold debug. exec. cbv iota. rewrite Hw'.
    change (roleSessionTags _ _ _ _ _ _) with (environmentTags e).
    assert (environmentTags e = environmentTags (env w)) as ->.
    { subst e. by rewrite !environmentTags_exported by (by apply (bool_decide_unpack _)). }
    reflexivity.
Qed.

(** ** What no run does *)

Lemma holds_bind_yields {S A B} (R : S → S → Prop) (Φ : A → Prop)
    (c : Eff S A) (k : A → Eff S B) :
  (∀ s1 s2 s3, R s1 s2 → R s2 s3 → R s1 s3) →
  holds R c → yields Φ c → (∀ a, Φ a → holds R (k a)) → holds R (bind c k).
Proof.
  intros Htrans Hc HΦ Hk s. unfold bind. specialize (Hc s). specialize (HΦ s).
  destruct (c s) as [[[a|e]|] s']; cbn in *; [|done..].
  eapply Htrans; [exact Hc|]. by eapply Hk, HΦ.
Qed.

Lemma bind_returns {S A B} (c : Eff S A) (k : A → Eff S B) s b s' :
  bind c k s = (Some (Ok b), s') →
  ∃ a s1, c s = (Some (Ok a), s1) ∧ k a s1 = (Some (Ok b), s').
Proof.
  unfold bind. destruct (c s) as [[[a|e]|] s1]; [|done..]. intros Hk. by exists a, s1.
Qed.

(** What the executor returns, an attempt has returned. *)
Lemma yields_retryAndBackoff {S A} (Φ : A → Prop) (sleep : Q → Eff S unit) (random : Eff S Q)
    fuel (fn : Eff S A) isRetryable retries maxRetries base :
  yields Φ fn →
  yields Φ (retryAndBackoff sleep random fuel fn isRetryable retries maxRetries base).
Proof.
  intros Hfn. revert retries.
  induction fuel as [|fuel IH]; intros retries s a s'; cbn [retryAndBackoff]; [done|].
  unfold tryCatch. destruct (fn s) as [[[v|err]|] s1] eqn:Hs; [|clear Hs|done].
  - intros [= -> ->]. by eapply Hfn.
  - destruct isRetryable; cbn [negb]; [|done].
    intros (r & s2 & _ & Hrest)%bind_returns.
    apply bind_returns in Hrest as ([] & s3 & _ & Hrest). cbv zeta in Hrest.
    destruct (retries + 1 =? maxRetries); [done|]. by eapply IH.
Qed.

(** [assumeRole] returns nothing. *)
Lemma yields_assumeRole host params : yields (λ _, False) (assumeRole host params).
Proof.
  intros w credentials w'. rewrite assumeRole_run.
  by destruct (assumeRoleCommand host params w) as [[[[[sts f] request]|e]|] w1].
Qed.

Lemma getRoleToAssume_returns w role w' :
  getRoleToAssume w = (Some (Ok role), w') → truthy role = true.
Proof.
  unfold getRoleToAssume. rewrite bind_getenv, bind_assert.
  destruct (isDefined (env w !! js "GITHUB_REPOSITORY")); [|done].
  unfold ret. by intros [= <- _].
Qed.

(** The body of [run] always throws. *)
Lemma runBody_never_returns host w w' : runBody host w ≠ (Some (Ok tt), w').
Proof.
  unfold runBody. intros Hbody.
  apply bind_returns in Hbody as (awsRegion & w1 & _ & Hbody).
  apply bind_returns in Hbody as (audience & w2 & _ & Hbody).
  apply bind_returns in Hbody as (accountName & w3 & _ & Hbody).
  apply bind_returns in Hbody as (duration & w4 & _ & Hbody). cbv zeta in Hbody.
  apply bind_returns in Hbody as (session & w5 & _ & Hbody). cbv zeta in Hbody.
  apply bind_returns in Hbody as (file & w6 & _ & Hbody).
  apply bind_returns in Hbody as (role & w7 & Hrole & Hbody).
  apply bind_returns in Hbody as (token & w8 & _ & Hbody).
  destruct (matchesRegionRegex awsRegion); cbn [negb] in Hbody; [|done].
  apply bind_returns in Hbody as ([] & w9 & _ & Hbody).
  rewrite (getRoleToAssume_returns _ _ _ Hrole) in Hbody.
  apply bind_returns in Hbody as (credentials & w10 & Hretry & _).
  exact (yields_retryAndBackoff (λ _, False) _ _ _ _ _ _ _ _
           (yields_assumeRole host _) _ _ _ Hretry).
Qed.

(** A stage of [runBody], for a [P] that holds of what the stages up to
    the role assumption do; what comes after it is never reached. *)
Ltac stage_reached side :=
  lazymatch goal with
  | |- holds _ (bind (retryAndBackoff _ _ _ _ _ _ _ _) _) =>
      eapply (holds_bind_yields _ _ _ _ (quiet_trans _));
        [ stage_quiet side
        | apply yields_retryAndBackoff, yields_assumeRole
        | intros ? [] ]
  | |- holds _ (bind _ _) =>
      apply (holds_bind _ (quiet_trans _)); [stage_quiet side | intros ?]
  | |- holds _ (if ?b then _ else _) => destruct b
  | |- holds _ _ => stage_quiet side
  end.

(** X13. No run gets as far as the signer or the broker.  Whatever its
    collaborators answer, all a run does is to request the ID token,
    export the two region variables, log diagnostics, sleep and report a
    failure: it sends nothing to STS, presigns nothing, posts nothing,
    registers no secret and exports no credentials, and apart from the
    two region variables the environment stays as it was. *)
Theorem run_never_reaches_the_broker host w :
  let w' := (run host w).2 in
  (∃ evs, trace w' = trace w ++ evs
          ∧ Forall (λ e, beforeAssuming e || isSetFailed e = true) evs)
  ∧ ∀ name, name ∉ regionNames → env w' !! name = env w !! name.
Proof.
  intros w'.
  assert (holds (quiet (λ e, beforeAssuming e || isSetFailed e)) (run host)) as Hrun.
  { unfold run. apply (holds_tryCatch _ (quiet_trans _));
      [|intros ?; apply quiet_emit; reflexivity].
    unfold runBody, getIDToken.
    repeat first [progress cbv zeta | stage_reached ltac:(vm_compute; reflexivity)]. }
  destruct (Hrun w) as [Hevs Henv]. split; [exact Hevs|].
  intros name Hname. apply Henv. intros val. cbn [beforeAssuming isSetFailed].
  rewrite orb_false_r. by apply bool_decide_eq_false.
Qed.

(** X14. No run succeeds: the body of [run] always throws, at the latest
    when the retries of the role assumption are used up, and the run
    ends by handing the message of what was thrown to [core.setFailed]. *)
Theorem every_run_reports_a_failure host w :
  ∃ e w1,
    runBody host w = (Some (Err e), w1)
    ∧ run host w
      = (Some (Ok tt), mkWorld (env w1) (trace w1 ++ [CoreSetFailed (message e)])).
Proof.
  pose proof (settles_runBody host w) as Hsettles.
  pose proof (runBody_never_returns host w) as Hthrows.
  unfold run, tryCatch.
  destruct (runBody host w) as [[[[]|e]|] w1]; cbn [fst] in *;
    [by destruct (Hthrows w1) | by exists e, w1 | done].
Qed.

(** ** The theorems on the run, at concrete runs *)

Lemma missing_environment_is_retried_witness :
  let started :=
    [CoreGetIDToken (js "");
     CoreExportVariable (js "AWS_DEFAULT_REGION") (Some (js "us-east-1"));
     CoreExportVariable (js "AWS_REGION") (Some (js "us-east-1"))] in
  let delays := backoffDelays Calls.host 0 50 started 12 in
  length delays = 12%nat
  ∧ run Calls.host Runs.outsideActions
    = (Some (Ok tt),
       mkWorld (<[js "AWS_REGION" := js "us-east-1"]>
                  (<[js "AWS_DEFAULT_REGION" := js "us-east-1"]> (env Runs.outsideActions)))
               (started ++ (Sleep <$> delays)
                ++ [CoreSetFailed (js "Missing required environment value. Are you running in GitHub Actions?")])).
Proof.
  apply (missing_environment_is_retried Calls.host Runs.outsideActions (js "us-east-1") (js "")
           (js "prod") (js "") (js "") (js "") (js "oidc-token")); vm_compute; reflexivity.
Defined.

Lemma exported_region_is_valid_witness :
  ∃ awsRegion,
    Some (js "us-east-1") = Some awsRegion
    ∧ h_getInput Calls.host (js "aws-region") true = Ok awsRegion
    ∧ matchesRegionRegex awsRegion = true.
Proof.
  apply (exported_region_is_valid Calls.host Scenario.start
           (trace (run Calls.host Scenario.start).2) (js "AWS_REGION")).
  - reflexivity.
  - apply (list_elem_of_lookup_2 _ 2). vm_compute. reflexivity.
  - apply (bool_decide_unpack _). vm_compute. reflexivity.
Defined.

Lemma region_stays_exported_witness :
  let w' := (run Runs.brokerDown Scenario.start).2 in
  env w' !! js "AWS_DEFAULT_REGION" = Some (js "us-east-1")
  ∧ env w' !! js "AWS_REGION" = Some (js "us-east-1")
  ∧ ∃ evs,
      trace w'
      = trace Scenario.start
        ++ [CoreGetIDToken (js "");
            CoreExportVariable (js "AWS_DEFAULT_REGION") (Some (js "us-east-1"));
            CoreExportVariable (js "AWS_REGION") (Some (js "us-east-1"))] ++ evs
      ∧ Forall (λ e, notRegionExport e = true) evs.
Proof.
  apply (region_stays_exported Runs.brokerDown Scenario.start (js "us-east-1") (js "")
           (js "prod") (js "") (js "") (js "") (js "oidc-token")); vm_compute; reflexivity.
Defined.

Lemma run_fails_at_the_command_class_witness :
  let started :=
    [CoreGetIDToken (js "");
     CoreExportVariable (js "AWS_DEFAULT_REGION") (Some (js "us-east-1"));
     CoreExportVariable (js "AWS_REGION") (Some (js "us-east-1"))] in
  let attempts :=
    failedAttempts Calls.host
      [CoreDebug (tagCountNotice (environmentTags (env Scenario.start)))] 0 50 started 12 in
  length attempts = 24%nat
  ∧ run Calls.host Scenario.start
    = (Some (Ok tt),
       mkWorld (<[js "AWS_REGION" := js "us-east-1"]>
                  (<[js "AWS_DEFAULT_REGION" := js "us-east-1"]> (env Scenario.start)))
               (started ++ attempts
                ++ [CoreSetFailed (js "Class constructor AssumeRoleWithWebIdentityCommand cannot be invoked without 'new'")])).
Proof.
  apply (run_fails_at_the_command_class Calls.host Scenario.start (js "us-east-1") (js "")
           (js "prod") (js "") (js "") (js "") (js "oidc-token")); vm_compute; reflexivity.
Defined.
